(** * The generation client of [src/services/geminiService.ts]

    A shallow embedding of the four functions of the service module
    ([getAiClient], [fileToGenerativePart], [editImage], [generateVideo])
    and the properties the specification states about them.

    The module is asynchronous, talks to a remote service and reports
    progress through a callback.  Every [await] of the source is a
    sequencing point of the [Async] monad below; every observable action
    (a progress message, a file read, a remote call, the ten-second timer)
    is appended to a trace, so that "before", "after", "exactly once" and
    "never" are statements about that trace.

    The two components that call the module, [ImageEditor] and
    [VideoGenerator], are embedded as well: their state, what each
    handler does to it, and sessions of user actions. *)

From Stdlib Require Import List String Ascii Strings.Byte Arith NArith Lia Bool DecimalString DecimalNat.
Import ListNotations.
Local Open Scope string_scope.
Local Open Scope list_scope.

(* ================================================================= *)
(** ** JavaScript strings *)

Module Js.

(** [s.split(sep)] for a one-character separator: the fields between
    the separators, at least one field, empty fields kept. *)
Fixpoint split (sep : ascii) (s : string) : list string :=
  match s with
  | EmptyString => [EmptyString]
  | String c rest =>
      if Ascii.eqb c sep then EmptyString :: split sep rest
      else match split sep rest with
           | field :: fields => String c field :: fields
           | [] => [String c EmptyString]
           end
  end.

(** [a[i]]: [undefined] (here [None]) out of range. *)
Definition index {A} (a : list A) (i : nat) : option A := nth_error a i.

(** Truthiness of a value that is a string or [undefined]:
    [undefined] and the empty string are falsy. *)
Definition truthy (v : option string) : bool :=
  match v with
  | Some EmptyString => false
  | Some _ => true
  | None => false
  end.

(** Conversion of a string-or-undefined inside a template literal. *)
Definition toString (v : option string) : string :=
  match v with
  | Some s => s
  | None => "undefined"
  end.

(** Conversion of a counter inside a template literal (decimal). *)
Definition numberToString (n : nat) : string :=
  NilZero.string_of_uint (Nat.to_uint n).

(** Does the character occur in the string? *)
Fixpoint occurs (c : ascii) (s : string) : bool :=
  match s with
  | EmptyString => false
  | String d rest => Ascii.eqb d c || occurs c rest
  end.

(** The part of [s] before the first [c] (all of [s] without one). *)
Fixpoint before (c : ascii) (s : string) : string :=
  match s with
  | EmptyString => EmptyString
  | String d rest => if Ascii.eqb d c then EmptyString else String d (before c rest)
  end.

(** The part of [s] after the first [c]; [None] without one. *)
Fixpoint after (c : ascii) (s : string) : option string :=
  match s with
  | EmptyString => None
  | String d rest => if Ascii.eqb d c then Some rest else after c rest
  end.

(** Does [s] start with [p]? *)
Fixpoint startsWith (p s : string) : bool :=
  match p with
  | EmptyString => true
  | String a p' =>
      match s with
      | EmptyString => false
      | String b s' => Ascii.eqb a b && startsWith p' s'
      end
  end.

End Js.

(* ================================================================= *)
(** ** Base64, the text encoding of the reader's data URL *)

Module Base64.

Definition alphabet : list ascii :=
  list_ascii_of_string
    "ABCDEFGHIJKLMNOPQRSTUVWXYZabcdefghijklmnopqrstuvwxyz0123456789+/".

Definition pad : ascii := "="%char.

Definition digit (n : nat) : ascii := nth n alphabet pad.

Fixpoint position (c : ascii) (l : list ascii) : option nat :=
  match l with
  | [] => None
  | d :: rest => if Ascii.eqb d c then Some 0 else option_map S (position c rest)
  end.

Definition value (c : ascii) : option nat := position c alphabet.

(** Three bytes are four sextets. *)
Definition sextet1 (a : nat) : nat := a / 4.
Definition sextet2 (a b : nat) : nat := (a mod 4) * 16 + b / 16.
Definition sextet3 (b c : nat) : nat := (b mod 16) * 4 + c / 64.
Definition sextet4 (c : nat) : nat := c mod 64.

Fixpoint encode (bytes : list byte) : string :=
  match bytes with
  | [] => EmptyString
  | [a] =>
      let a := Byte.to_nat a in
      String (digit (sextet1 a)) (String (digit (sextet2 a 0))
        (String pad (String pad EmptyString)))
  | [a; b] =>
      let a := Byte.to_nat a in
      let b := Byte.to_nat b in
      String (digit (sextet1 a)) (String (digit (sextet2 a b))
        (String (digit (sextet3 b 0)) (String pad EmptyString)))
  | a :: b :: c :: rest =>
      let a := Byte.to_nat a in
      let b := Byte.to_nat b in
      let c := Byte.to_nat c in
      String (digit (sextet1 a)) (String (digit (sextet2 a b))
        (String (digit (sextet3 b c)) (String (digit (sextet4 c))
          (encode rest))))
  end.

Definition byte1 (s1 s2 : nat) : option byte := Byte.of_nat (s1 * 4 + s2 / 16).
Definition byte2 (s2 s3 : nat) : option byte := Byte.of_nat ((s2 mod 16) * 16 + s3 / 4).
Definition byte3 (s3 s4 : nat) : option byte := Byte.of_nat ((s3 mod 4) * 64 + s4).

Definition bind {A B} (o : option A) (k : A -> option B) : option B :=
  match o with
  | Some a => k a
  | None => None
  end.

Fixpoint decode (s : string) : option (list byte) :=
  match s with
  | EmptyString => Some []
  | String c1 (String c2 (String c3 (String c4 rest))) =>
      bind (value c1) (fun s1 => bind (value c2) (fun s2 =>
      bind (byte1 s1 s2) (fun a =>
        if Ascii.eqb c4 pad then
          match rest with
          | EmptyString =>
              if Ascii.eqb c3 pad then Some [a]
              else bind (value c3) (fun s3 =>
                   bind (byte2 s2 s3) (fun b => Some [a; b]))
          | String _ _ => None
          end
        else
          bind (value c3) (fun s3 => bind (value c4) (fun s4 =>
          bind (byte2 s2 s3) (fun b => bind (byte3 s3 s4) (fun c =>
          bind (decode rest) (fun tail => Some (a :: b :: c :: tail)))))))))
  | _ => None
  end.

End Base64.

(* ================================================================= *)
(** ** Data model *)

(** A browser [File]: a name, the declared media type ([file.type]) and
    the contents. *)
Record File := {
  fileName : string;
  fileType : string;
  fileBytes : list byte
}.

(** What can be thrown, or be the reason of a rejected promise. *)
Inductive Exn :=
| Error (message : string)      (* [new Error(message)] *)
| TypeError                     (* the runtime's error on a property of [undefined] *)
| ReaderError (detail : string) (* the event handed to [reader.onerror] *)
| ServiceError (message : string). (* a rejection coming out of the SDK *)

(** A settled promise of the platform or of the SDK. *)
Inductive Settled (A : Type) :=
| Resolved (a : A)
| Rejected (e : Exn).
Arguments Resolved {A} a.
Arguments Rejected {A} e.

(** [reader.result] has type [string | ArrayBuffer | null]. *)
Inductive ReaderResult :=
| ResultString (s : string)
| ResultArrayBuffer (b : list byte)
| ResultNull.

(** How a read ends: the load completes with some [reader.result], or
    it fails. *)
Inductive ReadOutcome :=
| Loaded (result : ReaderResult)
| Failed (detail : string).

(** The events a [FileReader] fires at the two handlers the source
    installs.  A failing read fires [error] and then [loadend] with a
    null result; a completed read fires [loadend] with the result. *)
Inductive ReaderEvent :=
| OnError (detail : string)
| OnLoadEnd (result : ReaderResult).

Definition readerEvents (o : ReadOutcome) : list ReaderEvent :=
  match o with
  | Loaded result => [OnLoadEnd result]
  | Failed detail => [OnError detail; OnLoadEnd ResultNull]
  end.

(** The encoder's payload [{ inlineData: { data, mimeType } }]; [data]
    is whatever the promise resolved with, possibly [undefined]. *)
Record InlineData := {
  data : option string;
  mimeType : string
}.

Record GenerativePart := {
  inlineData : InlineData
}.

(** The request of [ai.models.generateContent]. *)
Inductive Modality := IMAGE | TEXT | AUDIO.

Inductive RequestPart :=
| ImagePart (part : GenerativePart)
| TextPart (text : string).

Record GenerateContentParameters := {
  contentModel : string;
  contentParts : list RequestPart;
  responseModalities : list Modality
}.

(** The response of [ai.models.generateContent]; every level is optional
    in the SDK's types. *)
Record Blob := {
  blobData : option string;
  blobMimeType : option string
}.

Record Part := {
  partInlineData : option Blob;
  partText : option string
}.

Record Content := {
  parts : option (list Part)
}.

Record Candidate := {
  content : option Content
}.

Record GenerateContentResponse := {
  candidates : option (list Candidate)
}.

(** The request of [ai.models.generateVideos]. *)
Record Image := {
  imageBytes : option string;
  imageMimeType : string
}.

Record GenerateVideosConfig := {
  numberOfVideos : nat;
  resolution : string;
  lastFrame : Image;
  aspectRatio : string
}.

Record GenerateVideosParameters := {
  videoModel : string;
  videoPrompt : string;
  image : Image;
  config : GenerateVideosConfig
}.

(** A snapshot of the remote job. *)
Record Video := {
  uri : option string
}.

Record GeneratedVideo := {
  video : option Video
}.

Record GenerateVideosResponse := {
  generatedVideos : option (list GeneratedVideo)
}.

Record Operation := {
  name : string;
  done : option bool;
  response : option GenerateVideosResponse
}.

(** [!operation.done] is false exactly when [done] is present and true. *)
Definition isDone (operation : Operation) : bool :=
  match done operation with
  | Some true => true
  | _ => false
  end.

(** [operation.response?.generatedVideos?.[0]?.video?.uri] *)
Definition downloadLinkOf (operation : Operation) : option string :=
  match response operation with
  | None => None
  | Some r =>
      match generatedVideos r with
      | None => None
      | Some vs =>
          match Js.index vs 0 with
          | None => None
          | Some v =>
              match video v with
              | None => None
              | Some vid => uri vid
              end
          end
      end
  end.

(** The client object: it holds the key it was built with. *)
Record GoogleGenAI := {
  apiKey : string
}.

(* ================================================================= *)
(** ** The environment and the trace *)

(** Everything outside the module: the process configuration, the file
    reader, the remote service.  The service is stateful: the answer to
    a status request depends on how many were made before it, which is
    the first argument of [getVideosOperation].  Every call is taken to
    settle, with a value or with a failure.  [API_KEY] is
    [process.env.API_KEY] as [getAiClient] finds it; [generateVideo]
    reads the variable once more when it builds its result, and
    [API_KEY_later] is what it finds then, given how many status
    requests were answered. *)
Record Env := {
  API_KEY : option string;
  API_KEY_later : nat -> option string;
  readAsDataURL : File -> ReadOutcome;
  generateContent : GenerateContentParameters -> Settled GenerateContentResponse;
  generateVideos : GenerateVideosParameters -> Settled Operation;
  getVideosOperation : nat -> Operation -> Settled Operation
}.

(** The observable actions, in the order they happen. *)
Inductive Event :=
| Progress (message : string)                       (* [onProgress(message)] *)
| ReadFile (file : File)                            (* [reader.readAsDataURL(file)] *)
| CallGenerateContent (params : GenerateContentParameters)
| CallGenerateVideos (params : GenerateVideosParameters)
| Timeout (ms : N)                                  (* [setTimeout(resolve, ms)] *)
| CallGetVideosOperation (operation : Operation).

Record World := {
  trace : list Event;
  fetched : nat  (* status requests the service has answered so far *)
}.

Definition initial : World := {| trace := []; fetched := 0 |}.

(** The state of an [async] function's promise when the model stops:
    fulfilled, rejected, or still waiting (the poll loop has not ended
    within the number of rounds the model was given). *)
Inductive Completion (A : Type) :=
| Returned (a : A)
| Threw (e : Exn)
| Pending.
Arguments Returned {A} a.
Arguments Threw {A} e.
Arguments Pending {A}.

Definition Async (A : Type) : Type := World -> Completion A * World.

Definition ret {A} (a : A) : Async A := fun w => (Returned a, w).

Definition throw {A} (e : Exn) : Async A := fun w => (Threw e, w).

Definition pending {A} : Async A := fun w => (Pending, w).

Definition bind {A B} (m : Async A) (k : A -> Async B) : Async B :=
  fun w =>
    match m w with
    | (Returned a, w') => k a w'
    | (Threw e, w') => (Threw e, w')
    | (Pending, w') => (Pending, w')
    end.

Declare Scope async_scope.
Delimit Scope async_scope with async.
Notation "x <- m ;; k" := (bind m (fun x => k))
  (at level 61, m at next level, right associativity) : async_scope.
Notation "m ;; k" := (bind m (fun _ => k))
  (at level 61, right associativity) : async_scope.
Local Open Scope async_scope.

Definition emit (e : Event) : Async unit :=
  fun w => (Returned tt, {| trace := trace w ++ [e]; fetched := fetched w |}).

(** [await p] for an already computed settlement. *)
Definition await {A} (p : Settled A) : Async A :=
  match p with
  | Resolved a => ret a
  | Rejected e => throw e
  end.

(* ================================================================= *)
(** ** The service module *)

Section Service.

Variable env : Env.

(** [getAiClient]: [!key] holds for an absent and for an empty key. *)
Definition getAiClient : Async GoogleGenAI :=
  match API_KEY env with
  | Some key =>
      if negb (Js.truthy (Some key))
      then throw (Error "API_KEY is not available in process.env. Please select an API key.")
      else ret {| apiKey := key |}
  | None =>
      throw (Error "API_KEY is not available in process.env. Please select an API key.")
  end.

(** A promise settles once: later [resolve]/[reject] calls are ignored. *)
Definition settle {A} (p : option (Settled A)) (s : Settled A) : option (Settled A) :=
  match p with
  | None => Some s
  | Some _ => p
  end.

(** [reader.onloadend] *)
Definition onloadend (result : ReaderResult) : Settled (option string) :=
  match result with
  | ResultString s => Resolved (Js.index (Js.split "," s) 1)
  | _ => Rejected (Error "Failed to read file as base64 string.")
  end.

(** [reader.onerror] *)
Definition onerror (detail : string) : Settled (option string) :=
  Rejected (ReaderError detail).

Definition dispatch (p : option (Settled (option string))) (ev : ReaderEvent)
  : option (Settled (option string)) :=
  match ev with
  | OnError detail => settle p (onerror detail)
  | OnLoadEnd result => settle p (onloadend result)
  end.

(** The promise built around the reader: the read is started, and the
    handlers run on the events the reader fires. *)
Definition readerSettlement (file : File) : option (Settled (option string)) :=
  fold_left dispatch (readerEvents (readAsDataURL env file)) None.

Definition base64EncodedDataPromise (file : File)
  : Async (option (Settled (option string))) :=
  emit (ReadFile file) ;;
  ret (readerSettlement file).

Definition awaitPromise {A} (p : option (Settled A)) : Async A :=
  match p with
  | Some s => await s
  | None => pending
  end.

Definition fileToGenerativePart (file : File) : Async GenerativePart :=
  promise <- base64EncodedDataPromise file ;;
  encoded <- awaitPromise promise ;;
  ret {| inlineData := {| data := encoded; mimeType := fileType file |} |}.

(** The three SDK calls: the call is recorded, the service answers. *)
Definition models_generateContent (ai : GoogleGenAI) (params : GenerateContentParameters)
  : Async GenerateContentResponse :=
  emit (CallGenerateContent params) ;;
  await (generateContent env params).

Definition models_generateVideos (ai : GoogleGenAI) (params : GenerateVideosParameters)
  : Async Operation :=
  emit (CallGenerateVideos params) ;;
  await (generateVideos env params).

Definition operations_getVideosOperation (ai : GoogleGenAI) (operation : Operation)
  : Async Operation :=
  fun w =>
    await (getVideosOperation env (fetched w) operation)
          {| trace := trace w ++ [CallGetVideosOperation operation];
             fetched := S (fetched w) |}.

(** [response.candidates[0].content.parts], each step failing with the
    runtime's [TypeError] on [undefined]; iterating [undefined] fails
    the same way. *)
Definition firstCandidateParts (response : GenerateContentResponse) : option (list Part) :=
  match candidates response with
  | None => None
  | Some cs =>
      match Js.index cs 0 with
      | None => None
      | Some c =>
          match content c with
          | None => None
          | Some ct => parts ct
          end
      end
  end.

(** The [for ... of] loop of [editImage]: [Some d] is [return d],
    [None] is falling out of the loop. *)
Fixpoint scanParts (ps : list Part) : option (option string) :=
  match ps with
  | [] => None
  | part :: rest =>
      match partInlineData part with
      | Some blob => Some (blobData blob)
      | None => scanParts rest
      end
  end.

Definition editImage (imageFile : File) (prompt : string) : Async (option string) :=
  ai <- getAiClient ;;
  imagePart <- fileToGenerativePart imageFile ;;
  let textPart := TextPart prompt in
  response <- models_generateContent ai
    {| contentModel := "gemini-2.5-flash-image";
       contentParts := [ImagePart imagePart; textPart];
       responseModalities := [IMAGE] |} ;;
  match firstCandidateParts response with
  | None => throw TypeError
  | Some ps =>
      match scanParts ps with
      | Some d => ret d
      | None => throw (Error "No image data found in the API response.")
      end
  end.

(** [process.env.API_KEY], read again. *)
Definition process_env_API_KEY : Async (option string) :=
  fun w => (Returned (API_KEY_later env (fetched w)), w).

(** The progress sink: the message is recorded.  The sink is the
    caller's function; it is taken not to throw. *)
Definition onProgress (message : string) : Async unit :=
  emit (Progress message).

Definition setTimeout (ms : N) : Async unit :=
  emit (Timeout ms).

Definition checkingStatus (pollCount : nat) : string :=
  "Checking status (attempt " ++ Js.numberToString pollCount ++ ")... Please be patient.".

(** The [while (!operation.done)] loop.  [rounds] bounds the number of
    iterations the model follows; the source has no bound.  The attempt
    counter is a JavaScript number, exact up to 2^53, which a loop of
    one iteration every ten seconds does not reach. *)
Fixpoint pollLoop (ai : GoogleGenAI) (rounds : nat) (operation : Operation) (pollCount : nat)
  : Async Operation :=
  if isDone operation then ret operation
  else
    match rounds with
    | 0 => pending
    | S rounds' =>
        let pollCount := S pollCount in
        onProgress (checkingStatus pollCount) ;;
        setTimeout 10000%N ;;
        operation <- operations_getVideosOperation ai operation ;;
        pollLoop ai rounds' operation pollCount
    end.

Definition videoRequest (startImageFile endImageFile : File) (prompt : string)
           (startImageBase64 endImageBase64 : option string) : GenerateVideosParameters :=
  {| videoModel := "veo-3.1-fast-generate-preview";
     videoPrompt := prompt;
     image := {| imageBytes := startImageBase64;
                 imageMimeType := fileType startImageFile |};
     config := {| numberOfVideos := 1;
                  resolution := "720p";
                  lastFrame := {| imageBytes := endImageBase64;
                                  imageMimeType := fileType endImageFile |};
                  aspectRatio := "16:9" |} |}.

Definition generateVideo (rounds : nat) (startImageFile endImageFile : File)
           (prompt : string) : Async string :=
  ai <- getAiClient ;;
  onProgress "Preparing images for video generation..." ;;
  startPart <- fileToGenerativePart startImageFile ;;
  let startImageBase64 := data (inlineData startPart) in
  endPart <- fileToGenerativePart endImageFile ;;
  let endImageBase64 := data (inlineData endPart) in
  onProgress "Initiating video generation with Veo model..." ;;
  operation <- models_generateVideos ai
    (videoRequest startImageFile endImageFile prompt startImageBase64 endImageBase64) ;;
  onProgress "Video generation in progress... This may take a few minutes." ;;
  operation <- pollLoop ai rounds operation 0 ;;
  onProgress "Finalizing video..." ;;
  let downloadLink := downloadLinkOf operation in
  if negb (Js.truthy downloadLink)
  then throw (Error "Video generation completed, but no download link was found.")
  else
    key <- process_env_API_KEY ;;
    ret (Js.toString downloadLink ++ "&key=" ++ Js.toString key)%string.

End Service.

(* ================================================================= *)
(** ** Names for what the module says and does *)

Definition authenticationError : Exn :=
  Error "API_KEY is not available in process.env. Please select an API key.".

Definition noImageError : Exn :=
  Error "No image data found in the API response.".

Definition noLinkError : Exn :=
  Error "Video generation completed, but no download link was found.".

Definition readError : Exn :=
  Error "Failed to read file as base64 string.".

Definition preparing : string := "Preparing images for video generation...".
Definition initiating : string := "Initiating video generation with Veo model...".
Definition inProgress : string :=
  "Video generation in progress... This may take a few minutes.".
Definition finalizing : string := "Finalizing video...".

(** The request [editImage] sends. *)
Definition editRequest (imageFile : File) (prompt : string) (encoded : option string)
  : GenerateContentParameters :=
  {| contentModel := "gemini-2.5-flash-image";
     contentParts :=
       [ImagePart {| inlineData := {| data := encoded; mimeType := fileType imageFile |} |};
        TextPart prompt];
     responseModalities := [IMAGE] |}.

(** How [editImage] ends on a response. *)
Definition scanResponse (response : GenerateContentResponse) : Completion (option string) :=
  match firstCandidateParts response with
  | None => Threw TypeError
  | Some ps =>
      match scanParts ps with
      | Some d => Returned d
      | None => Threw noImageError
      end
  end.

Definition carriesImage (part : Part) : bool :=
  match partInlineData part with
  | Some _ => true
  | None => false
  end.

(** Does the first candidate of the response carry inline data? *)
Definition firstCandidateImage (response : GenerateContentResponse) : bool :=
  match firstCandidateParts response with
  | Some ps => existsb carriesImage ps
  | None => false
  end.

(** What [generateVideo] does up to and including the submission. *)
Definition submissionEvents (startImageFile endImageFile : File) (prompt : string)
           (startImageBase64 endImageBase64 : option string) : list Event :=
  [Progress preparing; ReadFile startImageFile; ReadFile endImageFile;
   Progress initiating;
   CallGenerateVideos
     (videoRequest startImageFile endImageFile prompt startImageBase64 endImageBase64)].

(** What [generateVideo] does once the loop has ended with [operation]. *)
Definition finalize (env : Env) (operation : Operation) : Async string :=
  onProgress finalizing ;;
  let downloadLink := downloadLinkOf operation in
  if negb (Js.truthy downloadLink)
  then throw noLinkError
  else
    key <- process_env_API_KEY env ;;
    ret (Js.toString downloadLink ++ "&key=" ++ Js.toString key)%string.

(** The world [generateVideo] enters its loop in. *)
Definition pollingStart (startImageFile endImageFile : File) (prompt : string)
           (d1 d2 : option string) : World :=
  {| trace := submissionEvents startImageFile endImageFile prompt d1 d2
              ++ [Progress inProgress];
     fetched := 0 |}.

(* ================================================================= *)
(** ** Reading traces *)

Definition progressOf (t : list Event) : list string :=
  flat_map (fun e => match e with Progress m => [m] | _ => [] end) t.

Definition readsOf (t : list Event) : list File :=
  flat_map (fun e => match e with ReadFile f => [f] | _ => [] end) t.

Definition refetchesOf (t : list Event) : list Operation :=
  flat_map (fun e => match e with CallGetVideosOperation o => [o] | _ => [] end) t.

(** The remote calls of a trace: content generation, job submission and
    status requests. *)
Definition isRemoteCall (e : Event) : bool :=
  match e with
  | CallGenerateContent _ | CallGenerateVideos _ | CallGetVideosOperation _ => true
  | _ => false
  end.

Definition remoteCallsOf (t : list Event) : list Event := filter isRemoteCall t.

(** The world after some more events and [k] more answered status
    requests. *)
Definition later (w : World) (t : list Event) (k : nat) : World :=
  {| trace := trace w ++ t; fetched := fetched w + k |}.

(** The checking-status messages among the progress messages of a trace. *)
Definition isCheckingStatus (message : string) : bool :=
  Js.startsWith "Checking status (attempt " message.

Definition checkingOf (t : list Event) : list string :=
  filter isCheckingStatus (progressOf t).

(** Reading a progress message back.  A checking-status message is the
    text ["Checking status (attempt "], a number in decimal digits, and
    the text [")... Please be patient."]; [attemptOf] gives the number,
    and nothing for any other text. *)
Module Attempt.

Definition digitValue (c : ascii) : option nat :=
  match N_of_ascii c with
  | 48%N => Some 0 | 49%N => Some 1 | 50%N => Some 2 | 51%N => Some 3
  | 52%N => Some 4 | 53%N => Some 5 | 54%N => Some 6 | 55%N => Some 7
  | 56%N => Some 8 | 57%N => Some 9
  | _ => None
  end.

(** The number the leading digits of [s] spell after [acc], and what
    follows them. *)
Fixpoint readDigits (s : string) (acc : nat) : nat * string :=
  match s with
  | EmptyString => (acc, EmptyString)
  | String c rest =>
      match digitValue c with
      | Some v => readDigits rest (10 * acc + v)
      | None => (acc, s)
      end
  end.

(** [s] without the text [p] it starts with. *)
Fixpoint stripPrefix (p s : string) : option string :=
  match p with
  | EmptyString => Some s
  | String a p' =>
      match s with
      | EmptyString => None
      | String b s' => if Ascii.eqb a b then stripPrefix p' s' else None
      end
  end.

Definition startsWithDigit (s : string) : bool :=
  match s with
  | EmptyString => false
  | String c _ => match digitValue c with Some _ => true | None => false end
  end.

Definition attemptOf (message : string) : option nat :=
  match stripPrefix "Checking status (attempt " message with
  | None => None
  | Some rest =>
      if startsWithDigit rest
      then
        let (n, tail) := readDigits rest 0 in
        if String.eqb tail ")... Please be patient." then Some n else None
      else None
  end.

End Attempt.

(* ================================================================= *)
(** ** The job as the service reports it *)

Section Job.

Variable env : Env.

(** [k0] status requests were answered before this job's first one. *)
Variable k0 : nat.

(** The outcome of the submission. *)
Variable first : Settled Operation.

(** The [n]-th snapshot of the job: the submission's for [n = 0], then
    the answer to the [n]-th status request, made with the snapshot
    before it.  A failure ends the sequence. *)
Fixpoint snapshot (n : nat) : Settled Operation :=
  match n with
  | 0 => first
  | S m =>
      match snapshot m with
      | Resolved o => getVideosOperation env (k0 + m) o
      | Rejected e => Rejected e
      end
  end.

(** Snapshots [0 .. n-1] all arrived and none of them is done. *)
Fixpoint stillRunning (n : nat) : bool :=
  match n with
  | 0 => true
  | S m =>
      stillRunning m &&
      match snapshot m with
      | Resolved o => negb (isDone o)
      | Rejected _ => false
      end
  end.

(** What the first [n] iterations of the poll loop do, the attempt
    counter starting at [c]. *)
Fixpoint pollEvents (c n : nat) : list Event :=
  match n with
  | 0 => []
  | S m =>
      pollEvents c m ++
      match snapshot m with
      | Resolved o =>
          [Progress (checkingStatus (S (c + m))); Timeout 10000%N;
           CallGetVideosOperation o]
      | Rejected _ => []
      end
  end.

End Job.

(** The trace of a job that was submitted and went through [n] status
    requests. *)
Definition jobEvents (env : Env) (startImageFile endImageFile : File) (prompt : string)
           (d1 d2 : option string) (op0 : Operation) (n : nat) : list Event :=
  submissionEvents startImageFile endImageFile prompt d1 d2
  ++ [Progress inProgress]
  ++ pollEvents env 0 (Resolved op0) 0 n.

(* ================================================================= *)
(** ** Example environments *)

Definition frameA : File :=
  {| fileName := "A.png"; fileType := "image/png"; fileBytes := [x89; x50; x4e; x47; x0d] |}.

Definition frameB : File :=
  {| fileName := "B.png"; fileType := "image/png"; fileBytes := [x89; x50; x4e; x47; x0a; x1a] |}.

Definition videoJob (finished : bool) (link : option string) : Operation :=
  {| name := "operations/video-1";
     done := Some finished;
     response :=
       match link with
       | Some u => Some {| generatedVideos := Some [{| video := Some {| uri := Some u |} |}] |}
       | None => None
       end |}.

Definition textOnly : Part :=
  {| partInlineData := None; partText := Some "Here is your image." |}.

Definition picture (d : string) : Part :=
  {| partInlineData := Some {| blobData := Some d; blobMimeType := Some "image/png" |};
     partText := None |}.

Definition reply (candidateParts : list (list Part)) : GenerateContentResponse :=
  {| candidates :=
       Some (map (fun ps => {| content := Some {| parts := Some ps |} |}) candidateParts) |}.

(** The data URL a reader delivers for a file:
    [data:<type>;base64,<payload>]. *)
Definition dataURL (file : File) : string :=
  ("data:" ++ fileType file ++ ";base64," ++ Base64.encode (fileBytes file))%string.

(** A well-behaved platform: the reader delivers the data URL of the
    file; the service answers as scripted and is unavailable after the
    script. *)
Definition scripted (key : option string) (edited : Settled GenerateContentResponse)
           (submission : Settled Operation) (answers : list (Settled Operation)) : Env :=
  {| API_KEY := key;
     API_KEY_later := fun _ => key;
     readAsDataURL := fun file => Loaded (ResultString (dataURL file));
     generateContent := fun _ => edited;
     generateVideos := fun _ => submission;
     getVideosOperation := fun k _ => nth k answers (Rejected (ServiceError "unavailable")) |}.

(** A reader that delivers a given result for every file. *)
Definition reading (result : ReadOutcome) : Env :=
  {| API_KEY := Some "secret";
     API_KEY_later := fun _ => Some "secret";
     readAsDataURL := fun _ => result;
     generateContent := fun _ => Rejected (ServiceError "unavailable");
     generateVideos := fun _ => Rejected (ServiceError "unavailable");
     getVideosOperation := fun _ _ => Rejected (ServiceError "unavailable") |}.

Definition sunrise : Env :=
  scripted (Some "secret") (Rejected (ServiceError "unavailable"))
           (Resolved (videoJob false None))
           [Resolved (videoJob false None);
            Resolved (videoJob true (Some "https://example/video123"))].

Definition stalled : Env :=
  scripted (Some "secret") (Rejected (ServiceError "unavailable"))
           (Resolved (videoJob false None))
           [Resolved (videoJob true None)].

Definition refused : Env :=
  scripted (Some "secret") (Rejected (ServiceError "unavailable"))
           (Rejected (ServiceError "quota exceeded")) [].

Definition interrupted : Env :=
  scripted (Some "secret") (Rejected (ServiceError "unavailable"))
           (Resolved (videoJob false None))
           [Resolved (videoJob false None); Rejected (ServiceError "network down");
            Resolved (videoJob true (Some "https://example/video123"))].

(* ================================================================= *)
(** ** More of JavaScript's strings *)

(** Characters are the code units below 256. *)
Module JsText.

(** The white space [trim] removes, among these characters: tab, line
    feed, vertical tab, form feed, carriage return, space and the
    no-break space. *)
Definition isWhiteSpace (c : ascii) : bool :=
  match N_of_ascii c with
  | 9%N | 10%N | 11%N | 12%N | 13%N | 32%N | 160%N => true
  | _ => false
  end.

Fixpoint trimStart (s : string) : string :=
  match s with
  | EmptyString => EmptyString
  | String c rest => if isWhiteSpace c then trimStart rest else s
  end.

Fixpoint trimEnd (s : string) : string :=
  match s with
  | EmptyString => EmptyString
  | String c rest =>
      match trimEnd rest with
      | EmptyString => if isWhiteSpace c then EmptyString else String c EmptyString
      | kept => String c kept
      end
  end.

(** [s.trim()] *)
Definition trim (s : string) : string := trimEnd (trimStart s).

(** [s.endsWith(suffix)] *)
Fixpoint endsWith (s suffix : string) : bool :=
  String.eqb s suffix ||
  match s with
  | EmptyString => false
  | String _ rest => endsWith rest suffix
  end.

(** [s.includes(part)] *)
Fixpoint includes (s part : string) : bool :=
  Js.startsWith part s ||
  match s with
  | EmptyString => false
  | String _ rest => includes rest part
  end.

(** [!s.trim()] *)
Definition blank (s : string) : bool := negb (Js.truthy (Some (trim s))).

(** Every character is white space. *)
Fixpoint allWhite (s : string) : bool :=
  match s with
  | EmptyString => true
  | String c rest => isWhiteSpace c && allWhite rest
  end.

Definition firstChar (s : string) : option ascii :=
  match s with
  | EmptyString => None
  | String c _ => Some c
  end.

Fixpoint lastChar (s : string) : option ascii :=
  match s with
  | EmptyString => None
  | String c EmptyString => Some c
  | String _ rest => lastChar rest
  end.

(** A text that is not empty, neither starts nor ends with white space
    and does not end with a comma. *)
Definition tidy (s : string) : bool :=
  match firstChar s, lastChar s with
  | Some a, Some b =>
      negb (isWhiteSpace a) && negb (isWhiteSpace b) && negb (Ascii.eqb b ",")
  | _, _ => false
  end.

End JsText.

(** [e instanceof Error ? e.message : 'An unknown error occurred.'], as
    both components have it.  What the service module throws itself is
    an [Error]; so is the runtime's [TypeError], whose message is the
    engine's, and so are the failures of the SDK (the video component
    reads their messages); the event handed to [reader.onerror] is
    not. *)
Definition messageOr (typeErrorMessage : string) (e : Exn) : string :=
  match e with
  | Error message => message
  | TypeError => typeErrorMessage
  | ServiceError message => message
  | ReaderError _ => "An unknown error occurred."
  end.

(** The events a run added to the trace. *)
Definition added (w w' : World) : list Event :=
  skipn (List.length (trace w)) (trace w').

(* ================================================================= *)
(** ** The image editor component, [src/components/ImageEditor.tsx] *)

Module ImageEditor.

Record ImageState := {
  file : option File;
  previewUrl : option string
}.

Inductive EditTarget := image | subject | background.

(** The state of the component.  [editedImage] is [string | null]; what
    [editImage] hands over may also be [undefined], which the component
    treats as it treats [null]. *)
Record State := {
  originalImage : ImageState;
  editedImage : option string;
  prompt : string;
  isLoading : bool;
  error : option string;
  editTarget : EditTarget
}.

(** The state after mounting. *)
Definition mounted : State :=
  {| originalImage := {| file := None; previewUrl := None |};
     editedImage := None;
     prompt := EmptyString;
     isLoading := false;
     error := None;
     editTarget := image |}.

(** What a handler does, in order: state updates and console output.
    [setPrompt] takes the new prompt as a function of the previous one,
    as [handleLightingClick] calls it. *)
Inductive Effect :=
| setOriginalImage (i : ImageState)
| setEditedImage (d : option string)
| setPrompt (update : string -> string)
| setIsLoading (b : bool)
| setError (e : option string)
| setEditTarget (t : EditTarget)
| consoleError (e : Exn).

Definition apply (s : State) (effect : Effect) : State :=
  match effect with
  | setOriginalImage i =>
      {| originalImage := i; editedImage := editedImage s; prompt := prompt s;
         isLoading := isLoading s; error := error s; editTarget := editTarget s |}
  | setEditedImage d =>
      {| originalImage := originalImage s; editedImage := d; prompt := prompt s;
         isLoading := isLoading s; error := error s; editTarget := editTarget s |}
  | setPrompt update =>
      {| originalImage := originalImage s; editedImage := editedImage s;
         prompt := update (prompt s);
         isLoading := isLoading s; error := error s; editTarget := editTarget s |}
  | setIsLoading b =>
      {| originalImage := originalImage s; editedImage := editedImage s; prompt := prompt s;
         isLoading := b; error := error s; editTarget := editTarget s |}
  | setError e =>
      {| originalImage := originalImage s; editedImage := editedImage s; prompt := prompt s;
         isLoading := isLoading s; error := e; editTarget := editTarget s |}
  | setEditTarget t =>
      {| originalImage := originalImage s; editedImage := editedImage s; prompt := prompt s;
         isLoading := isLoading s; error := error s; editTarget := t |}
  | consoleError _ => s
  end.

Definition after (s : State) (effects : list Effect) : State :=
  fold_left apply effects s.

(** [predefinedStyles] and [lightingTools]: name and prompt. *)
Definition predefinedStyles : list (string * string) :=
  [("Vintage",
    "Apply a vintage photo filter, with faded colors and a slightly grainy texture.");
   ("Black and White", "Convert the image to a dramatic black and white photograph.");
   ("Cartoonish", "Transform the image into a cartoon or comic book style.");
   ("Futuristic", "Give the image a futuristic, cyberpunk aesthetic with neon lights.")].

Definition lightingTools : list (string * string) :=
  [("Brighter", "increase the brightness, make the image lighter");
   ("Darker", "decrease the brightness, make the image darker");
   ("Golden Hour", "change lighting to golden hour, with warm, soft light");
   ("Studio", "relight with professional studio lighting");
   ("Cinematic", "apply cinematic lighting, moody and atmospheric");
   ("Dramatic", "add dramatic, high-contrast lighting")].

(** [handleImageSelect]; [previewUrl] is what [URL.createObjectURL]
    gave for the file. *)
Definition handleImageSelect (selected : File) (objectURL : string) : list Effect :=
  [setOriginalImage {| file := Some selected; previewUrl := Some objectURL |};
   setEditedImage None;
   setError None].

(** The prompt [handleGenerateClick] sends. *)
Definition finalPrompt (target : EditTarget) (prompt : string) : string :=
  match target with
  | subject => "For the main subject(s): " ++ prompt
  | background => "For the background: " ++ prompt
  | image => prompt
  end.

(** [handleGenerateClick], run from the click to its end on the state
    [s] the component was rendered with: what it did to the component,
    and the world after it. *)
Definition handleGenerateClick (env : Env) (typeErrorMessage : string)
           (s : State) (w : World) : list Effect * World :=
  match file (originalImage s) with
  | None => ([setError (Some "Please upload an image and enter a prompt.")], w)
  | Some imageFile =>
      if JsText.blank (prompt s)
      then ([setError (Some "Please upload an image and enter a prompt.")], w)
      else
        let (result, w') :=
          editImage env imageFile (finalPrompt (editTarget s) (prompt s)) w in
        ([setIsLoading true; setError None; setEditedImage None]
         ++ match result with
            | Returned resultBase64 => [setEditedImage resultBase64; setIsLoading false]
            | Threw e =>
                [consoleError e; setError (Some (messageOr typeErrorMessage e));
                 setIsLoading false]
            | Pending => []
            end,
         w')
  end.

(** [handleStyleChange] *)
Definition handleStyleChange (value : string) : list Effect :=
  [setPrompt (fun _ => value)].

(** The update [handleLightingClick] hands to [setPrompt]. *)
Definition lightingUpdate (lightingPrompt : string) (prev : string) : string :=
  if JsText.blank prev then lightingPrompt
  else if JsText.endsWith prev "," then prev ++ " " ++ lightingPrompt
  else JsText.trim prev ++ ", " ++ lightingPrompt.

Definition handleLightingClick (lightingPrompt : string) : list Effect :=
  [setPrompt (lightingUpdate lightingPrompt)].

Definition isButtonDisabled (s : State) : bool :=
  isLoading s
  || match file (originalImage s) with Some _ => false | None => true end
  || JsText.blank (prompt s).

(** What is rendered of the state: the error box, and the [src] of the
    result image. *)
Definition shownError (s : State) : option string :=
  if Js.truthy (error s) then error s else None.

Definition shownImage (s : State) : option string :=
  match editedImage s with
  | Some d => if Js.truthy (Some d) then Some ("data:image/png;base64," ++ d)%string else None
  | None => None
  end.

(** What the user does. *)
Inductive Action :=
| SelectImage (selected : File) (objectURL : string)
| ChangePrompt (value : string)
| SelectStyle (value : string)
| ClickLighting (lightingPrompt : string)
| ClickFocus (target : EditTarget)
| ClickGenerate (env : Env) (typeErrorMessage : string).

(** The component and the world after an action, each handler running
    to its end before the next action. *)
Definition step (sw : State * World) (a : Action) : State * World :=
  let (s, w) := sw in
  match a with
  | SelectImage selected objectURL => (after s (handleImageSelect selected objectURL), w)
  | ChangePrompt value => (apply s (setPrompt (fun _ => value)), w)
  | SelectStyle value => (after s (handleStyleChange value), w)
  | ClickLighting lightingPrompt => (after s (handleLightingClick lightingPrompt), w)
  | ClickFocus target => (apply s (setEditTarget target), w)
  | ClickGenerate env typeErrorMessage =>
      let (effects, w') := handleGenerateClick env typeErrorMessage s w in
      (after s effects, w')
  end.

Definition session (actions : list Action) : State * World :=
  fold_left step actions (mounted, initial).

(** What the page offers in the state [s] it was rendered with, read
    off the [disabled] attributes of its controls.  The uploader is
    always there; the prompt box, the focus buttons, the style list and
    the lighting buttons are [disabled={!originalImage.file}]; the
    Generate button is [disabled={isButtonDisabled}]. *)
Definition offered (s : State) (a : Action) : bool :=
  match a with
  | SelectImage _ _ => true
  | ChangePrompt _ | SelectStyle _ | ClickLighting _ | ClickFocus _ =>
      match file (originalImage s) with Some _ => true | None => false end
  | ClickGenerate _ _ => negb (isButtonDisabled s)
  end.

(** An action on the page: a control that is disabled runs no handler. *)
Definition onPage (sw : State * World) (a : Action) : State * World :=
  if offered (fst sw) a then step sw a else sw.

End ImageEditor.

(* ================================================================= *)
(** ** The video generator component, [src/components/VideoGenerator.tsx] *)

Module VideoGenerator.

Record ImageState := {
  file : option File;
  previewUrl : option string
}.

Record State := {
  startFrame : ImageState;
  endFrame : ImageState;
  generatedVideoUrl : option string;
  prompt : string;
  isLoading : bool;
  loadingMessage : string;
  error : option string;
  isKeySelected : bool
}.

Definition mounted : State :=
  {| startFrame := {| file := None; previewUrl := None |};
     endFrame := {| file := None; previewUrl := None |};
     generatedVideoUrl := None;
     prompt := EmptyString;
     isLoading := false;
     loadingMessage := EmptyString;
     error := None;
     isKeySelected := false |}.

(** [window.aistudio], when the page runs inside the studio: each of
    the two functions may be missing, and a call of it settles. *)
Record AiStudio := {
  hasSelectedApiKey : option (Settled bool);
  openSelectKey : option (Settled unit)
}.

Inductive Effect :=
| setStartFrame (i : ImageState)
| setEndFrame (i : ImageState)
| setGeneratedVideoUrl (u : option string)
| setPrompt (p : string)
| setIsLoading (b : bool)
| setLoadingMessage (m : string)
| setError (e : option string)
| setIsKeySelected (b : bool)
| consoleError (e : Exn).

Definition apply (s : State) (effect : Effect) : State :=
  match effect with
  | setStartFrame i =>
      {| startFrame := i; endFrame := endFrame s;
         generatedVideoUrl := generatedVideoUrl s; prompt := prompt s;
         isLoading := isLoading s; loadingMessage := loadingMessage s;
         error := error s; isKeySelected := isKeySelected s |}
  | setEndFrame i =>
      {| startFrame := startFrame s; endFrame := i;
         generatedVideoUrl := generatedVideoUrl s; prompt := prompt s;
         isLoading := isLoading s; loadingMessage := loadingMessage s;
         error := error s; isKeySelected := isKeySelected s |}
  | setGeneratedVideoUrl u =>
      {| startFrame := startFrame s; endFrame := endFrame s;
         generatedVideoUrl := u; prompt := prompt s;
         isLoading := isLoading s; loadingMessage := loadingMessage s;
         error := error s; isKeySelected := isKeySelected s |}
  | setPrompt p =>
      {| startFrame := startFrame s; endFrame := endFrame s;
         generatedVideoUrl := generatedVideoUrl s; prompt := p;
         isLoading := isLoading s; loadingMessage := loadingMessage s;
         error := error s; isKeySelected := isKeySelected s |}
  | setIsLoading b =>
      {| startFrame := startFrame s; endFrame := endFrame s;
         generatedVideoUrl := generatedVideoUrl s; prompt := prompt s;
         isLoading := b; loadingMessage := loadingMessage s;
         error := error s; isKeySelected := isKeySelected s |}
  | setLoadingMessage m =>
      {| startFrame := startFrame s; endFrame := endFrame s;
         generatedVideoUrl := generatedVideoUrl s; prompt := prompt s;
         isLoading := isLoading s; loadingMessage := m;
         error := error s; isKeySelected := isKeySelected s |}
  | setError e =>
      {| startFrame := startFrame s; endFrame := endFrame s;
         generatedVideoUrl := generatedVideoUrl s; prompt := prompt s;
         isLoading := isLoading s; loadingMessage := loadingMessage s;
         error := e; isKeySelected := isKeySelected s |}
  | setIsKeySelected b =>
      {| startFrame := startFrame s; endFrame := endFrame s;
         generatedVideoUrl := generatedVideoUrl s; prompt := prompt s;
         isLoading := isLoading s; loadingMessage := loadingMessage s;
         error := error s; isKeySelected := b |}
  | consoleError _ => s
  end.

Definition after (s : State) (effects : list Effect) : State :=
  fold_left apply effects s.

(** [checkApiKey], the effect run once after mounting. *)
Definition checkApiKey (aistudio : option AiStudio) : list Effect :=
  match aistudio with
  | Some studio =>
      match hasSelectedApiKey studio with
      | Some (Resolved hasKey) => [setIsKeySelected hasKey]
      | Some (Rejected _) => []
      | None => []
      end
  | None => []
  end.

(** [handleSelectKey]: once the dialog has closed the key is taken to
    be selected. *)
Definition handleSelectKey (aistudio : option AiStudio) : list Effect :=
  match aistudio with
  | Some studio =>
      match openSelectKey studio with
      | Some (Resolved _) => [setIsKeySelected true; setError None]
      | Some (Rejected _) => []
      | None => []
      end
  | None => []
  end.

(** The [catch] block of [handleGenerateClick]. *)
Definition caught (typeErrorMessage : string) (e : Exn) : list Effect :=
  let errorMessage := messageOr typeErrorMessage e in
  [consoleError e; setError (Some errorMessage)]
  ++ (if JsText.includes errorMessage "Requested entity was not found"
      then [setError (Some "API Key error. Please try selecting your API key again.");
            setIsKeySelected false]
      else []).

(** [handleGenerateClick], run from the click to its end on the state
    [s] the component was rendered with.  [setLoadingMessage] is the
    progress sink of [generateVideo]: every progress message of the run
    is a call of it. *)
Definition handleGenerateClick (env : Env) (rounds : nat) (typeErrorMessage : string)
           (s : State) (w : World) : list Effect * World :=
  match file (startFrame s), file (endFrame s) with
  | Some startFile, Some endFile =>
      if JsText.blank (prompt s)
      then ([setError (Some "Please provide a start frame, an end frame, and a prompt.")], w)
      else if negb (isKeySelected s)
      then ([setError (Some "Please select an API key before generating a video.")], w)
      else
        let (result, w') := generateVideo env rounds startFile endFile (prompt s) w in
        ([setIsLoading true; setError None; setGeneratedVideoUrl None;
          setLoadingMessage "Starting video generation..."]
         ++ map setLoadingMessage (progressOf (added w w'))
         ++ match result with
            | Returned resultUrl =>
                [setGeneratedVideoUrl (Some resultUrl);
                 setIsLoading false; setLoadingMessage EmptyString]
            | Threw e =>
                caught typeErrorMessage e
                ++ [setIsLoading false; setLoadingMessage EmptyString]
            | Pending => []
            end,
         w')
  | _, _ => ([setError (Some "Please provide a start frame, an end frame, and a prompt.")], w)
  end.

Definition isButtonDisabled (s : State) : bool :=
  isLoading s
  || match file (startFrame s) with Some _ => false | None => true end
  || match file (endFrame s) with Some _ => false | None => true end
  || JsText.blank (prompt s)
  || negb (isKeySelected s).

(** What the user does. *)
Inductive Action :=
| SelectStartFrame (selected : File) (objectURL : string)
| SelectEndFrame (selected : File) (objectURL : string)
| ChangePrompt (value : string)
| ClickSelectKey
| ClickGenerate (env : Env) (rounds : nat) (typeErrorMessage : string).

(** The component and the world after an action, each handler running
    to its end before the next action. *)
Definition step (aistudio : option AiStudio) (sw : State * World) (a : Action)
  : State * World :=
  let (s, w) := sw in
  match a with
  | SelectStartFrame selected objectURL =>
      (apply s (setStartFrame {| file := Some selected; previewUrl := Some objectURL |}), w)
  | SelectEndFrame selected objectURL =>
      (apply s (setEndFrame {| file := Some selected; previewUrl := Some objectURL |}), w)
  | ChangePrompt value => (apply s (setPrompt value), w)
  | ClickSelectKey => (after s (handleSelectKey aistudio), w)
  | ClickGenerate env rounds typeErrorMessage =>
      let (effects, w') := handleGenerateClick env rounds typeErrorMessage s w in
      (after s effects, w')
  end.

(** A session: the component is mounted, its effect runs, the user acts. *)
Definition session (aistudio : option AiStudio) (actions : list Action) : State * World :=
  fold_left (step aistudio) actions (after mounted (checkApiKey aistudio), initial).

(** What the page offers in the state [s] it was rendered with.  The
    two uploaders are always there; the prompt box is
    [disabled={!startFrame.file || !endFrame.file}]; the box with the
    Select API Key button is rendered only while [!isKeySelected]; the
    Generate Video button is [disabled={isButtonDisabled}]. *)
Definition offered (s : State) (a : Action) : bool :=
  match a with
  | SelectStartFrame _ _ | SelectEndFrame _ _ => true
  | ChangePrompt _ =>
      match file (startFrame s), file (endFrame s) with
      | Some _, Some _ => true
      | _, _ => false
      end
  | ClickSelectKey => negb (isKeySelected s)
  | ClickGenerate _ _ _ => negb (isButtonDisabled s)
  end.

(** An action on the page: a control that is disabled, or not rendered,
    runs no handler. *)
Definition onPage (aistudio : option AiStudio) (sw : State * World) (a : Action)
  : State * World :=
  if offered (fst sw) a then step aistudio sw a else sw.

End VideoGenerator.

(** The iterations of the poll loop made with the snapshots [ops], the
    attempt counter starting at [c]. *)
Fixpoint iterations (c : nat) (ops : list Operation) : list Event :=
  match ops with
  | [] => []
  | o :: rest =>
      [Progress (checkingStatus (S c)); Timeout 10000%N; CallGetVideosOperation o]
      ++ iterations (S c) rest
  end.

(** The timers and status requests of a trace. *)
Definition pacingOf (t : list Event) : list Event :=
  filter (fun e => match e with
                   | Timeout _ | CallGetVideosOperation _ => true
                   | _ => false
                   end) t.

(** A service that never finishes the job. *)
Definition endless : Env :=
  {| API_KEY := Some "secret";
     API_KEY_later := fun _ => Some "secret";
     readAsDataURL := fun file => Loaded (ResultString (dataURL file));
     generateContent := fun _ => Rejected (ServiceError "unavailable");
     generateVideos := fun _ => Resolved (videoJob false None);
     getVideosOperation := fun _ _ => Resolved (videoJob false None) |}.

(** A platform on which the file of a given name cannot be read. *)
Definition unreadable (broken : string) : Env :=
  {| API_KEY := Some "secret";
     API_KEY_later := fun _ => Some "secret";
     readAsDataURL :=
       fun file =>
         if String.eqb (fileName file) broken then Failed "NotReadableError"
         else Loaded (ResultString (dataURL file));
     generateContent := fun _ => Rejected (ServiceError "unavailable");
     generateVideos := fun _ => Rejected (ServiceError "unavailable");
     getVideosOperation := fun _ _ => Rejected (ServiceError "unavailable") |}.

(** An editor with an image uploaded and a prompt typed in. *)
Definition editing (target : ImageEditor.EditTarget) (typed : string) : ImageEditor.State :=
  {| ImageEditor.originalImage :=
       {| ImageEditor.file := Some frameA; ImageEditor.previewUrl := Some "blob:preview-a" |};
     ImageEditor.editedImage := None;
     ImageEditor.prompt := typed;
     ImageEditor.isLoading := false;
     ImageEditor.error := None;
     ImageEditor.editTarget := target |}.

(** A video generator with both frames uploaded, a prompt typed in and
    the key taken to be selected. *)
Definition directing (typed : string) : VideoGenerator.State :=
  {| VideoGenerator.startFrame :=
       {| VideoGenerator.file := Some frameA;
          VideoGenerator.previewUrl := Some "blob:preview-a" |};
     VideoGenerator.endFrame :=
       {| VideoGenerator.file := Some frameB;
          VideoGenerator.previewUrl := Some "blob:preview-b" |};
     VideoGenerator.generatedVideoUrl := None;
     VideoGenerator.prompt := typed;
     VideoGenerator.isLoading := false;
     VideoGenerator.loadingMessage := EmptyString;
     VideoGenerator.error := None;
     VideoGenerator.isKeySelected := true |}.

(** The messages handed to [setLoadingMessage], in order. *)
Definition loadingMessagesOf (effects : list VideoGenerator.Effect) : list string :=
  flat_map (fun effect =>
              match effect with
              | VideoGenerator.setLoadingMessage m => [m]
              | _ => []
              end) effects.

(** A response whose only inline part has no data. *)
Definition hollow : GenerateContentResponse :=
  reply [[textOnly;
          {| partInlineData := Some {| blobData := None; blobMimeType := Some "image/png" |};
             partText := None |}]].

(** A service that refuses the job because the key is unknown to it. *)
Definition staleKey : Env :=
  scripted (Some "secret") (Rejected (ServiceError "unavailable"))
           (Rejected (ServiceError "404: Requested entity was not found."))
           [].

(** An environment in which the key is there when the client is
    created and gone when the result is built; the job is done at its
    submission. *)
Definition forgetful : Env :=
  {| API_KEY := Some "secret";
     API_KEY_later := fun _ => None;
     readAsDataURL := fun file => Loaded (ResultString (dataURL file));
     generateContent := fun _ => Rejected (ServiceError "unavailable");
     generateVideos := fun _ => Resolved (videoJob true (Some "https://example/video123"));
     getVideosOperation := fun _ _ => Rejected (ServiceError "unavailable") |}.

(** A studio in which the dialog closes but no key is reported. *)
Definition undecided : VideoGenerator.AiStudio :=
  {| VideoGenerator.hasSelectedApiKey := Some (Resolved false);
     VideoGenerator.openSelectKey := Some (Resolved tt) |}.

(** No key can come to be selected: the page runs outside the studio,
    or the studio reports no key and its dialog cannot be opened. *)
Definition keyless (aistudio : option VideoGenerator.AiStudio) : bool :=
  match aistudio with
  | None => true
  | Some studio =>
      match VideoGenerator.hasSelectedApiKey studio with
      | Some (Resolved hasKey) => negb hasKey
      | _ => true
      end
      && match VideoGenerator.openSelectKey studio with
         | Some (Resolved _) => false
         | _ => true
         end
  end.

(** What holds of the component and the world as long as no key was
    selected: no key, no event of the service, no video, not loading. *)
Definition keylessState (sw : VideoGenerator.State * World) : Prop :=
  VideoGenerator.isKeySelected (fst sw) = false
  /\ snd sw = initial
  /\ VideoGenerator.generatedVideoUrl (fst sw) = None
  /\ VideoGenerator.isLoading (fst sw) = false.

(** What holds of the editor between two actions: it is not loading,
    and an edited image is there only if an image was uploaded. *)
Definition editorAtRest (s : ImageEditor.State) : Prop :=
  ImageEditor.isLoading s = false
  /\ (ImageEditor.editedImage s <> None ->
      ImageEditor.file (ImageEditor.originalImage s) <> None).

(* ================================================================= *)
(** ** Facts about strings *)

Module JsFacts.

Lemma split_nonempty (sep : ascii) (s : string) : Js.split sep s <> [].
Proof.
  destruct s as [|c rest]; simpl; [discriminate|].
  destruct (Ascii.eqb c sep); [discriminate|].
  destruct (Js.split sep rest); discriminate.
Qed.

(** The first field is what precedes the first separator. *)
Lemma split_field0 (sep : ascii) (s : string) :
  Js.index (Js.split sep s) 0 = Some (Js.before sep s).
Proof.
  unfold Js.index.
  induction s as [|c rest IH]; simpl; [reflexivity|].
  destruct (Ascii.eqb c sep); [reflexivity|].
  destruct (Js.split sep rest) as [|field fields]; simpl in *; [discriminate|].
  now inversion IH.
Qed.

(** The second field lies between the first separator and the next. *)
Lemma split_field1 (sep : ascii) (s : string) :
  Js.index (Js.split sep s) 1 = option_map (Js.before sep) (Js.after sep s).
Proof.
  induction s as [|c rest IH]; simpl; [reflexivity|].
  destruct (Ascii.eqb c sep).
  - apply (split_field0 sep rest).
  - pose proof (split_nonempty sep rest) as Hne.
    destruct (Js.split sep rest) as [|field fields]; [congruence|].
    exact IH.
Qed.

Lemma append_assoc (s1 s2 s3 : string) :
  (s1 ++ (s2 ++ s3) = (s1 ++ s2) ++ s3)%string.
Proof.
  induction s1 as [|c rest IH]; simpl; [reflexivity|]. now rewrite IH.
Qed.

Lemma occurs_app (c : ascii) (s1 s2 : string) :
  Js.occurs c (s1 ++ s2)%string = Js.occurs c s1 || Js.occurs c s2.
Proof.
  induction s1 as [|d rest IH]; simpl; [reflexivity|].
  now rewrite IH, orb_assoc.
Qed.

Lemma before_absent (c : ascii) (s : string) :
  Js.occurs c s = false -> Js.before c s = s.
Proof.
  induction s as [|d rest IH]; simpl; [reflexivity|].
  intros H. apply orb_false_elim in H as [Hd Hrest].
  rewrite Hd. now rewrite IH.
Qed.

Lemma after_absent (c : ascii) (s : string) :
  Js.occurs c s = false -> Js.after c s = None.
Proof.
  induction s as [|d rest IH]; simpl; [reflexivity|].
  intros H. apply orb_false_elim in H as [Hd Hrest].
  rewrite Hd. now apply IH.
Qed.

Lemma after_app (c : ascii) (s1 s2 : string) :
  Js.occurs c s1 = false -> Js.after c (s1 ++ String c s2)%string = Some s2.
Proof.
  induction s1 as [|d rest IH]; simpl.
  - now rewrite Ascii.eqb_refl.
  - intros H. apply orb_false_elim in H as [Hd Hrest].
    rewrite Hd. now apply IH.
Qed.

End JsFacts.

(* ================================================================= *)
(** ** Base64 decodes what it encodes *)

Module Base64Facts.
Import Base64.

Ltac below64 n H :=
  do 64 (destruct n as [|n]; [reflexivity|]); exfalso; lia.

Lemma value_digit (n : nat) : n < 64 -> value (digit n) = Some n.
Proof. intros H. below64 n H. Qed.

Lemma digit_not_pad (n : nat) : n < 64 -> Ascii.eqb (digit n) pad = false.
Proof. intros H. below64 n H. Qed.

Lemma digit_not_comma (n : nat) : Ascii.eqb (digit n) ","%char = false.
Proof.
  do 64 (destruct n as [|n]; [reflexivity|]).
  unfold digit. simpl. now destruct n.
Qed.

Lemma sextet1_bound (a : nat) : a < 256 -> sextet1 a < 64.
Proof. intros Ha. unfold sextet1. apply Nat.Div0.div_lt_upper_bound. lia. Qed.

Lemma sextet2_bound (a b : nat) : b < 256 -> sextet2 a b < 64.
Proof.
  intros Hb. unfold sextet2.
  assert (b / 16 < 16) by (apply Nat.Div0.div_lt_upper_bound; lia).
  pose proof (Nat.mod_upper_bound a 4). lia.
Qed.

Lemma sextet3_bound (b c : nat) : c < 256 -> sextet3 b c < 64.
Proof.
  intros Hc. unfold sextet3.
  assert (c / 64 < 4) by (apply Nat.Div0.div_lt_upper_bound; lia).
  pose proof (Nat.mod_upper_bound b 16). lia.
Qed.

Lemma sextet4_bound (c : nat) : sextet4 c < 64.
Proof. unfold sextet4. apply Nat.mod_upper_bound. lia. Qed.

(** The sextets of three bytes put together again. *)
Lemma join1 (a b : nat) : b < 256 -> sextet1 a * 4 + sextet2 a b / 16 = a.
Proof.
  intros Hb. unfold sextet1, sextet2.
  assert (b / 16 < 16) by (apply Nat.Div0.div_lt_upper_bound; lia).
  rewrite Nat.div_add_l by lia.
  rewrite (Nat.div_small (b / 16)) by lia.
  pose proof (Nat.div_mod_eq a 4). lia.
Qed.

Lemma join2 (a b c : nat) :
  b < 256 -> c < 256 -> (sextet2 a b mod 16) * 16 + sextet3 b c / 4 = b.
Proof.
  intros Hb Hc. unfold sextet2, sextet3.
  assert (b / 16 < 16) by (apply Nat.Div0.div_lt_upper_bound; lia).
  assert (c / 64 < 4) by (apply Nat.Div0.div_lt_upper_bound; lia).
  rewrite (Nat.add_comm (a mod 4 * 16)), Nat.Div0.mod_add, Nat.mod_small by lia.
  rewrite Nat.div_add_l by lia.
  rewrite (Nat.div_small (c / 64)) by lia.
  pose proof (Nat.div_mod_eq b 16). lia.
Qed.

Lemma join3 (b c : nat) : c < 256 -> (sextet3 b c mod 4) * 64 + sextet4 c = c.
Proof.
  intros Hc. unfold sextet3, sextet4.
  assert (c / 64 < 4) by (apply Nat.Div0.div_lt_upper_bound; lia).
  rewrite (Nat.add_comm (b mod 16 * 4)), Nat.Div0.mod_add, Nat.mod_small by lia.
  pose proof (Nat.div_mod_eq c 64). lia.
Qed.

Lemma byte_bound (x : byte) : Byte.to_nat x < 256.
Proof. pose proof (Byte.to_nat_bounded x). lia. Qed.

Lemma byte1_sextets (x y : byte) :
  byte1 (sextet1 (Byte.to_nat x)) (sextet2 (Byte.to_nat x) (Byte.to_nat y)) = Some x.
Proof.
  unfold byte1. rewrite join1 by apply byte_bound. apply Byte.of_to_nat.
Qed.

Lemma byte1_sextets_last (x : byte) :
  byte1 (sextet1 (Byte.to_nat x)) (sextet2 (Byte.to_nat x) 0) = Some x.
Proof.
  unfold byte1. rewrite join1 by lia. apply Byte.of_to_nat.
Qed.

Lemma byte2_sextets (x y z : byte) :
  byte2 (sextet2 (Byte.to_nat x) (Byte.to_nat y))
        (sextet3 (Byte.to_nat y) (Byte.to_nat z)) = Some y.
Proof.
  unfold byte2. rewrite join2 by apply byte_bound. apply Byte.of_to_nat.
Qed.

Lemma byte2_sextets_last (x y : byte) :
  byte2 (sextet2 (Byte.to_nat x) (Byte.to_nat y)) (sextet3 (Byte.to_nat y) 0) = Some y.
Proof.
  unfold byte2. rewrite join2 by (apply byte_bound || lia). apply Byte.of_to_nat.
Qed.

Lemma byte3_sextets (y z : byte) :
  byte3 (sextet3 (Byte.to_nat y) (Byte.to_nat z)) (sextet4 (Byte.to_nat z)) = Some z.
Proof.
  unfold byte3. rewrite join3 by apply byte_bound. apply Byte.of_to_nat.
Qed.

(** Lists three elements at a time. *)
Lemma by_threes (A : Type) (P : list A -> Prop) :
  P [] ->
  (forall x, P [x]) ->
  (forall x y, P [x; y]) ->
  (forall x y z l, P l -> P (x :: y :: z :: l)) ->
  forall l, P l.
Proof.
  intros H0 H1 H2 H3.
  assert (forall l, P l /\ (forall x, P (x :: l)) /\ (forall x y, P (x :: y :: l))) as H.
  { induction l as [|z l [IH0 [IH1 IH2]]]; repeat split; auto. }
  intros l. apply H.
Qed.

Ltac sextet_bounds :=
  first [apply sextet1_bound | apply sextet2_bound | apply sextet3_bound
        | apply sextet4_bound]; first [apply byte_bound | lia].

Theorem decode_encode (bytes : list byte) : decode (encode bytes) = Some bytes.
Proof.
  induction bytes as [|x|x y|x y z rest IH] using by_threes.
  - reflexivity.
  - cbn [encode decode].
    rewrite !value_digit by sextet_bounds.
    cbn [bind]. rewrite byte1_sextets_last. cbn [bind].
    now rewrite !Ascii.eqb_refl.
  - cbn [encode decode].
    rewrite !value_digit by sextet_bounds.
    cbn [bind]. rewrite byte1_sextets. cbn [bind].
    rewrite Ascii.eqb_refl.
    rewrite digit_not_pad by sextet_bounds.
    now rewrite byte2_sextets_last.
  - cbn [encode decode].
    rewrite !value_digit by sextet_bounds.
    cbn [bind]. rewrite byte1_sextets. cbn [bind].
    rewrite digit_not_pad by sextet_bounds.
    rewrite byte2_sextets, byte3_sextets. cbn [bind].
    now rewrite IH.
Qed.

Lemma encode_no_comma (bytes : list byte) : Js.occurs ","%char (encode bytes) = false.
Proof.
  induction bytes as [|x|x y|x y z rest IH] using by_threes;
    cbn [encode Js.occurs]; rewrite ?digit_not_comma, ?IH; reflexivity.
Qed.

End Base64Facts.

(* ================================================================= *)
(** ** Runs of the primitives *)

Section Runs.

Variable env : Env.

Lemma later_nothing (w : World) : later w [] 0 = w.
Proof.
  destruct w as [t k]. unfold later. simpl.
  now rewrite app_nil_r, Nat.add_0_r.
Qed.

Lemma later_later (w : World) (t1 t2 : list Event) (k1 k2 : nat) :
  later (later w t1 k1) t2 k2 = later w (t1 ++ t2) (k1 + k2).
Proof.
  unfold later. simpl. now rewrite app_assoc, Nat.add_assoc.
Qed.

Lemma emit_run (e : Event) (w : World) : emit e w = (Returned tt, later w [e] 0).
Proof. unfold emit, later. now rewrite Nat.add_0_r. Qed.

Lemma getAiClient_missing (w : World) :
  Js.truthy (API_KEY env) = false ->
  getAiClient env w = (Threw authenticationError, w).
Proof.
  unfold getAiClient. intros H.
  destruct (API_KEY env) as [key|]; [|reflexivity].
  now rewrite H.
Qed.

Lemma getAiClient_configured (w : World) :
  Js.truthy (API_KEY env) = true ->
  exists key, API_KEY env = Some key /\
              getAiClient env w = (Returned {| apiKey := key |}, w).
Proof.
  unfold getAiClient. intros H.
  destruct (API_KEY env) as [key|]; [|discriminate].
  exists key. now rewrite H.
Qed.

(** The encoder reads once and ends as the reader's promise settled. *)
Lemma fileToGenerativePart_run (file : File) (w : World) :
  fileToGenerativePart env file w =
  (match readerSettlement env file with
   | Some (Resolved encoded) =>
       Returned {| inlineData := {| data := encoded; mimeType := fileType file |} |}
   | Some (Rejected e) => Threw e
   | None => Pending
   end, later w [ReadFile file] 0).
Proof.
  unfold fileToGenerativePart, base64EncodedDataPromise, bind.
  rewrite emit_run. unfold ret.
  destruct (readerSettlement env file) as [[encoded|e]|]; reflexivity.
Qed.

(** How the reader's promise settles, by the way the read ends. *)
Lemma readerSettlement_cases (file : File) :
  readerSettlement env file =
  match readAsDataURL env file with
  | Loaded (ResultString s) => Some (Resolved (Js.index (Js.split ","%char s) 1))
  | Loaded _ => Some (Rejected readError)
  | Failed detail => Some (Rejected (ReaderError detail))
  end.
Proof.
  unfold readerSettlement.
  destruct (readAsDataURL env file) as [[s|b|]|detail]; reflexivity.
Qed.

End Runs.

(* ================================================================= *)
(** ** The poll loop against the service's snapshots *)

Section PollLoop.

Variable env : Env.
Variable ai : GoogleGenAI.

Lemma stillRunning_before (k0 : nat) (first : Settled Operation) (n m : nat) :
  stillRunning env k0 first n = true -> m <= n -> stillRunning env k0 first m = true.
Proof.
  induction n as [|n IH]; intros Hn Hm.
  - now replace m with 0 by lia.
  - destruct (Nat.eq_dec m (S n)) as [->|Hne]; [assumption|].
    simpl in Hn. apply andb_prop in Hn as [Hn _].
    apply IH; [assumption|lia].
Qed.

Lemma stillRunning_snapshot (k0 : nat) (first : Settled Operation) (n m : nat) :
  stillRunning env k0 first n = true -> m < n ->
  exists o, snapshot env k0 first m = Resolved o /\ isDone o = false.
Proof.
  intros Hn Hm.
  assert (stillRunning env k0 first (S m) = true) as H
      by (apply (stillRunning_before k0 first n); [assumption|lia]).
  simpl in H. apply andb_prop in H as [_ H].
  destruct (snapshot env k0 first m) as [o|e]; [|discriminate].
  exists o. split; [reflexivity|].
  now apply negb_true_iff.
Qed.

(** One iteration of the loop on a snapshot that is not done. *)
Lemma pollLoop_step (rounds : nat) (o : Operation) (c : nat) (w : World) :
  isDone o = false ->
  pollLoop env ai (S rounds) o c w =
  bind (await (getVideosOperation env (fetched w) o))
       (fun o' => pollLoop env ai rounds o' (S c))
       (later w [Progress (checkingStatus (S c)); Timeout 10000%N;
                 CallGetVideosOperation o] 1).
Proof.
  intros Hd. cbn [pollLoop]. rewrite Hd.
  unfold bind at 1. unfold onProgress, setTimeout. rewrite emit_run.
  unfold bind at 1. rewrite emit_run.
  unfold bind, operations_getVideosOperation, later. simpl.
  rewrite <- !app_assoc. simpl.
  replace (fetched w + 0 + 0) with (fetched w) by lia.
  replace (fetched w + 1) with (S (fetched w)) by lia.
  reflexivity.
Qed.

Lemma pollLoop_done (rounds : nat) (o : Operation) (c : nat) (w : World) :
  isDone o = true -> pollLoop env ai rounds o c w = (Returned o, w).
Proof. intros Hd. destruct rounds; cbn [pollLoop]; now rewrite Hd. Qed.

(** The first [n] iterations, while the snapshots are not done. *)
Lemma pollLoop_unroll (n : nat) :
  forall (rounds : nat) (op0 : Operation) (c : nat) (w : World),
    stillRunning env (fetched w) (Resolved op0) n = true ->
    pollLoop env ai (n + rounds) op0 c w =
    bind (await (snapshot env (fetched w) (Resolved op0) n))
         (fun o => pollLoop env ai rounds o (c + n))
         (later w (pollEvents env (fetched w) (Resolved op0) c n) n).
Proof.
  induction n as [|n IH]; intros rounds op0 c w Hrun.
  - simpl. rewrite later_nothing, Nat.add_0_r. reflexivity.
  - replace (S n + rounds) with (n + S rounds) by lia.
    simpl in Hrun. apply andb_prop in Hrun as [Hrun Hn].
    rewrite IH by assumption.
    cbn [snapshot pollEvents].
    destruct (snapshot env (fetched w) (Resolved op0) n) as [o|e]; [|discriminate].
    apply negb_true_iff in Hn.
    cbn [await]. unfold bind at 1. unfold ret at 1.
    rewrite pollLoop_step by assumption.
    rewrite later_later.
    replace (fetched (later w (pollEvents env (fetched w) (Resolved op0) c n) n))
      with (fetched w + n) by reflexivity.
    replace (n + 1) with (S n) by lia.
    replace (c + S n) with (S (c + n)) by lia.
    reflexivity.
Qed.

End PollLoop.

Section PollLoopOutcomes.

Variable env : Env.
Variable ai : GoogleGenAI.

(** The loop ends at the first snapshot that is done. *)
Lemma pollLoop_returns (n rounds : nat) (op0 o : Operation) (c : nat) (w : World) :
  stillRunning env (fetched w) (Resolved op0) n = true ->
  snapshot env (fetched w) (Resolved op0) n = Resolved o ->
  isDone o = true ->
  n <= rounds ->
  pollLoop env ai rounds op0 c w =
  (Returned o, later w (pollEvents env (fetched w) (Resolved op0) c n) n).
Proof.
  intros Hrun Hsnap Hdone Hle.
  replace rounds with (n + (rounds - n)) by lia.
  rewrite pollLoop_unroll by assumption.
  rewrite Hsnap. cbn [await]. unfold bind, ret.
  now apply pollLoop_done.
Qed.

(** The loop ends at the first status request that fails. *)
Lemma pollLoop_throws (n rounds : nat) (op0 : Operation) (e : Exn) (c : nat) (w : World) :
  stillRunning env (fetched w) (Resolved op0) n = true ->
  snapshot env (fetched w) (Resolved op0) n = Rejected e ->
  n <= rounds ->
  pollLoop env ai rounds op0 c w =
  (Threw e, later w (pollEvents env (fetched w) (Resolved op0) c n) n).
Proof.
  intros Hrun Hsnap Hle.
  replace rounds with (n + (rounds - n)) by lia.
  rewrite pollLoop_unroll by assumption.
  rewrite Hsnap. reflexivity.
Qed.

(** As long as the snapshots are not done the loop is still waiting. *)
Lemma pollLoop_waits (n : nat) (op0 : Operation) (c : nat) (w : World) :
  stillRunning env (fetched w) (Resolved op0) (S n) = true ->
  pollLoop env ai n op0 c w =
  (Pending, later w (pollEvents env (fetched w) (Resolved op0) c n) n).
Proof.
  intros Hrun.
  destruct (stillRunning_snapshot env _ _ (S n) n Hrun (Nat.lt_succ_diag_r n))
    as [o [Hsnap Hnot]].
  replace n with (n + 0) at 1 by lia.
  rewrite pollLoop_unroll
    by (apply (stillRunning_before env _ _ (S n)); [assumption|lia]).
  rewrite Hsnap. cbn [await]. unfold bind, ret.
  cbn [pollLoop]. now rewrite Hnot.
Qed.

(** Whatever the service does, the loop only appends to the trace:
    checking-status messages numbered from the attempt counter on, one
    timer and one status request per message; and what it returns is
    done. *)
Lemma pollLoop_appends (rounds : nat) :
  forall (o : Operation) (c : nat) (w : World),
  exists (t : list Event) (n : nat),
    trace (snd (pollLoop env ai rounds o c w)) = trace w ++ t /\
    progressOf t = map checkingStatus (seq (S c) n) /\
    List.length (refetchesOf t) = n /\
    (forall o', fst (pollLoop env ai rounds o c w) = Returned o' -> isDone o' = true).
Proof.
  induction rounds as [|rounds IH]; intros o c w.
  - exists [], 0. cbn [pollLoop].
    destruct (isDone o) eqn:Hd; simpl; rewrite app_nil_r;
      repeat split; intros o' H; inversion H; subst; assumption.
  - destruct (isDone o) eqn:Hd.
    + exists [], 0. rewrite pollLoop_done by assumption. simpl. rewrite app_nil_r.
      repeat split. intros o' H; inversion H; subst; assumption.
    + rewrite pollLoop_step by assumption.
      unfold bind.
      set (w1 := later w _ 1).
      destruct (getVideosOperation env (fetched w) o) as [o1|e]; cbn [await].
      * unfold ret.
        destruct (IH o1 (S c) w1) as [t [n [Ht [Hp [Hf Hr]]]]].
        exists ([Progress (checkingStatus (S c)); Timeout 10000%N;
                 CallGetVideosOperation o] ++ t), (S n).
        rewrite Ht. subst w1. unfold later. cbn [trace].
        rewrite <- app_assoc.
        split; [reflexivity|].
        split; [|split].
        -- unfold progressOf in *. rewrite flat_map_app, Hp. reflexivity.
        -- unfold refetchesOf in *. rewrite flat_map_app, length_app, Hf. reflexivity.
        -- exact Hr.
      * exists [Progress (checkingStatus (S c)); Timeout 10000%N;
                 CallGetVideosOperation o], 1.
        unfold throw. simpl. repeat split. intros o' H; discriminate.
Qed.

(** The events of [n] completed iterations. *)
Lemma pollEvents_progress (k0 : nat) (first : Settled Operation) (c n : nat) :
  stillRunning env k0 first n = true ->
  progressOf (pollEvents env k0 first c n) = map checkingStatus (seq (S c) n).
Proof.
  induction n as [|n IH]; intros Hrun; [reflexivity|].
  simpl in Hrun. apply andb_prop in Hrun as [Hrun Hn].
  cbn [pollEvents]. unfold progressOf in *.
  rewrite flat_map_app, IH by assumption.
  destruct (snapshot env k0 first n) as [o|e]; [|discriminate].
  rewrite seq_S, map_app. simpl.
  now replace (S (c + n)) with (S c + n) by lia.
Qed.

Lemma pollEvents_refetches_length (k0 : nat) (first : Settled Operation) (c n : nat) :
  stillRunning env k0 first n = true ->
  List.length (refetchesOf (pollEvents env k0 first c n)) = n.
Proof.
  induction n as [|n IH]; intros Hrun; [reflexivity|].
  simpl in Hrun. apply andb_prop in Hrun as [Hrun Hn].
  cbn [pollEvents]. unfold refetchesOf in *.
  rewrite flat_map_app, length_app, IH by assumption.
  destruct (snapshot env k0 first n) as [o|e]; [|discriminate].
  simpl. lia.
Qed.

(** The request after snapshot [m] is made with snapshot [m]. *)
Lemma pollEvents_refetch (k0 : nat) (first : Settled Operation) (c n m : nat) (o : Operation) :
  stillRunning env k0 first n = true ->
  m < n ->
  snapshot env k0 first m = Resolved o ->
  nth_error (refetchesOf (pollEvents env k0 first c n)) m = Some o.
Proof.
  induction n as [|n IH]; intros Hrun Hm Hsnap; [lia|].
  pose proof Hrun as Hrun'.
  simpl in Hrun. apply andb_prop in Hrun as [Hrun Hn].
  cbn [pollEvents]. unfold refetchesOf in *. rewrite flat_map_app.
  destruct (Nat.eq_dec m n) as [->|Hne].
  - rewrite nth_error_app2
      by (fold (refetchesOf (pollEvents env k0 first c n));
          rewrite pollEvents_refetches_length by assumption; lia).
    fold (refetchesOf (pollEvents env k0 first c n)).
    rewrite pollEvents_refetches_length by assumption.
    rewrite Nat.sub_diag, Hsnap. reflexivity.
  - rewrite nth_error_app1
      by (fold (refetchesOf (pollEvents env k0 first c n));
          rewrite pollEvents_refetches_length by assumption; lia).
    apply IH; [assumption|lia|assumption].
Qed.

(** Every request of the loop is made with a snapshot that is not done. *)
Lemma pollEvents_not_done (k0 : nat) (first : Settled Operation) (c n : nat) :
  stillRunning env k0 first n = true ->
  Forall (fun o => isDone o = false) (refetchesOf (pollEvents env k0 first c n)).
Proof.
  induction n as [|n IH]; intros Hrun; [constructor|].
  simpl in Hrun. apply andb_prop in Hrun as [Hrun Hn].
  cbn [pollEvents]. unfold refetchesOf in *. rewrite flat_map_app.
  apply Forall_app. split; [now apply IH|].
  destruct (snapshot env k0 first n) as [o|e]; [|discriminate].
  simpl. constructor; [|constructor]. now apply negb_true_iff.
Qed.

End PollLoopOutcomes.

(* ================================================================= *)
(** ** Runs of [generateVideo] *)

Section VideoRuns.

Variable env : Env.
Variable rounds : nat.
Variables startImageFile endImageFile : File.
Variable prompt : string.

Lemma finalize_run (operation : Operation) (w : World) :
  finalize env operation w =
  (if Js.truthy (downloadLinkOf operation)
   then Returned (Js.toString (downloadLinkOf operation) ++ "&key="
                  ++ Js.toString (API_KEY_later env (fetched w)))%string
   else Threw noLinkError,
   later w [Progress finalizing] 0).
Proof.
  unfold finalize, bind, onProgress, emit, process_env_API_KEY, later, ret, throw.
  cbn [fetched trace]. rewrite Nat.add_0_r.
  destruct (Js.truthy (downloadLinkOf operation)); reflexivity.
Qed.

(** The run, stage by stage. *)
Lemma generateVideo_run (w : World) :
  generateVideo env rounds startImageFile endImageFile prompt w =
  match API_KEY env with
  | None => (Threw authenticationError, w)
  | Some key =>
      if negb (Js.truthy (Some key)) then (Threw authenticationError, w)
      else
        match readerSettlement env startImageFile with
        | None => (Pending, later w [Progress preparing; ReadFile startImageFile] 0)
        | Some (Rejected e) =>
            (Threw e, later w [Progress preparing; ReadFile startImageFile] 0)
        | Some (Resolved d1) =>
            match readerSettlement env endImageFile with
            | None =>
                (Pending, later w [Progress preparing; ReadFile startImageFile;
                                   ReadFile endImageFile] 0)
            | Some (Rejected e) =>
                (Threw e, later w [Progress preparing; ReadFile startImageFile;
                                   ReadFile endImageFile] 0)
            | Some (Resolved d2) =>
                match generateVideos env
                        (videoRequest startImageFile endImageFile prompt d1 d2) with
                | Rejected e =>
                    (Threw e,
                     later w (submissionEvents startImageFile endImageFile prompt d1 d2) 0)
                | Resolved op0 =>
                    bind (pollLoop env {| apiKey := key |} rounds op0 0) (finalize env)
                         (later w (submissionEvents startImageFile endImageFile
                                                    prompt d1 d2
                                   ++ [Progress inProgress]) 0)
                end
            end
        end
  end.
Proof.
  unfold generateVideo, getAiClient.
  destruct (API_KEY env) as [key|] eqn:Hkey; [|reflexivity].
  destruct (negb (Js.truthy (Some key))); [reflexivity|].
  unfold bind at 1. unfold ret at 1.
  unfold bind at 1. unfold onProgress at 1. rewrite emit_run.
  unfold bind at 1. rewrite fileToGenerativePart_run.
  destruct (readerSettlement env startImageFile) as [[d1|e]|];
    [|rewrite later_later; reflexivity..].
  unfold bind at 1. rewrite fileToGenerativePart_run.
  destruct (readerSettlement env endImageFile) as [[d2|e]|];
    [|rewrite !later_later; reflexivity..].
  unfold bind at 1. unfold onProgress at 1. rewrite emit_run.
  unfold bind at 1. unfold models_generateVideos.
  unfold bind at 1. rewrite emit_run.
  cbn [data inlineData].
  destruct (generateVideos env _) as [op0|e]; cbn [await].
  - unfold ret at 1.
    unfold bind at 1. unfold onProgress at 1. rewrite emit_run.
    rewrite !later_later. reflexivity.
  - unfold throw. rewrite !later_later. reflexivity.
Qed.

End VideoRuns.

Section SubmittedRuns.

Variable env : Env.
Variables startImageFile endImageFile : File.
Variable prompt : string.
Variables d1 d2 : option string.

Hypothesis configured : Js.truthy (API_KEY env) = true.
Hypothesis startEncoded : readerSettlement env startImageFile = Some (Resolved d1).
Hypothesis endEncoded : readerSettlement env endImageFile = Some (Resolved d2).

Lemma generateVideo_rejected (rounds : nat) (e : Exn) :
  generateVideos env (videoRequest startImageFile endImageFile prompt d1 d2) = Rejected e ->
  generateVideo env rounds startImageFile endImageFile prompt initial =
  (Threw e,
   {| trace := submissionEvents startImageFile endImageFile prompt d1 d2;
      fetched := 0 |}).
Proof.
  intros Hsub. rewrite generateVideo_run.
  destruct (API_KEY env) as [key|]; [|discriminate].
  rewrite configured, startEncoded, endEncoded, Hsub. reflexivity.
Qed.

Variable op0 : Operation.

Hypothesis submitted :
  generateVideos env (videoRequest startImageFile endImageFile prompt d1 d2) = Resolved op0.

Lemma generateVideo_polls (rounds : nat) :
  exists key,
    API_KEY env = Some key /\
    generateVideo env rounds startImageFile endImageFile prompt initial =
    bind (pollLoop env {| apiKey := key |} rounds op0 0) (finalize env)
         (pollingStart startImageFile endImageFile prompt d1 d2).
Proof.
  rewrite generateVideo_run.
  destruct (API_KEY env) as [key|] eqn:Hkey; [|discriminate].
  exists key. split; [reflexivity|].
  rewrite configured, startEncoded, endEncoded, submitted. reflexivity.
Qed.

(** The job is done at snapshot [n]: the run ends there. *)
Lemma generateVideo_done (n rounds : nat) (o : Operation) :
  stillRunning env 0 (Resolved op0) n = true ->
  snapshot env 0 (Resolved op0) n = Resolved o ->
  isDone o = true ->
  n <= rounds ->
  generateVideo env rounds startImageFile endImageFile prompt initial =
  (if Js.truthy (downloadLinkOf o)
   then Returned (Js.toString (downloadLinkOf o) ++ "&key="
                  ++ Js.toString (API_KEY_later env n))%string
   else Threw noLinkError,
   {| trace := jobEvents env startImageFile endImageFile prompt d1 d2 op0 n
               ++ [Progress finalizing];
      fetched := n |}).
Proof.
  intros Hrun Hsnap Hdone Hle.
  destruct (generateVideo_polls rounds) as [key [Hkey ->]].
  unfold bind.
  rewrite (pollLoop_returns env _ n rounds op0 o 0
             (pollingStart startImageFile endImageFile prompt d1 d2) Hrun Hsnap Hdone Hle).
  rewrite finalize_run. unfold later, jobEvents, pollingStart. cbn [trace fetched].
  rewrite <- !app_assoc, Nat.add_0_r. reflexivity.
Qed.

(** The status request after snapshot [n] fails: the run ends there. *)
Lemma generateVideo_poll_rejected (n rounds : nat) (e : Exn) :
  stillRunning env 0 (Resolved op0) n = true ->
  snapshot env 0 (Resolved op0) n = Rejected e ->
  n <= rounds ->
  generateVideo env rounds startImageFile endImageFile prompt initial =
  (Threw e,
   {| trace := jobEvents env startImageFile endImageFile prompt d1 d2 op0 n;
      fetched := n |}).
Proof.
  intros Hrun Hsnap Hle.
  destruct (generateVideo_polls rounds) as [key [Hkey ->]].
  unfold bind.
  rewrite (pollLoop_throws env _ n rounds op0 e 0
             (pollingStart startImageFile endImageFile prompt d1 d2) Hrun Hsnap Hle).
  unfold later, jobEvents, pollingStart. cbn [trace fetched].
  rewrite <- !app_assoc. reflexivity.
Qed.

(** No snapshot up to [rounds] is done: the run is still waiting. *)
Lemma generateVideo_waiting (rounds : nat) :
  stillRunning env 0 (Resolved op0) (S rounds) = true ->
  generateVideo env rounds startImageFile endImageFile prompt initial =
  (Pending,
   {| trace := jobEvents env startImageFile endImageFile prompt d1 d2 op0 rounds;
      fetched := rounds |}).
Proof.
  intros Hrun.
  destruct (generateVideo_polls rounds) as [key [Hkey ->]].
  unfold bind.
  rewrite (pollLoop_waits env _ rounds op0 0
             (pollingStart startImageFile endImageFile prompt d1 d2) Hrun).
  unfold later, jobEvents, pollingStart. cbn [trace fetched].
  rewrite <- !app_assoc. reflexivity.
Qed.

(** In any case the trace starts with the first [n] iterations when
    the job is still running after [n] snapshots and [n] rounds are
    followed. *)
Lemma generateVideo_prefix (n rounds : nat) :
  stillRunning env 0 (Resolved op0) n = true ->
  n <= rounds ->
  exists t,
    trace (snd (generateVideo env rounds startImageFile endImageFile prompt initial)) =
    jobEvents env startImageFile endImageFile prompt d1 d2 op0 n ++ t.
Proof.
  intros Hrun Hle.
  destruct (generateVideo_polls rounds) as [key [Hkey ->]].
  replace rounds with (n + (rounds - n)) by lia.
  unfold bind at 1.
  rewrite (pollLoop_unroll env _ n (rounds - n) op0 0
             (pollingStart startImageFile endImageFile prompt d1 d2) Hrun).
  unfold bind at 1.
  change (fetched (pollingStart startImageFile endImageFile prompt d1 d2)) with 0.
  set (w1 := later (pollingStart startImageFile endImageFile prompt d1 d2) _ n).
  assert (trace w1 = jobEvents env startImageFile endImageFile prompt d1 d2 op0 n) as Hw1.
  { subst w1. unfold later, jobEvents, pollingStart. cbn [trace].
    now rewrite <- !app_assoc. }
  destruct (snapshot env 0 (Resolved op0) n) as [o|e]; cbn [await].
  - unfold ret at 1.
    destruct (pollLoop_appends env {| apiKey := key |} (rounds - n) o (0 + n) w1)
      as [t [m [Ht _]]].
    destruct (pollLoop env {| apiKey := key |} (rounds - n) o (0 + n) w1)
      as [[o'|e|] w2]; cbn [snd] in Ht |- *; rewrite ?finalize_run; cbn [snd].
    + exists (t ++ [Progress finalizing]).
      unfold later. cbn [trace]. now rewrite Ht, Hw1, app_assoc.
    + exists t. now rewrite Ht, Hw1.
    + exists t. now rewrite Ht, Hw1.
  - exists []. unfold throw. cbn [snd]. now rewrite Hw1, app_nil_r.
Qed.

End SubmittedRuns.

(* ================================================================= *)
(** ** Runs of [editImage] *)

Lemma editImage_run (env : Env) (imageFile : File) (prompt : string) (w : World) :
  editImage env imageFile prompt w =
  match API_KEY env with
  | None => (Threw authenticationError, w)
  | Some key =>
      if negb (Js.truthy (Some key)) then (Threw authenticationError, w)
      else
        match readerSettlement env imageFile with
        | None => (Pending, later w [ReadFile imageFile] 0)
        | Some (Rejected e) => (Threw e, later w [ReadFile imageFile] 0)
        | Some (Resolved encoded) =>
            let request := editRequest imageFile prompt encoded in
            match generateContent env request with
            | Rejected e =>
                (Threw e, later w [ReadFile imageFile; CallGenerateContent request] 0)
            | Resolved response =>
                (scanResponse response,
                 later w [ReadFile imageFile; CallGenerateContent request] 0)
            end
        end
  end.
Proof.
  unfold editImage, getAiClient.
  destruct (API_KEY env) as [key|]; [|reflexivity].
  destruct (negb (Js.truthy (Some key))); [reflexivity|].
  unfold bind at 1. unfold ret at 1.
  unfold bind at 1. rewrite fileToGenerativePart_run.
  destruct (readerSettlement env imageFile) as [[encoded|e]|]; [|reflexivity..].
  unfold bind at 1. unfold models_generateContent.
  unfold bind at 1. rewrite emit_run, later_later.
  fold (editRequest imageFile prompt encoded). cbv zeta.
  destruct (generateContent env (editRequest imageFile prompt encoded)) as [response|e];
    cbn [await]; [|reflexivity].
  unfold ret at 1. unfold scanResponse.
  destruct (firstCandidateParts response) as [ps|]; [|reflexivity].
  destruct (scanParts ps); reflexivity.
Qed.

(** The scan returns the data of the first part with inline data. *)
Lemma scanParts_first (before : list Part) (part : Part) (blob : Blob) (after : list Part) :
  forallb (fun p => negb (carriesImage p)) before = true ->
  partInlineData part = Some blob ->
  scanParts (before ++ part :: after) = Some (blobData blob).
Proof.
  induction before as [|p before IH]; simpl; intros Hb Hp.
  - now rewrite Hp.
  - apply andb_prop in Hb as [Hp0 Hb]. unfold carriesImage in Hp0.
    destruct (partInlineData p); [discriminate|]. now apply IH.
Qed.

Lemma scanParts_none (ps : list Part) :
  existsb carriesImage ps = false -> scanParts ps = None.
Proof.
  induction ps as [|p ps IH]; simpl; [reflexivity|].
  intros H. apply orb_false_elim in H as [Hp Hps]. unfold carriesImage in Hp.
  destruct (partInlineData p); [discriminate|]. now apply IH.
Qed.

(* ================================================================= *)
(** ** The encoder *)

(** C8. A reader that works delivers the file's data URL: a header
    without a comma (the scheme, the declared type, the encoding), a
    comma, and the base64 text of the bytes.  For every such file the
    encoder returns a payload whose [mimeType] is the declared type
    verbatim and whose [data] base64-decodes to the bytes of the file;
    the file is read once. *)
Theorem encoder_round_trip (env : Env) (file : File) (header : string) (w : World) :
  Js.occurs ","%char header = false ->
  readAsDataURL env file =
  Loaded (ResultString (header ++ String ","%char (Base64.encode (fileBytes file)))) ->
  exists encoded,
    fileToGenerativePart env file w =
    (Returned {| inlineData := {| data := Some encoded; mimeType := fileType file |} |},
     later w [ReadFile file] 0)
    /\ Base64.decode encoded = Some (fileBytes file).
Proof.
  intros Hheader Hread.
  exists (Base64.encode (fileBytes file)).
  split; [|apply Base64Facts.decode_encode].
  rewrite fileToGenerativePart_run, readerSettlement_cases, Hread.
  rewrite JsFacts.split_field1.
  rewrite JsFacts.after_app by assumption.
  cbn [option_map].
  rewrite JsFacts.before_absent by apply Base64Facts.encode_no_comma.
  reflexivity.
Qed.

Lemma encoder_round_trip_witness :
  exists encoded,
    fileToGenerativePart (scripted None (Rejected TypeError) (Rejected TypeError) [])
                         frameA initial =
    (Returned {| inlineData := {| data := Some encoded; mimeType := "image/png" |} |},
     later initial [ReadFile frameA] 0)
    /\ Base64.decode encoded = Some [x89; x50; x4e; x47; x0d].
Proof.
  apply (encoder_round_trip
           (scripted None (Rejected TypeError) (Rejected TypeError) []) frameA
           "data:image/png;base64" initial);
    reflexivity.
Defined.

(** C10, as the code has it.  The encoder fails exactly when the read
    fails or the reader's result is not a string.  For a string result
    it succeeds, and [data] is the field between the first comma and the
    next one (or the end of the string); it is absent when the string
    has no comma. *)
Theorem encoder_settles (env : Env) (file : File) (w : World) :
  match readAsDataURL env file with
  | Loaded (ResultString s) =>
      fst (fileToGenerativePart env file w) =
      Returned {| inlineData :=
                    {| data := option_map (Js.before ","%char) (Js.after ","%char s);
                       mimeType := fileType file |} |}
      /\ (Js.occurs ","%char s = false ->
          option_map (Js.before ","%char) (Js.after ","%char s) = None)
  | Loaded _ => fst (fileToGenerativePart env file w) = Threw readError
  | Failed detail => fst (fileToGenerativePart env file w) = Threw (ReaderError detail)
  end.
Proof.
  rewrite fileToGenerativePart_run, readerSettlement_cases.
  destruct (readAsDataURL env file) as [[s|b|]|detail]; cbn [fst]; try reflexivity.
  rewrite JsFacts.split_field1. split; [reflexivity|].
  intros H. now rewrite JsFacts.after_absent.
Qed.

(** C10, as stated, fails: on the reader result ["a,b,c"] the encoder's
    [data] is ["b"], not the substring ["b,c"] after the first comma. *)
Lemma encoder_after_first_comma_counterexample :
  fst (fileToGenerativePart (reading (Loaded (ResultString "a,b,c"))) frameA initial) =
  Returned {| inlineData := {| data := Some "b"; mimeType := "image/png" |} |}
  /\ Js.after ","%char "a,b,c" = Some "b,c"
  /\ Some "b" <> Js.after ","%char "a,b,c".
Proof.
  split; [reflexivity|]. split; [reflexivity|]. discriminate.
Qed.

(* ================================================================= *)
(** ** Missing credential *)

(** C4. Without a credential (absent or empty) both operations fail with
    the authentication error, and their traces are empty: no file was
    read, nothing was encoded and no remote call was made. *)
Theorem no_credential_fails_first
        (env : Env) (rounds : nat) (file1 file2 : File) (prompt1 prompt2 : string) :
  Js.truthy (API_KEY env) = false ->
  let edit := editImage env file1 prompt1 initial in
  let generate := generateVideo env rounds file1 file2 prompt2 initial in
  fst edit = Threw authenticationError
  /\ fst generate = Threw authenticationError
  /\ trace (snd edit) = [] /\ trace (snd generate) = []
  /\ readsOf (trace (snd edit)) = [] /\ readsOf (trace (snd generate)) = []
  /\ remoteCallsOf (trace (snd edit)) = [] /\ remoteCallsOf (trace (snd generate)) = [].
Proof.
  intros Hkey edit generate.
  assert (edit = (Threw authenticationError, initial)) as ->.
  { subst edit. rewrite editImage_run.
    destruct (API_KEY env) as [key|]; [|reflexivity]. now rewrite Hkey. }
  assert (generate = (Threw authenticationError, initial)) as ->.
  { subst generate. rewrite generateVideo_run.
    destruct (API_KEY env) as [key|]; [|reflexivity]. now rewrite Hkey. }
  repeat split.
Qed.

Lemma no_credential_fails_first_witness :
  let env := scripted None (Resolved (reply [[picture "AAAA"]]))
                      (Resolved (videoJob true (Some "https://example/video123"))) [] in
  let edit := editImage env frameA "add a hat" initial in
  let generate := generateVideo env 3 frameA frameB "sunrise time-lapse" initial in
  fst edit = Threw authenticationError
  /\ fst generate = Threw authenticationError
  /\ trace (snd edit) = [] /\ trace (snd generate) = []
  /\ readsOf (trace (snd edit)) = [] /\ readsOf (trace (snd generate)) = []
  /\ remoteCallsOf (trace (snd edit)) = [] /\ remoteCallsOf (trace (snd generate)) = [].
Proof.
  apply (no_credential_fails_first
           (scripted None (Resolved (reply [[picture "AAAA"]]))
                     (Resolved (videoJob true (Some "https://example/video123"))) [])
           3 frameA frameB "add a hat" "sunrise time-lapse").
  reflexivity.
Defined.

(* ================================================================= *)
(** ** The edit client *)

(** C5, as the code has it.  The remote call succeeded and the response
    has the list of parts of its first candidate
    ([response.candidates[0].content.parts]).  Then [editImage] made
    exactly one remote call; if no part of that list carries inline
    data it fails with the no-image-data error, returning nothing;
    otherwise it returns the data of the first part of that list that
    carries inline data. *)
Theorem editImage_first_inline_data
        (env : Env) (imageFile : File) (prompt : string) (encoded : option string)
        (response : GenerateContentResponse) (ps : list Part) :
  Js.truthy (API_KEY env) = true ->
  readerSettlement env imageFile = Some (Resolved encoded) ->
  generateContent env (editRequest imageFile prompt encoded) = Resolved response ->
  firstCandidateParts response = Some ps ->
  let run := editImage env imageFile prompt initial in
  remoteCallsOf (trace (snd run)) = [CallGenerateContent (editRequest imageFile prompt encoded)]
  /\ (existsb carriesImage ps = false -> fst run = Threw noImageError)
  /\ (forall before part blob after,
         ps = before ++ part :: after ->
         forallb (fun p => negb (carriesImage p)) before = true ->
         partInlineData part = Some blob ->
         fst run = Returned (blobData blob)).
Proof.
  intros Hkey Hread Hcall Hparts run.
  assert (run = (scanResponse response,
                 later initial [ReadFile imageFile;
                                CallGenerateContent (editRequest imageFile prompt encoded)] 0))
    as ->.
  { subst run. rewrite editImage_run.
    destruct (API_KEY env) as [key|]; [|discriminate].
    rewrite Hkey, Hread. cbv zeta. now rewrite Hcall. }
  cbn [fst snd]. unfold scanResponse. rewrite Hparts.
  split; [reflexivity|]. split.
  - intros Hnone. now rewrite scanParts_none.
  - intros before part blob after -> Hbefore Hpart.
    now rewrite (scanParts_first before part blob after Hbefore Hpart).
Qed.

Lemma editImage_first_inline_data_witness :
  fst (editImage (scripted (Some "secret")
                           (Resolved (reply [[textOnly; picture "AAAA"; picture "BBBB"]]))
                           (Rejected TypeError) [])
                 frameA "add a hat" initial)
  = Returned (Some "AAAA").
Proof.
  apply (proj2 (proj2
           (editImage_first_inline_data
              (scripted (Some "secret")
                        (Resolved (reply [[textOnly; picture "AAAA"; picture "BBBB"]]))
                        (Rejected TypeError) [])
              frameA "add a hat" (Some (Base64.encode (fileBytes frameA)))
              (reply [[textOnly; picture "AAAA"; picture "BBBB"]])
              [textOnly; picture "AAAA"; picture "BBBB"]
              eq_refl eq_refl eq_refl eq_refl))
           [textOnly] (picture "AAAA")
           {| blobData := Some "AAAA"; blobMimeType := Some "image/png" |}
           [picture "BBBB"]);
    reflexivity.
Defined.

(** C5, as stated, fails.  A part of the response carries inline image
    data, in its second candidate, and [editImage] fails with the
    no-image-data error instead of returning it; and on a response
    without candidates, where no part carries inline data, the failure
    is not the no-image-data error. *)
Lemma editImage_any_part_counterexample :
  let later_image :=
    scripted (Some "secret") (Resolved (reply [[textOnly]; [picture "AAAA"]]))
             (Rejected TypeError) [] in
  let no_candidate :=
    scripted (Some "secret") (Resolved (reply [])) (Rejected TypeError) [] in
  fst (editImage later_image frameA "add a hat" initial) = Threw noImageError
  /\ fst (editImage later_image frameA "add a hat" initial) <> Returned (Some "AAAA")
  /\ fst (editImage no_candidate frameA "add a hat" initial) = Threw TypeError
  /\ fst (editImage no_candidate frameA "add a hat" initial) <> Threw noImageError.
Proof.
  repeat split; discriminate.
Qed.

(** C9. Only the first candidate is looked at.  When the remote call
    succeeded and the first candidate of the response carries no inline
    data (there is no first candidate, or it has no parts, or none of
    its parts has inline data), [editImage] returns nothing, whatever
    the later candidates carry; and without any candidate (the list
    absent or empty) it fails with the runtime's type error, which is
    not the no-image-data error. *)
Theorem editImage_first_candidate_only
        (env : Env) (imageFile : File) (prompt : string) (encoded : option string)
        (response : GenerateContentResponse) :
  Js.truthy (API_KEY env) = true ->
  readerSettlement env imageFile = Some (Resolved encoded) ->
  generateContent env (editRequest imageFile prompt encoded) = Resolved response ->
  let run := editImage env imageFile prompt initial in
  (firstCandidateImage response = false -> forall d, fst run <> Returned d)
  /\ (candidates response = None \/ candidates response = Some [] ->
      fst run = Threw TypeError /\ fst run <> Threw noImageError).
Proof.
  intros Hkey Hread Hcall run.
  assert (fst run = scanResponse response) as ->.
  { subst run. rewrite editImage_run.
    destruct (API_KEY env) as [key|]; [|discriminate].
    rewrite Hkey, Hread. cbv zeta. now rewrite Hcall. }
  unfold scanResponse, firstCandidateImage. split.
  - intros Hnone d.
    destruct (firstCandidateParts response) as [ps|]; [|discriminate].
    now rewrite scanParts_none.
  - unfold firstCandidateParts.
    intros [-> | ->]; split; (reflexivity || discriminate).
Qed.

Lemma editImage_first_candidate_only_witness :
  let env := scripted (Some "secret")
                      (Resolved (reply [[textOnly]; [picture "AAAA"]]))
                      (Rejected TypeError) [] in
  let empty := scripted (Some "secret") (Resolved (reply [])) (Rejected TypeError) [] in
  (forall d, fst (editImage env frameA "add a hat" initial) <> Returned d)
  /\ fst (editImage empty frameA "add a hat" initial) = Threw TypeError
  /\ fst (editImage empty frameA "add a hat" initial) <> Threw noImageError.
Proof.
  split.
  - apply (proj1
             (editImage_first_candidate_only
                (scripted (Some "secret")
                          (Resolved (reply [[textOnly]; [picture "AAAA"]]))
                          (Rejected TypeError) [])
                frameA "add a hat" (Some (Base64.encode (fileBytes frameA)))
                (reply [[textOnly]; [picture "AAAA"]])
                eq_refl eq_refl eq_refl)).
    reflexivity.
  - apply (proj2
             (editImage_first_candidate_only
                (scripted (Some "secret") (Resolved (reply [])) (Rejected TypeError) [])
                frameA "add a hat" (Some (Base64.encode (fileBytes frameA)))
                (reply [])
                eq_refl eq_refl eq_refl)).
    right. reflexivity.
Defined.

(* ================================================================= *)
(** ** The video client *)

Lemma refetchesOf_app (t1 t2 : list Event) :
  refetchesOf (t1 ++ t2) = refetchesOf t1 ++ refetchesOf t2.
Proof. unfold refetchesOf. apply flat_map_app. Qed.

Lemma progressOf_app (t1 t2 : list Event) :
  progressOf (t1 ++ t2) = progressOf t1 ++ progressOf t2.
Proof. unfold progressOf. apply flat_map_app. Qed.

Lemma refetchesOf_jobEvents (env : Env) (startImageFile endImageFile : File)
      (prompt : string) (d1 d2 : option string) (op0 : Operation) (n : nat) :
  refetchesOf (jobEvents env startImageFile endImageFile prompt d1 d2 op0 n) =
  refetchesOf (pollEvents env 0 (Resolved op0) 0 n).
Proof. unfold jobEvents. rewrite !refetchesOf_app. reflexivity. Qed.

Lemma progressOf_jobEvents (env : Env) (startImageFile endImageFile : File)
      (prompt : string) (d1 d2 : option string) (op0 : Operation) (n : nat) :
  stillRunning env 0 (Resolved op0) n = true ->
  progressOf (jobEvents env startImageFile endImageFile prompt d1 d2 op0 n) =
  [preparing; initiating; inProgress] ++ map checkingStatus (seq 1 n).
Proof.
  intros Hrun. unfold jobEvents. rewrite !progressOf_app.
  rewrite pollEvents_progress by assumption. reflexivity.
Qed.

(** C1. The poll loop follows the snapshots.  Let the run have come to
    the [N]-th snapshot of the job (the submission's for [N = 0]), none
    before it being done.  If that snapshot is not done, the status is
    requested once more, with that snapshot as the handle: in every run
    that follows more than [N] iterations the [N+1]-th status request
    is there.  If it is done, no run, however long it is followed,
    makes more than [N] status requests (it makes exactly [N] once [N]
    iterations are followed), and none of its requests was made with a
    snapshot that was done. *)
Theorem generateVideo_poll_invariant
        (env : Env) (startImageFile endImageFile : File) (prompt : string)
        (d1 d2 : option string) (op0 : Operation) (N : nat) (operation : Operation) :
  Js.truthy (API_KEY env) = true ->
  readerSettlement env startImageFile = Some (Resolved d1) ->
  readerSettlement env endImageFile = Some (Resolved d2) ->
  generateVideos env (videoRequest startImageFile endImageFile prompt d1 d2) = Resolved op0 ->
  stillRunning env 0 (Resolved op0) N = true ->
  snapshot env 0 (Resolved op0) N = Resolved operation ->
  (isDone operation = false ->
   forall rounds, N < rounds ->
     nth_error
       (refetchesOf
          (trace (snd (generateVideo env rounds startImageFile endImageFile prompt initial))))
       N = Some operation)
  /\
  (isDone operation = true ->
   forall rounds,
     let requests :=
       refetchesOf
         (trace (snd (generateVideo env rounds startImageFile endImageFile prompt initial))) in
     List.length requests = Nat.min rounds N
     /\ Forall (fun o => isDone o = false) requests).
Proof.
  intros Hkey Hstart Hend Hsub Hrun Hsnap. split.
  - intros Hnot rounds Hlt.
    assert (stillRunning env 0 (Resolved op0) (S N) = true) as Hrun'.
    { simpl. now rewrite Hrun, Hsnap, Hnot. }
    destruct (generateVideo_prefix env startImageFile endImageFile prompt d1 d2
                Hkey Hstart Hend op0 Hsub (S N) rounds Hrun' Hlt) as [t ->].
    rewrite refetchesOf_app, refetchesOf_jobEvents.
    rewrite nth_error_app1
      by (rewrite pollEvents_refetches_length by assumption; lia).
    apply pollEvents_refetch; [assumption|lia|assumption].
  - intros Hdone rounds requests. subst requests.
    destruct (Nat.le_gt_cases N rounds) as [Hle|Hgt].
    + rewrite (generateVideo_done env startImageFile endImageFile prompt d1 d2
                 Hkey Hstart Hend op0 Hsub N rounds operation Hrun Hsnap Hdone Hle).
      cbn [snd trace].
      rewrite refetchesOf_app, refetchesOf_jobEvents. cbn [refetchesOf flat_map].
      rewrite app_nil_r. split.
      * rewrite pollEvents_refetches_length by assumption. lia.
      * now apply pollEvents_not_done.
    + assert (stillRunning env 0 (Resolved op0) (S rounds) = true) as Hrun'
          by (apply (stillRunning_before env 0 (Resolved op0) N); [assumption|lia]).
      rewrite (generateVideo_waiting env startImageFile endImageFile prompt d1 d2
                 Hkey Hstart Hend op0 Hsub rounds Hrun').
      cbn [snd trace].
      assert (stillRunning env 0 (Resolved op0) rounds = true) as Hrun''
          by (apply (stillRunning_before env 0 (Resolved op0) N); [assumption|lia]).
      rewrite refetchesOf_jobEvents. split.
      * rewrite pollEvents_refetches_length by assumption. lia.
      * now apply pollEvents_not_done.
Qed.

Lemma generateVideo_poll_invariant_witness :
  nth_error
    (refetchesOf (trace (snd (generateVideo sunrise 5 frameA frameB "sunrise time-lapse"
                                            initial))))
    1 = Some (videoJob false None)
  /\ List.length
       (refetchesOf (trace (snd (generateVideo sunrise 5 frameA frameB "sunrise time-lapse"
                                               initial))))
     = Nat.min 5 2.
Proof.
  split.
  - apply (proj1
             (generateVideo_poll_invariant
                sunrise frameA frameB "sunrise time-lapse"
                (Some (Base64.encode (fileBytes frameA)))
                (Some (Base64.encode (fileBytes frameB)))
                (videoJob false None) 1 (videoJob false None)
                eq_refl eq_refl eq_refl eq_refl eq_refl eq_refl));
      [reflexivity | lia].
  - apply (proj2
             (generateVideo_poll_invariant
                sunrise frameA frameB "sunrise time-lapse"
                (Some (Base64.encode (fileBytes frameA)))
                (Some (Base64.encode (fileBytes frameB)))
                (videoJob false None) 2
                (videoJob true (Some "https://example/video123"))
                eq_refl eq_refl eq_refl eq_refl eq_refl eq_refl)).
    reflexivity.
Defined.

(** *** The attempt number of a checking-status message *)

Module AttemptFacts.
Import Attempt.

Lemma stripPrefix_app (p s : string) : stripPrefix p (p ++ s)%string = Some s.
Proof.
  induction p as [|a p IH]; [reflexivity|].
  cbn [append stripPrefix]. now rewrite Ascii.eqb_refl.
Qed.

Lemma readDigits_stop (tail : string) (acc : nat) :
  startsWithDigit tail = false -> readDigits tail acc = (acc, tail).
Proof.
  destruct tail as [|c rest]; [reflexivity|].
  cbn [startsWithDigit readDigits].
  destruct (digitValue c); [discriminate|reflexivity].
Qed.

Lemma readDigits_digit (c : ascii) (v : nat) (rest : string) (acc : nat) :
  digitValue c = Some v ->
  readDigits (String c rest) acc = readDigits rest (10 * acc + v).
Proof. intros H. cbn [readDigits]. now rewrite H. Qed.

(** The digits of a decimal number are read back as that number. *)
Lemma readDigits_uint (d : Decimal.uint) :
  forall (tail : string) (acc : nat),
    startsWithDigit tail = false ->
    readDigits (NilEmpty.string_of_uint d ++ tail)%string acc
    = (Nat.of_uint_acc d acc, tail).
Proof.
  induction d as [|d IH|d IH|d IH|d IH|d IH|d IH|d IH|d IH|d IH|d IH];
    intros tail acc Htail;
    cbn [NilEmpty.string_of_uint append Nat.of_uint_acc];
    [now apply readDigits_stop|..];
    (erewrite readDigits_digit by reflexivity);
    rewrite IH by assumption;
    rewrite Nat.tail_mul_spec; do 2 f_equal; lia.
Qed.

Lemma startsWithDigit_uint (d : Decimal.uint) (tail : string) :
  startsWithDigit (NilZero.string_of_uint d ++ tail)%string = true.
Proof. destruct d; reflexivity. Qed.

Lemma readDigits_number (k : nat) (tail : string) :
  startsWithDigit tail = false ->
  readDigits (Js.numberToString k ++ tail)%string 0 = (k, tail).
Proof.
  intros Htail. unfold Js.numberToString.
  rewrite <- (DecimalNat.Unsigned.of_to k) at 2.
  unfold Nat.of_uint.
  destruct (Nat.to_uint k) as [|d|d|d|d|d|d|d|d|d|d] eqn:Hd;
    [cbn [NilZero.string_of_uint append Nat.of_uint_acc];
     erewrite readDigits_digit by reflexivity;
     now rewrite readDigits_stop
    |unfold NilZero.string_of_uint; now apply readDigits_uint..].
Qed.

(** A checking-status message carries its attempt number. *)
Theorem attemptOf_checkingStatus (k : nat) : attemptOf (checkingStatus k) = Some k.
Proof.
  unfold attemptOf, checkingStatus.
  rewrite stripPrefix_app.
  unfold Js.numberToString at 1. rewrite startsWithDigit_uint.
  fold (Js.numberToString k).
  rewrite readDigits_number by reflexivity.
  reflexivity.
Qed.

Lemma attemptOf_attempts (l : list nat) :
  map attemptOf (map checkingStatus l) = map Some l.
Proof.
  rewrite map_map. apply map_ext. apply attemptOf_checkingStatus.
Qed.

Lemma checkingStatus_injective (j k : nat) : checkingStatus j = checkingStatus k -> j = k.
Proof.
  intros H. apply (f_equal attemptOf) in H.
  rewrite !attemptOf_checkingStatus in H. now inversion H.
Qed.

End AttemptFacts.

(** The progress messages of a run that returns. *)
Lemma returned_progress
      (env : Env) (rounds : nat) (startImageFile endImageFile : File) (prompt : string)
      (url : string) (w : World) :
  generateVideo env rounds startImageFile endImageFile prompt initial = (Returned url, w) ->
  exists n,
    progressOf (trace w) =
    [preparing; initiating; inProgress] ++ map checkingStatus (seq 1 n) ++ [finalizing]
    /\ List.length (refetchesOf (trace w)) = n.
Proof.
  rewrite generateVideo_run.
  destruct (API_KEY env) as [key|]; [|discriminate].
  destruct (negb (Js.truthy (Some key))); [discriminate|].
  destruct (readerSettlement env startImageFile) as [[d1|e]|]; [|discriminate..].
  destruct (readerSettlement env endImageFile) as [[d2|e]|]; [|discriminate..].
  destruct (generateVideos env _) as [op0|e]; [|discriminate].
  unfold bind.
  set (w0 := later initial _ 0).
  destruct (pollLoop_appends env {| apiKey := key |} rounds op0 0 w0)
    as [t [n [Ht [Hp [Hf _]]]]].
  destruct (pollLoop env {| apiKey := key |} rounds op0 0 w0) as [[o|e|] w1];
    [|discriminate..].
  cbn [snd] in Ht.
  rewrite finalize_run. intros H. inversion H as [[Hurl Hw]]. clear H Hurl.
  exists n. unfold later. cbn [trace]. rewrite Ht. subst w0.
  unfold later. cbn [trace].
  rewrite !progressOf_app, !refetchesOf_app, Hp, !length_app, Hf.
  split; [reflexivity|]. simpl. lia.
Qed.

(** C2. In every run of [generateVideo] that returns a result, the
    progress sink received, in this order: the preparing message, the
    initiating message, the in-progress message, the checking-status
    messages of attempts [1, 2, ..., n] for some [n] (one per status
    request), and the finalizing message; nothing else.  The attempt
    numbers are read off the texts the sink received: each
    checking-status message spells its number in decimal digits between
    ["Checking status (attempt "] and [")... Please be patient."], the
    numbers are 1, 2, ..., [n] in this order, and the other four
    messages carry none.  Such runs exist: when the job is done at its
    [N]-th snapshot and that snapshot carries a URI, every run followed
    for [N] iterations returns, with [n = N]. *)
Theorem generateVideo_progress_order
        (env : Env) (rounds : nat) (startImageFile endImageFile : File) (prompt : string) :
  let run := generateVideo env rounds startImageFile endImageFile prompt initial in
  (forall url,
      fst run = Returned url ->
      exists n,
        progressOf (trace (snd run)) =
        [preparing; initiating; inProgress] ++ map checkingStatus (seq 1 n) ++ [finalizing]
        /\ List.length (refetchesOf (trace (snd run))) = n
        /\ map Attempt.attemptOf (progressOf (trace (snd run))) =
           [None; None; None] ++ map Some (seq 1 n) ++ [None])
  /\
  (forall d1 d2 op0 N operation,
      Js.truthy (API_KEY env) = true ->
      readerSettlement env startImageFile = Some (Resolved d1) ->
      readerSettlement env endImageFile = Some (Resolved d2) ->
      generateVideos env (videoRequest startImageFile endImageFile prompt d1 d2)
      = Resolved op0 ->
      stillRunning env 0 (Resolved op0) N = true ->
      snapshot env 0 (Resolved op0) N = Resolved operation ->
      isDone operation = true ->
      Js.truthy (downloadLinkOf operation) = true ->
      N <= rounds ->
      (exists url, fst run = Returned url)
      /\ progressOf (trace (snd run)) =
         [preparing; initiating; inProgress] ++ map checkingStatus (seq 1 N) ++ [finalizing]
      /\ map Attempt.attemptOf (progressOf (trace (snd run))) =
         [None; None; None] ++ map Some (seq 1 N) ++ [None])
  /\
  (forall k,
      Attempt.attemptOf (checkingStatus k) = Some k)
  /\ checkingStatus 1 = "Checking status (attempt 1)... Please be patient."
  /\ checkingStatus 10 = "Checking status (attempt 10)... Please be patient."
  /\ [preparing; initiating; inProgress; finalizing] =
     ["Preparing images for video generation...";
      "Initiating video generation with Veo model...";
      "Video generation in progress... This may take a few minutes.";
      "Finalizing video..."].
Proof.
  intros run.
  assert (forall n,
             map Attempt.attemptOf
                 ([preparing; initiating; inProgress]
                    ++ map checkingStatus (seq 1 n) ++ [finalizing])
             = [None; None; None] ++ map Some (seq 1 n) ++ [None]) as Hattempts.
  { intros n. rewrite !map_app, AttemptFacts.attemptOf_attempts. reflexivity. }
  split; [|split; [|split; [exact AttemptFacts.attemptOf_checkingStatus|repeat split]]].
  - intros url Hret.
    destruct (returned_progress env rounds startImageFile endImageFile prompt url (snd run))
      as [n [Hp Hf]].
    { subst run. rewrite <- Hret. apply surjective_pairing. }
    exists n. split; [exact Hp|]. split; [exact Hf|].
    rewrite Hp. apply Hattempts.
  - intros d1 d2 op0 N operation Hkey Hstart Hend Hsub Hrun Hsnap Hdone Hlink Hle.
    subst run.
    rewrite (generateVideo_done env startImageFile endImageFile prompt d1 d2
               Hkey Hstart Hend op0 Hsub N rounds operation Hrun Hsnap Hdone Hle).
    rewrite Hlink. cbn [fst snd trace].
    assert (progressOf
              (jobEvents env startImageFile endImageFile prompt d1 d2 op0 N
                 ++ [Progress finalizing])
            = [preparing; initiating; inProgress]
                ++ map checkingStatus (seq 1 N) ++ [finalizing]) as Hp.
    { rewrite progressOf_app, progressOf_jobEvents by assumption.
      rewrite <- app_assoc. reflexivity. }
    split; [eexists; reflexivity|]. split; [exact Hp|].
    rewrite Hp. apply Hattempts.
Qed.

Lemma generateVideo_progress_order_witness :
  let run := generateVideo sunrise 5 frameA frameB "sunrise time-lapse" initial in
  (exists n,
      progressOf (trace (snd run)) =
      [preparing; initiating; inProgress] ++ map checkingStatus (seq 1 n) ++ [finalizing]
      /\ List.length (refetchesOf (trace (snd run))) = n
      /\ map Attempt.attemptOf (progressOf (trace (snd run))) =
         [None; None; None] ++ map Some (seq 1 n) ++ [None])
  /\ (exists url, fst run = Returned url).
Proof.
  split.
  - apply (proj1 (generateVideo_progress_order sunrise 5 frameA frameB
                    "sunrise time-lapse")
                 "https://example/video123&key=secret").
    reflexivity.
  - apply (proj1 (proj1 (proj2 (generateVideo_progress_order sunrise 5 frameA frameB
                                  "sunrise time-lapse"))
                        (Some (Base64.encode (fileBytes frameA)))
                        (Some (Base64.encode (fileBytes frameB)))
                        (videoJob false None) 2
                        (videoJob true (Some "https://example/video123"))
                        eq_refl eq_refl eq_refl eq_refl eq_refl eq_refl eq_refl eq_refl
                        (le_S _ _ (le_S _ _ (le_S _ _ (le_n 2)))))).
Defined.

(** C3, as the code has it.  The submission's snapshot and the answer to
    the first status request are not done, the answer to the second is
    done and carries the URI [U]: [generateVideo] returns [U], ["&key="]
    and the credential (the one configured credential: the variable
    holds it at the call and still when the result is built), and emits
    exactly two checking-status messages, with the texts of attempt 1
    and attempt 2. *)
Theorem scenario_two_status_requests
        (env : Env) (rounds : nat) (startImageFile endImageFile : File) (prompt : string)
        (d1 d2 : option string) (op0 op1 op2 : Operation) (U credential : string) :
  API_KEY env = Some credential ->
  API_KEY_later env 2 = Some credential ->
  credential <> EmptyString ->
  readerSettlement env startImageFile = Some (Resolved d1) ->
  readerSettlement env endImageFile = Some (Resolved d2) ->
  generateVideos env (videoRequest startImageFile endImageFile prompt d1 d2) = Resolved op0 ->
  isDone op0 = false ->
  getVideosOperation env 0 op0 = Resolved op1 ->
  isDone op1 = false ->
  getVideosOperation env 1 op1 = Resolved op2 ->
  isDone op2 = true ->
  downloadLinkOf op2 = Some U ->
  U <> EmptyString ->
  2 <= rounds ->
  let run := generateVideo env rounds startImageFile endImageFile prompt initial in
  fst run = Returned (U ++ "&key=" ++ credential)%string
  /\ checkingOf (trace (snd run)) =
     ["Checking status (attempt 1)... Please be patient.";
      "Checking status (attempt 2)... Please be patient."]
  /\ progressOf (trace (snd run)) =
     ["Preparing images for video generation...";
      "Initiating video generation with Veo model...";
      "Video generation in progress... This may take a few minutes.";
      "Checking status (attempt 1)... Please be patient.";
      "Checking status (attempt 2)... Please be patient.";
      "Finalizing video..."]
  /\ map Attempt.attemptOf (checkingOf (trace (snd run))) = [Some 1; Some 2]
  /\ List.length (refetchesOf (trace (snd run))) = 2.
Proof.
  intros Hkey Hlater Hcred Hstart Hend Hsub H0 Hp1 H1 Hp2 H2 Hlink HU Hrounds run.
  assert (Js.truthy (API_KEY env) = true) as Htruthy
      by (rewrite Hkey; destruct credential; [congruence|reflexivity]).
  assert (stillRunning env 0 (Resolved op0) 2 = true) as Hrun
      by (simpl; rewrite H0; simpl; rewrite Hp1, H1; reflexivity).
  assert (snapshot env 0 (Resolved op0) 2 = Resolved op2) as Hsnap
      by (simpl; rewrite Hp1; exact Hp2).
  subst run.
  rewrite (generateVideo_done env startImageFile endImageFile prompt d1 d2
             Htruthy Hstart Hend op0 Hsub 2 rounds op2 Hrun Hsnap H2 Hrounds).
  cbn [fst snd trace].
  rewrite Hlink, Hlater.
  assert (Js.truthy (Some U) = true) as ->
      by (destruct U; [congruence|reflexivity]).
  rewrite refetchesOf_app, length_app, refetchesOf_jobEvents,
    (pollEvents_refetches_length env 0 (Resolved op0) 0 2 Hrun).
  unfold jobEvents, checkingOf. rewrite !progressOf_app.
  rewrite pollEvents_progress by assumption.
  repeat split.
Qed.

Lemma scenario_two_status_requests_witness :
  let run := generateVideo sunrise 5 frameA frameB "sunrise time-lapse" initial in
  fst run = Returned "https://example/video123&key=secret"
  /\ checkingOf (trace (snd run)) =
     ["Checking status (attempt 1)... Please be patient.";
      "Checking status (attempt 2)... Please be patient."]
  /\ progressOf (trace (snd run)) =
     ["Preparing images for video generation...";
      "Initiating video generation with Veo model...";
      "Video generation in progress... This may take a few minutes.";
      "Checking status (attempt 1)... Please be patient.";
      "Checking status (attempt 2)... Please be patient.";
      "Finalizing video..."]
  /\ map Attempt.attemptOf (checkingOf (trace (snd run))) = [Some 1; Some 2]
  /\ List.length (refetchesOf (trace (snd run))) = 2.
Proof.
  apply (scenario_two_status_requests
           sunrise 5 frameA frameB "sunrise time-lapse"
           (Some (Base64.encode (fileBytes frameA)))
           (Some (Base64.encode (fileBytes frameB)))
           (videoJob false None) (videoJob false None)
           (videoJob true (Some "https://example/video123"))
           "https://example/video123" "secret");
    first [reflexivity | discriminate | lia].
Defined.

(** C3, as stated, fails.  After the submission's snapshot the service
    reports done = false twice and then done = true with the URI: the
    run returns the URI with the key, but emits three checking-status
    messages, those of attempts 1, 2 and 3, not two. *)
Lemma scenario_two_reports_after_submission_counterexample :
  let env :=
    scripted (Some "secret") (Rejected (ServiceError "unavailable"))
             (Resolved (videoJob false None))
             [Resolved (videoJob false None);
              Resolved (videoJob false None);
              Resolved (videoJob true (Some "https://example/video123"))] in
  let run := generateVideo env 5 frameA frameB "sunrise time-lapse" initial in
  map (fun k => getVideosOperation env k (videoJob false None)) [0; 1; 2] =
  [Resolved (videoJob false None);
   Resolved (videoJob false None);
   Resolved (videoJob true (Some "https://example/video123"))]
  /\ fst run = Returned "https://example/video123&key=secret"
  /\ checkingOf (trace (snd run)) =
     ["Checking status (attempt 1)... Please be patient.";
      "Checking status (attempt 2)... Please be patient.";
      "Checking status (attempt 3)... Please be patient."]
  /\ checkingOf (trace (snd run)) <>
     ["Checking status (attempt 1)... Please be patient.";
      "Checking status (attempt 2)... Please be patient."].
Proof.
  repeat split. discriminate.
Qed.

(** C6. The job is done at some snapshot that carries no usable video
    URI (no response, no generated video, no URI, or an empty one):
    [generateVideo] fails with the no-download-link error, and the
    finalizing message is the last thing it did before failing. *)
Theorem done_without_link_fails_after_finalizing
        (env : Env) (rounds : nat) (startImageFile endImageFile : File) (prompt : string)
        (d1 d2 : option string) (op0 : Operation) (N : nat) (operation : Operation) :
  Js.truthy (API_KEY env) = true ->
  readerSettlement env startImageFile = Some (Resolved d1) ->
  readerSettlement env endImageFile = Some (Resolved d2) ->
  generateVideos env (videoRequest startImageFile endImageFile prompt d1 d2) = Resolved op0 ->
  stillRunning env 0 (Resolved op0) N = true ->
  snapshot env 0 (Resolved op0) N = Resolved operation ->
  isDone operation = true ->
  Js.truthy (downloadLinkOf operation) = false ->
  N <= rounds ->
  let run := generateVideo env rounds startImageFile endImageFile prompt initial in
  fst run = Threw noLinkError
  /\ trace (snd run) =
     jobEvents env startImageFile endImageFile prompt d1 d2 op0 N ++ [Progress finalizing]
  /\ last (progressOf (trace (snd run))) EmptyString = finalizing.
Proof.
  intros Hkey Hstart Hend Hsub Hrun Hsnap Hdone Hlink Hle run. subst run.
  rewrite (generateVideo_done env startImageFile endImageFile prompt d1 d2
             Hkey Hstart Hend op0 Hsub N rounds operation Hrun Hsnap Hdone Hle).
  rewrite Hlink. cbn [fst snd trace].
  repeat split.
  rewrite progressOf_app. apply last_last.
Qed.

Lemma done_without_link_fails_after_finalizing_witness :
  let run := generateVideo stalled 4 frameA frameB "sunrise time-lapse" initial in
  fst run = Threw noLinkError
  /\ trace (snd run) =
     jobEvents stalled frameA frameB "sunrise time-lapse"
               (Some (Base64.encode (fileBytes frameA)))
               (Some (Base64.encode (fileBytes frameB)))
               (videoJob false None) 1 ++ [Progress finalizing]
  /\ last (progressOf (trace (snd run))) EmptyString = finalizing.
Proof.
  apply (done_without_link_fails_after_finalizing
           stalled 4 frameA frameB "sunrise time-lapse"
           (Some (Base64.encode (fileBytes frameA)))
           (Some (Base64.encode (fileBytes frameB)))
           (videoJob false None) 1 (videoJob true None));
    first [reflexivity | lia].
Defined.

(** C7. A failing remote call ends the run with that failure, and the
    failing call is the last thing the run did: nothing is retried.  If
    the submission fails, the run did nothing after it; no status was
    requested and no checking-status message was emitted.  If the
    status request after snapshot [n] fails, the run made exactly
    [n + 1] status requests, the last event of its trace being the
    failing one. *)
Theorem remote_failure_propagates
        (env : Env) (rounds : nat) (startImageFile endImageFile : File) (prompt : string)
        (d1 d2 : option string) :
  Js.truthy (API_KEY env) = true ->
  readerSettlement env startImageFile = Some (Resolved d1) ->
  readerSettlement env endImageFile = Some (Resolved d2) ->
  let request := videoRequest startImageFile endImageFile prompt d1 d2 in
  let run := generateVideo env rounds startImageFile endImageFile prompt initial in
  (forall e,
      generateVideos env request = Rejected e ->
      fst run = Threw e
      /\ trace (snd run) = submissionEvents startImageFile endImageFile prompt d1 d2
      /\ last (trace (snd run)) (Progress EmptyString) = CallGenerateVideos request
      /\ checkingOf (trace (snd run)) = []
      /\ refetchesOf (trace (snd run)) = [])
  /\
  (forall op0 n o e,
      generateVideos env request = Resolved op0 ->
      stillRunning env 0 (Resolved op0) (S n) = true ->
      snapshot env 0 (Resolved op0) n = Resolved o ->
      getVideosOperation env n o = Rejected e ->
      n < rounds ->
      fst run = Threw e
      /\ last (trace (snd run)) (Progress EmptyString) = CallGetVideosOperation o
      /\ List.length (refetchesOf (trace (snd run))) = S n
      /\ List.length (checkingOf (trace (snd run))) = S n).
Proof.
  intros Hkey Hstart Hend request run. split.
  - intros e Hsub. subst run request.
    rewrite (generateVideo_rejected env startImageFile endImageFile prompt d1 d2
               Hkey Hstart Hend rounds e Hsub).
    cbn [fst snd trace]. repeat split.
  - intros op0 n o e Hsub Hrun Hsnap Hfail Hlt.
    assert (snapshot env 0 (Resolved op0) (S n) = Rejected e) as Hsnap'
        by (simpl; rewrite Hsnap; exact Hfail).
    subst run request.
    rewrite (generateVideo_poll_rejected env startImageFile endImageFile prompt d1 d2
               Hkey Hstart Hend op0 Hsub (S n) rounds e Hrun Hsnap' Hlt).
    cbn [fst snd trace].
    split; [reflexivity|]. split; [|split].
    + unfold jobEvents. cbn [pollEvents]. rewrite Hsnap.
      rewrite !app_assoc.
      change [Progress (checkingStatus (S (0 + n))); Timeout 10000%N;
              CallGetVideosOperation o]
        with ([Progress (checkingStatus (S (0 + n))); Timeout 10000%N]
              ++ [CallGetVideosOperation o]).
      rewrite app_assoc. apply last_last.
    + rewrite refetchesOf_jobEvents. now apply pollEvents_refetches_length.
    + unfold checkingOf. rewrite progressOf_jobEvents by assumption.
      rewrite filter_app. cbn [filter app]. cbn.
      rewrite forallb_filter_id; [now rewrite length_map, length_seq|].
      apply forallb_forall. intros m Hm. apply in_map_iff in Hm as [k [<- _]].
      reflexivity.
Qed.

Lemma remote_failure_propagates_witness :
  (let run := generateVideo refused 4 frameA frameB "sunrise time-lapse" initial in
   fst run = Threw (ServiceError "quota exceeded")
   /\ checkingOf (trace (snd run)) = []
   /\ refetchesOf (trace (snd run)) = [])
  /\
  (let run := generateVideo interrupted 4 frameA frameB "sunrise time-lapse" initial in
   fst run = Threw (ServiceError "network down")
   /\ last (trace (snd run)) (Progress EmptyString)
      = CallGetVideosOperation (videoJob false None)
   /\ List.length (refetchesOf (trace (snd run))) = 2
   /\ List.length (checkingOf (trace (snd run))) = 2).
Proof.
  split.
  - destruct (proj1
                (remote_failure_propagates
                   refused 4 frameA frameB "sunrise time-lapse"
                   (Some (Base64.encode (fileBytes frameA)))
                   (Some (Base64.encode (fileBytes frameB)))
                   eq_refl eq_refl eq_refl)
                (ServiceError "quota exceeded") eq_refl)
      as [Hthrow [_ [_ [Hchecking Hrefetch]]]].
    exact (conj Hthrow (conj Hchecking Hrefetch)).
  - apply (proj2
             (remote_failure_propagates
                interrupted 4 frameA frameB "sunrise time-lapse"
                (Some (Base64.encode (fileBytes frameA)))
                (Some (Base64.encode (fileBytes frameB)))
                eq_refl eq_refl eq_refl)
             (videoJob false None) 1 (videoJob false None)
             (ServiceError "network down"));
      first [reflexivity | lia].
Defined.

(* ================================================================= *)
(** ** Facts about trimming *)

Module JsTextFacts.
Import JsText.

Lemma trimEnd_empty (s : string) : trimEnd s = EmptyString <-> allWhite s = true.
Proof.
  induction s as [|c rest IH]; simpl; [tauto|].
  destruct (trimEnd rest) as [|d kept] eqn:Hrest.
  - destruct (isWhiteSpace c); simpl.
    + rewrite <- IH. tauto.
    + split; discriminate.
  - split; [discriminate|].
    intros H. apply andb_prop in H as [_ H]. apply IH in H. discriminate.
Qed.

Lemma trimStart_empty (s : string) : trimStart s = EmptyString <-> allWhite s = true.
Proof.
  induction s as [|c rest IH]; simpl; [tauto|].
  destruct (isWhiteSpace c); simpl; [exact IH|].
  split; discriminate.
Qed.

Lemma allWhite_trimStart (s : string) : allWhite (trimStart s) = allWhite s.
Proof.
  induction s as [|c rest IH]; simpl; [reflexivity|].
  destruct (isWhiteSpace c) eqn:Hc; simpl; [exact IH|].
  now rewrite Hc.
Qed.

(** A text is blank exactly when all its characters are white space. *)
Lemma blank_allWhite (s : string) : blank s = allWhite s.
Proof.
  unfold blank, trim.
  destruct (allWhite s) eqn:Hs.
  - assert (trimEnd (trimStart s) = EmptyString) as ->; [|reflexivity].
    apply trimEnd_empty. now rewrite allWhite_trimStart.
  - destruct (trimEnd (trimStart s)) eqn:Ht; [|reflexivity].
    apply trimEnd_empty in Ht. rewrite allWhite_trimStart in Ht. congruence.
Qed.

Lemma allWhite_app (s1 s2 : string) :
  allWhite (s1 ++ s2)%string = allWhite s1 && allWhite s2.
Proof.
  induction s1 as [|c rest IH]; simpl; [reflexivity|].
  now rewrite IH, andb_assoc.
Qed.

Lemma lastChar_app (s1 s2 : string) :
  s2 <> EmptyString -> lastChar (s1 ++ s2)%string = lastChar s2.
Proof.
  intros Hne. induction s1 as [|c rest IH]; simpl; [reflexivity|].
  destruct (rest ++ s2)%string eqn:Happ; [|exact IH].
  destruct rest; simpl in Happ; [congruence|discriminate].
Qed.

Lemma firstChar_app (s1 s2 : string) :
  s1 <> EmptyString -> firstChar (s1 ++ s2)%string = firstChar s1.
Proof. destruct s1; [congruence|reflexivity]. Qed.

Lemma trimStart_fixed (s : string) (a : ascii) :
  firstChar s = Some a -> isWhiteSpace a = false -> trimStart s = s.
Proof.
  destruct s as [|c rest]; simpl; [discriminate|].
  intros H Ha. inversion H; subst. now rewrite Ha.
Qed.

Lemma trimEnd_fixed (s : string) (b : ascii) :
  lastChar s = Some b -> isWhiteSpace b = false -> trimEnd s = s.
Proof.
  induction s as [|c rest IH]; [discriminate|].
  intros H Hb. cbn [trimEnd].
  destruct rest as [|d rest'].
  - simpl in *. inversion H; subst. now rewrite Hb.
  - rewrite IH by assumption. reflexivity.
Qed.

Lemma endsWith_last (s : string) (b c : ascii) :
  lastChar s = Some b -> endsWith s (String c EmptyString) = Ascii.eqb b c.
Proof.
  induction s as [|d rest IH]; [discriminate|].
  intros H. cbn [endsWith].
  destruct rest as [|d' rest'].
  - simpl in H. inversion H; subst. cbn [endsWith String.eqb].
    now destruct (Ascii.eqb b c).
  - rewrite IH by assumption.
    assert ((String d (String d' rest') =? String c EmptyString)%string = false) as ->.
    { apply String.eqb_neq. congruence. }
    reflexivity.
Qed.

Section Tidy.

Variable s : string.
Hypothesis Htidy : tidy s = true.

Lemma tidy_ends : exists a b,
    firstChar s = Some a /\ lastChar s = Some b /\
    isWhiteSpace a = false /\ isWhiteSpace b = false /\ Ascii.eqb b "," = false.
Proof using Htidy.
  unfold tidy in Htidy.
  destruct (firstChar s) as [a|]; [|discriminate].
  destruct (lastChar s) as [b|]; [|discriminate].
  apply andb_prop in Htidy as [H Hc]. apply andb_prop in H as [Ha Hb].
  exists a, b. repeat split; now apply negb_true_iff.
Qed.

Lemma tidy_trim : trim s = s.
Proof using Htidy.
  destruct tidy_ends as [a [b [Ha [Hb [Hwa [Hwb _]]]]]].
  unfold trim. rewrite (trimStart_fixed s a Ha Hwa). exact (trimEnd_fixed s b Hb Hwb).
Qed.

Lemma tidy_not_empty : s <> EmptyString.
Proof using Htidy.
  destruct tidy_ends as [a [b [Ha _]]]. intros ->. discriminate.
Qed.

Lemma tidy_not_blank : blank s = false.
Proof using Htidy.
  unfold blank. rewrite tidy_trim.
  pose proof tidy_not_empty. destruct s; [congruence|reflexivity].
Qed.

Lemma tidy_no_comma : endsWith s "," = false.
Proof using Htidy.
  destruct tidy_ends as [a [b [_ [Hb [_ [_ Hc]]]]]].
  now rewrite (endsWith_last s b ","%char Hb).
Qed.

End Tidy.

Lemma tidy_join (s1 s2 : string) :
  tidy s1 = true -> tidy s2 = true -> tidy (s1 ++ ", " ++ s2)%string = true.
Proof.
  intros H1 H2.
  destruct (tidy_ends s1 H1) as [a [_ [Ha [_ [Hwa _]]]]].
  destruct (tidy_ends s2 H2) as [_ [b [_ [Hb [_ [Hwb Hc]]]]]].
  unfold tidy.
  rewrite firstChar_app by (now apply tidy_not_empty).
  rewrite lastChar_app by discriminate.
  change (", " ++ s2)%string with (String "," (String " " s2)).
  assert (s2 <> EmptyString) as Hne by (now apply tidy_not_empty).
  assert (lastChar (String "," (String " " s2)) = lastChar s2) as ->.
  { destruct s2; [congruence|reflexivity]. }
  now rewrite Ha, Hb, Hwa, Hwb, Hc.
Qed.

End JsTextFacts.

(* ================================================================= *)
(** ** The lighting tools of the image editor *)

Lemma lighting_prompt_after (s : ImageEditor.State) (ps : list string) :
  ImageEditor.prompt
    (ImageEditor.after s (flat_map ImageEditor.handleLightingClick ps)) =
  fold_left (fun prev p => ImageEditor.lightingUpdate p prev) ps (ImageEditor.prompt s).
Proof.
  revert s. induction ps as [|p ps IH]; intros s; [reflexivity|].
  cbn [flat_map ImageEditor.handleLightingClick app].
  unfold ImageEditor.after in *. cbn [fold_left].
  rewrite IH. reflexivity.
Qed.

Lemma lightingUpdate_tidy (p prev : string) :
  JsText.tidy prev = true ->
  ImageEditor.lightingUpdate p prev = (prev ++ ", " ++ p)%string.
Proof.
  intros H. unfold ImageEditor.lightingUpdate.
  rewrite (JsTextFacts.tidy_not_blank prev H), (JsTextFacts.tidy_no_comma prev H).
  now rewrite (JsTextFacts.tidy_trim prev H).
Qed.

Lemma lighting_fold_tidy (ps : list string) :
  forall prev,
    JsText.tidy prev = true ->
    Forall (fun q => JsText.tidy q = true) ps ->
    fold_left (fun prev p => ImageEditor.lightingUpdate p prev) ps prev =
    String.concat ", " (prev :: ps).
Proof.
  induction ps as [|p ps IH]; intros prev Hprev Hps; [reflexivity|].
  inversion Hps as [|? ? Hp Hps']; subst.
  cbn [fold_left]. rewrite lightingUpdate_tidy by assumption.
  rewrite IH by (try apply JsTextFacts.tidy_join; assumption).
  cbn [String.concat].
  destruct ps as [|q ps]; [reflexivity|].
  now rewrite <- !JsFacts.append_assoc.
Qed.

(** X1. Starting from a blank prompt, clicking lighting tools one after
    the other leaves the prompt as the tools' prompts joined by a comma
    and a space, for prompts that are tidy (not empty, no white space
    at either end, no comma at the end); the six prompts of
    [lightingTools] are. *)
Theorem lighting_clicks_join (s : ImageEditor.State) (p : string) (ps : list string) :
  JsText.blank (ImageEditor.prompt s) = true ->
  Forall (fun q => JsText.tidy q = true) (p :: ps) ->
  ImageEditor.prompt
    (ImageEditor.after s (flat_map ImageEditor.handleLightingClick (p :: ps)))
  = String.concat ", " (p :: ps)
  /\ Forall (fun tool => JsText.tidy (snd tool) = true) ImageEditor.lightingTools.
Proof.
  intros Hblank Hps. split.
  - rewrite lighting_prompt_after. cbn [fold_left].
    inversion Hps as [|? ? Hp Hps']; subst.
    unfold ImageEditor.lightingUpdate at 2. rewrite Hblank.
    now apply lighting_fold_tidy.
  - repeat constructor.
Qed.

Lemma lighting_clicks_join_witness :
  ImageEditor.prompt
    (ImageEditor.after ImageEditor.mounted
       (flat_map ImageEditor.handleLightingClick
                 ["relight with professional studio lighting";
                  "add dramatic, high-contrast lighting"]))
  = "relight with professional studio lighting, add dramatic, high-contrast lighting".
Proof.
  apply (fun blank tidy =>
           proj1 (lighting_clicks_join
                    ImageEditor.mounted
                    "relight with professional studio lighting"
                    ["add dramatic, high-contrast lighting"]
                    blank tidy)).
  - reflexivity.
  - repeat constructor.
Defined.

(** X2. Whatever the prompt was, after a click on a lighting tool the
    prompt ends with the tool's prompt; it is the tool's prompt alone
    when the prompt was blank; and it is not blank when the tool's
    prompt is not, so that the prompt no longer disables the Generate
    button. *)
Theorem lighting_click_keeps_tool_prompt (lightingPrompt prev : string) :
  (exists kept, ImageEditor.lightingUpdate lightingPrompt prev
                = (kept ++ lightingPrompt)%string)
  /\ (JsText.blank prev = true ->
      ImageEditor.lightingUpdate lightingPrompt prev = lightingPrompt)
  /\ (JsText.blank lightingPrompt = false ->
      JsText.blank (ImageEditor.lightingUpdate lightingPrompt prev) = false).
Proof.
  unfold ImageEditor.lightingUpdate. repeat split.
  - destruct (JsText.blank prev); [now exists EmptyString|].
    destruct (JsText.endsWith prev ",").
    + exists (prev ++ " ")%string. now rewrite <- JsFacts.append_assoc.
    + exists (JsText.trim prev ++ ", ")%string. now rewrite <- JsFacts.append_assoc.
  - now intros ->.
  - intros Hp.
    destruct (JsText.blank prev); [assumption|].
    rewrite JsTextFacts.blank_allWhite in Hp.
    destruct (JsText.endsWith prev ",");
      rewrite JsTextFacts.blank_allWhite, !JsTextFacts.allWhite_app, Hp;
      now rewrite !andb_false_r.
Qed.

Lemma trimEnd_white (s ws : string) :
  JsText.allWhite ws = true -> JsText.trimEnd (s ++ ws)%string = JsText.trimEnd s.
Proof.
  intros Hws. induction s as [|c rest IH]; simpl.
  - now apply JsTextFacts.trimEnd_empty.
  - now rewrite IH.
Qed.

Lemma lastChar_white (ws : string) :
  JsText.allWhite ws = true -> ws <> EmptyString ->
  exists b, JsText.lastChar ws = Some b /\ JsText.isWhiteSpace b = true.
Proof.
  induction ws as [|c rest IH]; [congruence|].
  intros H _. simpl in H. apply andb_prop in H as [Hc Hrest].
  destruct rest as [|d rest'].
  - exists c. now split.
  - destruct (IH Hrest) as [b [Hb Hw]]; [discriminate|].
    exists b. now split.
Qed.

(** X3. A prompt that ends with a comma followed by white space is not
    recognised as ending with a comma: the click trims it and adds its
    own comma, so the new prompt has two commas in a row. *)
Theorem lighting_click_doubles_comma (body ws lightingPrompt : string) (a : ascii) :
  JsText.firstChar body = Some a ->
  JsText.isWhiteSpace a = false ->
  JsText.allWhite ws = true ->
  ws <> EmptyString ->
  ImageEditor.lightingUpdate lightingPrompt (body ++ "," ++ ws)
  = (body ++ ",, " ++ lightingPrompt)%string.
Proof.
  intros Ha Hwa Hws Hne.
  unfold ImageEditor.lightingUpdate.
  assert (JsText.trim (body ++ "," ++ ws) = (body ++ ",")%string) as Htrim.
  { unfold JsText.trim.
    rewrite (JsTextFacts.trimStart_fixed (body ++ "," ++ ws) a)
      by (try rewrite JsTextFacts.firstChar_app; try assumption;
          intros ->; discriminate).
    rewrite JsFacts.append_assoc, trimEnd_white by assumption.
    apply (JsTextFacts.trimEnd_fixed _ ","%char); [|reflexivity].
    now rewrite JsTextFacts.lastChar_app by discriminate. }
  assert (JsText.blank (body ++ "," ++ ws) = false) as ->.
  { unfold JsText.blank. rewrite Htrim. destruct body; [discriminate|reflexivity]. }
  assert (JsText.endsWith (body ++ "," ++ ws) "," = false) as ->.
  { destruct (lastChar_white ws Hws Hne) as [b [Hb Hw]].
    rewrite (JsTextFacts.endsWith_last _ b).
    - destruct (Ascii.eqb_spec b ","%char) as [->|]; [discriminate|reflexivity].
    - rewrite JsFacts.append_assoc. now rewrite JsTextFacts.lastChar_app. }
  rewrite Htrim. now rewrite <- !JsFacts.append_assoc.
Qed.

Lemma lighting_click_doubles_comma_witness :
  ImageEditor.lightingUpdate "add dramatic, high-contrast lighting" "make it red, "
  = "make it red,, add dramatic, high-contrast lighting".
Proof.
  apply (lighting_click_doubles_comma "make it red" " "
           "add dramatic, high-contrast lighting" "m"%char);
    first [reflexivity | discriminate].
Defined.

(* ================================================================= *)
(** ** More about the service module *)

Lemma readerSettlement_dataURL (env : Env) (file : File) (header : string) :
  Js.occurs ","%char header = false ->
  readAsDataURL env file =
  Loaded (ResultString (header ++ String ","%char (Base64.encode (fileBytes file)))) ->
  readerSettlement env file = Some (Resolved (Some (Base64.encode (fileBytes file)))).
Proof.
  intros Hheader Hread.
  rewrite readerSettlement_cases, Hread, JsFacts.split_field1.
  rewrite JsFacts.after_app by assumption. cbn [option_map].
  now rewrite JsFacts.before_absent by apply Base64Facts.encode_no_comma.
Qed.

(** The reader's promise always settles. *)
Lemma readerSettlement_settles (env : Env) (file : File) :
  readerSettlement env file <> None.
Proof.
  rewrite readerSettlement_cases.
  destruct (readAsDataURL env file) as [[s|b|]|detail]; discriminate.
Qed.

Lemma refetchesOf_iterations (c : nat) (ops : list Operation) :
  refetchesOf (iterations c ops) = ops.
Proof.
  revert c. induction ops as [|o ops IH]; intros c; [reflexivity|].
  cbn [iterations]. rewrite refetchesOf_app, IH. reflexivity.
Qed.

Lemma pacingOf_iterations (c : nat) (ops : list Operation) :
  pacingOf (iterations c ops) =
  flat_map (fun o => [Timeout 10000%N; CallGetVideosOperation o]) ops.
Proof.
  revert c. induction ops as [|o ops IH]; intros c; [reflexivity|].
  cbn [iterations flat_map]. unfold pacingOf in *. rewrite filter_app, IH. reflexivity.
Qed.

Lemma remoteCallsOf_iterations (c : nat) (ops : list Operation) :
  remoteCallsOf (iterations c ops) = map CallGetVideosOperation ops.
Proof.
  revert c. induction ops as [|o ops IH]; intros c; [reflexivity|].
  cbn [iterations map]. unfold remoteCallsOf in *. rewrite filter_app, IH. reflexivity.
Qed.

Lemma progressOf_iterations (c : nat) (ops : list Operation) :
  progressOf (iterations c ops) = map checkingStatus (seq (S c) (List.length ops)).
Proof.
  revert c. induction ops as [|o ops IH]; intros c; [reflexivity|].
  cbn [iterations]. rewrite progressOf_app, IH. reflexivity.
Qed.

(** Whatever the service does, the loop appends whole iterations. *)
Lemma pollLoop_iterations (env : Env) (ai : GoogleGenAI) (rounds : nat) :
  forall (o : Operation) (c : nat) (w : World),
  exists ops,
    trace (snd (pollLoop env ai rounds o c w)) = trace w ++ iterations c ops
    /\ (forall o', fst (pollLoop env ai rounds o c w) = Returned o' -> isDone o' = true).
Proof.
  induction rounds as [|rounds IH]; intros o c w.
  - exists []. cbn [pollLoop iterations].
    destruct (isDone o) eqn:Hd; simpl; rewrite app_nil_r;
      split; try reflexivity; intros o' H; inversion H; subst; assumption.
  - destruct (isDone o) eqn:Hd.
    + exists []. rewrite pollLoop_done by assumption. simpl. rewrite app_nil_r.
      split; [reflexivity|]. intros o' H; inversion H; subst; assumption.
    + rewrite pollLoop_step by assumption. unfold bind.
      set (w1 := later w _ 1).
      destruct (getVideosOperation env (fetched w) o) as [o1|e]; cbn [await].
      * unfold ret.
        destruct (IH o1 (S c) w1) as [ops [Ht Hr]].
        exists (o :: ops). rewrite Ht. subst w1. unfold later. cbn [trace iterations].
        rewrite <- app_assoc. split; [reflexivity|exact Hr].
      * exists [o]. unfold throw. cbn [snd fst iterations]. subst w1.
        unfold later. cbn [trace]. rewrite app_nil_r.
        split; [reflexivity|]. intros o' H; discriminate.
Qed.

(** The trace of any run of [generateVideo]: what precedes the loop,
    whole iterations of the loop, what follows it. *)
Lemma generateVideo_anatomy
      (env : Env) (rounds : nat) (startImageFile endImageFile : File) (prompt : string) :
  exists head ops tail,
    trace (snd (generateVideo env rounds startImageFile endImageFile prompt initial))
    = head ++ iterations 0 ops ++ tail
    /\ pacingOf head = [] /\ refetchesOf head = []
    /\ pacingOf tail = [] /\ refetchesOf tail = [] /\ remoteCallsOf tail = []
    /\ (remoteCallsOf head = [] /\ ops = []
        \/ exists request, remoteCallsOf head = [CallGenerateVideos request]).
Proof.
  rewrite generateVideo_run.
  destruct (API_KEY env) as [key|];
    [|exists [], [], []; repeat split; left; split; reflexivity].
  destruct (negb (Js.truthy (Some key)));
    [exists [], [], []; repeat split; left; split; reflexivity|].
  destruct (readerSettlement env startImageFile) as [[d1|e]|];
    [|exists [Progress preparing; ReadFile startImageFile], [], [];
      repeat split; left; split; reflexivity..].
  destruct (readerSettlement env endImageFile) as [[d2|e]|];
    [|exists [Progress preparing; ReadFile startImageFile; ReadFile endImageFile], [], [];
      repeat split; left; split; reflexivity..].
  destruct (generateVideos env _) as [op0|e].
  - unfold bind.
    set (w0 := later initial _ 0).
    destruct (pollLoop_iterations env {| apiKey := key |} rounds op0 0 w0) as [ops [Ht _]].
    destruct (pollLoop env {| apiKey := key |} rounds op0 0 w0) as [[o|e|] w1];
      cbn [snd] in Ht; rewrite ?finalize_run; cbn [snd];
      [exists (trace w0), ops, [Progress finalizing]
      |exists (trace w0), ops, [] | exists (trace w0), ops, []];
      unfold later; cbn [trace]; rewrite ?Ht, ?app_nil_r, <- ?app_assoc;
      repeat split; right; eexists; reflexivity.
  - exists (submissionEvents startImageFile endImageFile prompt d1 d2), [], [].
    repeat split. right. eexists. reflexivity.
Qed.

(** X4. In every run of [generateVideo], whatever the environment does
    and however long the run is followed, each status request comes
    directly after a timer of ten seconds: among the timers and status
    requests of the trace, timers and requests alternate, one timer
    before each request. *)
Theorem status_requests_are_paced
        (env : Env) (rounds : nat) (startImageFile endImageFile : File) (prompt : string) :
  let t := trace (snd (generateVideo env rounds startImageFile endImageFile prompt initial)) in
  pacingOf t =
  flat_map (fun o => [Timeout 10000%N; CallGetVideosOperation o]) (refetchesOf t).
Proof.
  intros t. subst t.
  destruct (generateVideo_anatomy env rounds startImageFile endImageFile prompt)
    as [head [ops [tail [-> [Hph [Hrh [Hpt [Hrt _]]]]]]]].
  rewrite !refetchesOf_app, Hrh, Hrt, refetchesOf_iterations, app_nil_r.
  unfold pacingOf in *. rewrite !filter_app, Hph, Hpt, app_nil_r.
  apply pacingOf_iterations.
Qed.

(** X5. In every run of [generateVideo] the remote calls are none at
    all, or one job submission followed by the status requests: the job
    is never submitted twice, no status is requested before the
    submission, and the content-generation call is never made. *)
Theorem job_submitted_at_most_once
        (env : Env) (rounds : nat) (startImageFile endImageFile : File) (prompt : string) :
  let t := trace (snd (generateVideo env rounds startImageFile endImageFile prompt initial)) in
  (remoteCallsOf t = [] /\ refetchesOf t = [])
  \/ exists request,
      remoteCallsOf t = CallGenerateVideos request :: map CallGetVideosOperation (refetchesOf t).
Proof.
  intros t. subst t.
  destruct (generateVideo_anatomy env rounds startImageFile endImageFile prompt)
    as [head [ops [tail [-> [_ [Hrh [_ [Hrt [Hct Hhead]]]]]]]]].
  rewrite !refetchesOf_app, Hrh, Hrt, refetchesOf_iterations, app_nil_r.
  unfold remoteCallsOf in *. rewrite !filter_app, Hct, app_nil_r.
  fold (remoteCallsOf (iterations 0 ops)). rewrite remoteCallsOf_iterations.
  destruct Hhead as [[Hh ->]|[request Hh]]; rewrite Hh.
  - left. split; reflexivity.
  - right. exists request. reflexivity.
Qed.

(** While the job is running the snapshots go on; either they do so
    for more than [rounds] of them, or there is a first one, among the
    first [rounds], at which they stop. *)
Lemma first_stop (env : Env) (k0 : nat) (first : Settled Operation) (rounds : nat) :
  stillRunning env k0 first (S rounds) = true
  \/ exists N, N <= rounds
               /\ stillRunning env k0 first N = true
               /\ stillRunning env k0 first (S N) = false.
Proof.
  induction rounds as [|rounds [IH|[N [Hle [Hrun Hstop]]]]].
  - destruct (stillRunning env k0 first 1) eqn:H1; [now left|].
    right. exists 0. split; [lia|]. split; [reflexivity|exact H1].
  - destruct (stillRunning env k0 first (S (S rounds))) eqn:H; [now left|].
    right. exists (S rounds). split; [lia|]. split; assumption.
  - right. exists N. split; [lia|]. split; assumption.
Qed.

(** X6. Every URL [generateVideo] returns is built from what the service
    reported and from the key as it is when the result is built.  The
    job was submitted with a key that is not empty; the loop ended at
    the first snapshot of the job that is done, the submission's or the
    answer to a status request of the run; the URL is the URI of that
    snapshot, not empty, followed by ["&key="] and by the value of
    [process.env.API_KEY] read again at that moment: the key if the
    variable holds one, the text ["undefined"] if it holds none any
    more.  The key is appended with [&] whatever the URI looks like. *)
Theorem returned_url_carries_key
        (env : Env) (rounds : nat) (startImageFile endImageFile : File) (prompt : string)
        (url : string) :
  fst (generateVideo env rounds startImageFile endImageFile prompt initial) = Returned url ->
  exists d1 d2 op0 N operation link key,
    API_KEY env = Some key /\ key <> EmptyString
    /\ readerSettlement env startImageFile = Some (Resolved d1)
    /\ readerSettlement env endImageFile = Some (Resolved d2)
    /\ generateVideos env (videoRequest startImageFile endImageFile prompt d1 d2)
       = Resolved op0
    /\ N <= rounds
    /\ stillRunning env 0 (Resolved op0) N = true
    /\ snapshot env 0 (Resolved op0) N = Resolved operation
    /\ isDone operation = true
    /\ downloadLinkOf operation = Some link /\ link <> EmptyString
    /\ url = (link ++ "&key="
                  ++ match API_KEY_later env N with
                     | Some later => later
                     | None => "undefined"
                     end)%string.
Proof.
  intros Hret. pose proof Hret as H. rewrite generateVideo_run in H.
  destruct (API_KEY env) as [key|] eqn:Hkey; [|discriminate].
  destruct (Js.truthy (Some key)) eqn:Htruthy; cbn [negb] in H; [|discriminate].
  destruct (readerSettlement env startImageFile) as [[d1|failure]|] eqn:Hstart;
    [|discriminate..].
  destruct (readerSettlement env endImageFile) as [[d2|failure]|] eqn:Hend;
    [|discriminate..].
  destruct (generateVideos env (videoRequest startImageFile endImageFile prompt d1 d2))
    as [op0|failure] eqn:Hsub; [|discriminate].
  clear H.
  assert (Js.truthy (API_KEY env) = true) as Hconfigured by (now rewrite Hkey).
  destruct (first_stop env 0 (Resolved op0) rounds)
    as [Hforever|[N [Hle [Hrun Hstop]]]].
  - rewrite (generateVideo_waiting env startImageFile endImageFile prompt d1 d2
               Hconfigured Hstart Hend op0 Hsub rounds Hforever) in Hret.
    discriminate.
  - cbn [stillRunning] in Hstop. rewrite Hrun in Hstop. cbn [andb] in Hstop.
    destruct (snapshot env 0 (Resolved op0) N) as [operation|failure] eqn:Hsnap.
    + apply negb_false_iff in Hstop.
      rewrite (generateVideo_done env startImageFile endImageFile prompt d1 d2
                 Hconfigured Hstart Hend op0 Hsub N rounds operation
                 Hrun Hsnap Hstop Hle) in Hret.
      cbn [fst] in Hret.
      destruct (downloadLinkOf operation) as [link|] eqn:Hlink; [|discriminate].
      destruct (Js.truthy (Some link)) eqn:Hl; [|discriminate].
      inversion Hret as [Hurl].
      exists d1, d2, op0, N, operation, link, key.
      repeat split; try assumption.
      * intros ->. discriminate.
      * intros ->. discriminate.
    + rewrite (generateVideo_poll_rejected env startImageFile endImageFile prompt d1 d2
                 Hconfigured Hstart Hend op0 Hsub N rounds failure Hrun Hsnap Hle) in Hret.
      discriminate.
Qed.

Lemma returned_url_carries_key_witness :
  (exists d1 d2 op0 N operation link key,
      API_KEY sunrise = Some key /\ key <> EmptyString
      /\ readerSettlement sunrise frameA = Some (Resolved d1)
      /\ readerSettlement sunrise frameB = Some (Resolved d2)
      /\ generateVideos sunrise (videoRequest frameA frameB "sunrise time-lapse" d1 d2)
         = Resolved op0
      /\ N <= 5
      /\ stillRunning sunrise 0 (Resolved op0) N = true
      /\ snapshot sunrise 0 (Resolved op0) N = Resolved operation
      /\ isDone operation = true
      /\ downloadLinkOf operation = Some link /\ link <> EmptyString
      /\ "https://example/video123&key=secret"
         = (link ++ "&key="
                 ++ match API_KEY_later sunrise N with
                    | Some later => later
                    | None => "undefined"
                    end)%string)
  /\ fst (generateVideo forgetful 5 frameA frameB "sunrise time-lapse" initial)
     = Returned "https://example/video123&key=undefined"
  /\ (exists d1 d2 op0 N operation link key,
         API_KEY forgetful = Some key /\ key <> EmptyString
         /\ readerSettlement forgetful frameA = Some (Resolved d1)
         /\ readerSettlement forgetful frameB = Some (Resolved d2)
         /\ generateVideos forgetful (videoRequest frameA frameB "sunrise time-lapse" d1 d2)
            = Resolved op0
         /\ N <= 5
         /\ stillRunning forgetful 0 (Resolved op0) N = true
         /\ snapshot forgetful 0 (Resolved op0) N = Resolved operation
         /\ isDone operation = true
         /\ downloadLinkOf operation = Some link /\ link <> EmptyString
         /\ "https://example/video123&key=undefined"
            = (link ++ "&key="
                    ++ match API_KEY_later forgetful N with
                       | Some later => later
                       | None => "undefined"
                       end)%string).
Proof.
  split; [|split; [reflexivity|]].
  - apply (returned_url_carries_key sunrise 5 frameA frameB "sunrise time-lapse").
    reflexivity.
  - apply (returned_url_carries_key forgetful 5 frameA frameB "sunrise time-lapse").
    reflexivity.
Defined.

(** X7. When a frame cannot be encoded, [generateVideo] fails with the
    reader's failure and does nothing more: after a failure on the
    start frame the end frame is not read, and after a failure on
    either frame nothing is submitted and no further progress is
    reported. *)
Theorem frame_failure_stops_run
        (env : Env) (rounds : nat) (startImageFile endImageFile : File) (prompt : string) :
  Js.truthy (API_KEY env) = true ->
  let run := generateVideo env rounds startImageFile endImageFile prompt initial in
  (forall e,
      readerSettlement env startImageFile = Some (Rejected e) ->
      fst run = Threw e
      /\ trace (snd run) = [Progress preparing; ReadFile startImageFile])
  /\
  (forall d1 e,
      readerSettlement env startImageFile = Some (Resolved d1) ->
      readerSettlement env endImageFile = Some (Rejected e) ->
      fst run = Threw e
      /\ trace (snd run) =
         [Progress preparing; ReadFile startImageFile; ReadFile endImageFile]).
Proof.
  intros Hkey run. subst run. rewrite generateVideo_run.
  destruct (API_KEY env) as [key|]; [|discriminate]. rewrite Hkey. cbn [negb].
  split.
  - intros e ->. split; reflexivity.
  - intros d1 e -> ->. split; reflexivity.
Qed.

Lemma frame_failure_stops_run_witness :
  (let run := generateVideo (unreadable "A.png") 3 frameA frameB "sunrise time-lapse"
                            initial in
   fst run = Threw (ReaderError "NotReadableError")
   /\ trace (snd run) = [Progress preparing; ReadFile frameA])
  /\
  (let run := generateVideo (unreadable "B.png") 3 frameA frameB "sunrise time-lapse"
                            initial in
   fst run = Threw (ReaderError "NotReadableError")
   /\ trace (snd run) = [Progress preparing; ReadFile frameA; ReadFile frameB]).
Proof.
  split.
  - apply (proj1 (frame_failure_stops_run (unreadable "A.png") 3 frameA frameB
                    "sunrise time-lapse" eq_refl)).
    reflexivity.
  - apply (proj2 (frame_failure_stops_run (unreadable "B.png") 3 frameA frameB
                    "sunrise time-lapse" eq_refl)
                 (Some (Base64.encode (fileBytes frameA))));
      reflexivity.
Defined.

(** X8. [editImage] always ends, with a value or a failure.  It reads
    the file at most once and makes at most one remote call, the
    content-generation call for that file and prompt; it makes none
    when the file cannot be encoded, failing with the reader's failure;
    and it fails with the service's failure when the call is rejected. *)
Theorem editImage_one_attempt (env : Env) (imageFile : File) (prompt : string) :
  let run := editImage env imageFile prompt initial in
  fst run <> Pending
  /\ (readsOf (trace (snd run)) = [] \/ readsOf (trace (snd run)) = [imageFile])
  /\ (remoteCallsOf (trace (snd run)) = []
      \/ exists encoded,
          remoteCallsOf (trace (snd run))
          = [CallGenerateContent (editRequest imageFile prompt encoded)])
  /\ (forall e,
         Js.truthy (API_KEY env) = true ->
         readerSettlement env imageFile = Some (Rejected e) ->
         fst run = Threw e /\ remoteCallsOf (trace (snd run)) = [])
  /\ (forall encoded e,
         Js.truthy (API_KEY env) = true ->
         readerSettlement env imageFile = Some (Resolved encoded) ->
         generateContent env (editRequest imageFile prompt encoded) = Rejected e ->
         fst run = Threw e).
Proof.
  intros run. subst run. rewrite editImage_run.
  pose proof (readerSettlement_settles env imageFile) as Hsettles.
  destruct (API_KEY env) as [key|];
    [|repeat split; try discriminate; now left].
  destruct (Js.truthy (Some key)) eqn:Hkey; cbn [negb];
    [|repeat split; try discriminate; now left].
  destruct (readerSettlement env imageFile) as [[encoded|failure]|]; [| |congruence].
  - cbv zeta.
    destruct (generateContent env (editRequest imageFile prompt encoded))
      as [response|failure] eqn:Hcall; cbn [fst snd].
    + split; [|split; [|split; [|split]]].
      * unfold scanResponse.
        destruct (firstCandidateParts response) as [ps|]; [|discriminate].
        destruct (scanParts ps); discriminate.
      * now right.
      * right. now exists encoded.
      * intros x _ H. discriminate.
      * intros encoded' x _ H. inversion H; subst. congruence.
    + split; [|split; [|split; [|split]]].
      * discriminate.
      * now right.
      * right. now exists encoded.
      * intros x _ H. discriminate.
      * intros encoded' x _ H. inversion H; subst. congruence.
  - cbn [fst snd]. split; [|split; [|split; [|split]]].
    + discriminate.
    + now right.
    + now left.
    + intros x _ H. inversion H. split; reflexivity.
    + intros encoded' x _ H. discriminate.
Qed.

Lemma endless_running (n : nat) :
  stillRunning endless 0 (Resolved (videoJob false None)) n = true
  /\ snapshot endless 0 (Resolved (videoJob false None)) n = Resolved (videoJob false None).
Proof.
  induction n as [|n [IHr IHs]]; [split; reflexivity|].
  cbn [stillRunning snapshot]. rewrite IHr, IHs. split; reflexivity.
Qed.

(** X9. The loop has no bound of its own.  If the job was submitted and
    the service never reports it done and never fails, [generateVideo]
    is still waiting after any number of iterations, having made that
    many status requests and reported that many attempts. *)
Theorem polling_never_gives_up
        (env : Env) (startImageFile endImageFile : File) (prompt : string)
        (d1 d2 : option string) (op0 : Operation) :
  Js.truthy (API_KEY env) = true ->
  readerSettlement env startImageFile = Some (Resolved d1) ->
  readerSettlement env endImageFile = Some (Resolved d2) ->
  generateVideos env (videoRequest startImageFile endImageFile prompt d1 d2) = Resolved op0 ->
  (forall n, stillRunning env 0 (Resolved op0) n = true) ->
  forall rounds,
    let run := generateVideo env rounds startImageFile endImageFile prompt initial in
    fst run = Pending
    /\ List.length (refetchesOf (trace (snd run))) = rounds
    /\ checkingOf (trace (snd run)) = map checkingStatus (seq 1 rounds).
Proof.
  intros Hkey Hstart Hend Hsub Hforever rounds run. subst run.
  rewrite (generateVideo_waiting env startImageFile endImageFile prompt d1 d2
             Hkey Hstart Hend op0 Hsub rounds (Hforever (S rounds))).
  cbn [fst snd trace]. split; [reflexivity|]. split.
  - rewrite refetchesOf_jobEvents. now apply pollEvents_refetches_length.
  - unfold checkingOf. rewrite progressOf_jobEvents by apply Hforever.
    rewrite filter_app. cbn [filter app]. cbn.
    apply forallb_filter_id. apply forallb_forall.
    intros m Hm. apply in_map_iff in Hm as [k [<- _]]. reflexivity.
Qed.

Lemma polling_never_gives_up_witness :
  let run := generateVideo endless 7 frameA frameB "sunrise time-lapse" initial in
  fst run = Pending
  /\ List.length (refetchesOf (trace (snd run))) = 7
  /\ checkingOf (trace (snd run)) = map checkingStatus (seq 1 7).
Proof.
  apply (polling_never_gives_up endless frameA frameB "sunrise time-lapse"
           (Some (Base64.encode (fileBytes frameA)))
           (Some (Base64.encode (fileBytes frameB)))
           (videoJob false None) eq_refl eq_refl eq_refl eq_refl
           (fun n => proj1 (endless_running n)) 7).
Defined.

(** X10. With a key and a reader that delivers data URLs,
    [generateVideo] submits exactly the two files it was given: the
    image of the request decodes to the bytes of the start frame, its
    last frame to the bytes of the end frame, each with the declared
    type of its file, and the prompt is passed on as it is, for one
    video of 720p in 16:9. *)
Theorem submitted_request_carries_frames
        (env : Env) (rounds : nat) (startImageFile endImageFile : File) (prompt : string)
        (header1 header2 : string) :
  Js.truthy (API_KEY env) = true ->
  Js.occurs ","%char header1 = false ->
  Js.occurs ","%char header2 = false ->
  readAsDataURL env startImageFile =
  Loaded (ResultString (header1 ++ String ","%char (Base64.encode (fileBytes startImageFile)))) ->
  readAsDataURL env endImageFile =
  Loaded (ResultString (header2 ++ String ","%char (Base64.encode (fileBytes endImageFile)))) ->
  exists request b1 b2,
    nth_error
      (trace (snd (generateVideo env rounds startImageFile endImageFile prompt initial))) 4
    = Some (CallGenerateVideos request)
    /\ imageBytes (image request) = Some b1
    /\ Base64.decode b1 = Some (fileBytes startImageFile)
    /\ imageMimeType (image request) = fileType startImageFile
    /\ imageBytes (lastFrame (config request)) = Some b2
    /\ Base64.decode b2 = Some (fileBytes endImageFile)
    /\ imageMimeType (lastFrame (config request)) = fileType endImageFile
    /\ videoPrompt request = prompt
    /\ numberOfVideos (config request) = 1
    /\ resolution (config request) = "720p"
    /\ aspectRatio (config request) = "16:9".
Proof.
  intros Hkey Hh1 Hh2 Hr1 Hr2.
  pose proof (readerSettlement_dataURL env startImageFile header1 Hh1 Hr1) as Hs1.
  pose proof (readerSettlement_dataURL env endImageFile header2 Hh2 Hr2) as Hs2.
  exists (videoRequest startImageFile endImageFile prompt
            (Some (Base64.encode (fileBytes startImageFile)))
            (Some (Base64.encode (fileBytes endImageFile)))),
    (Base64.encode (fileBytes startImageFile)),
    (Base64.encode (fileBytes endImageFile)).
  split.
  - destruct (generateVideos env
                (videoRequest startImageFile endImageFile prompt
                   (Some (Base64.encode (fileBytes startImageFile)))
                   (Some (Base64.encode (fileBytes endImageFile))))) as [op0|e] eqn:Hsub.
    + destruct (generateVideo_prefix env startImageFile endImageFile prompt _ _
                  Hkey Hs1 Hs2 op0 Hsub 0 rounds eq_refl (Nat.le_0_l rounds)) as [t ->].
      reflexivity.
    + rewrite (generateVideo_rejected env startImageFile endImageFile prompt _ _
                 Hkey Hs1 Hs2 rounds e Hsub).
      reflexivity.
  - repeat split; apply Base64Facts.decode_encode.
Qed.

Lemma submitted_request_carries_frames_witness :
  exists request b1 b2,
    nth_error (trace (snd (generateVideo sunrise 5 frameA frameB "sunrise time-lapse"
                                         initial))) 4
    = Some (CallGenerateVideos request)
    /\ imageBytes (image request) = Some b1
    /\ Base64.decode b1 = Some (fileBytes frameA)
    /\ imageMimeType (image request) = fileType frameA
    /\ imageBytes (lastFrame (config request)) = Some b2
    /\ Base64.decode b2 = Some (fileBytes frameB)
    /\ imageMimeType (lastFrame (config request)) = fileType frameB
    /\ videoPrompt request = "sunrise time-lapse"
    /\ numberOfVideos (config request) = 1
    /\ resolution (config request) = "720p"
    /\ aspectRatio (config request) = "16:9".
Proof.
  apply (submitted_request_carries_frames sunrise 5 frameA frameB "sunrise time-lapse"
           "data:image/png;base64" "data:image/png;base64");
    reflexivity.
Defined.

(* ================================================================= *)
(** ** The image editor *)

(** [editImage] always ends, from any world. *)
Lemma editImage_settles (env : Env) (imageFile : File) (prompt : string) (w : World) :
  fst (editImage env imageFile prompt w) <> Pending.
Proof.
  rewrite editImage_run.
  pose proof (readerSettlement_settles env imageFile) as Hsettles.
  destruct (API_KEY env) as [key|]; [|discriminate].
  destruct (negb (Js.truthy (Some key))); [discriminate|].
  destruct (readerSettlement env imageFile) as [[encoded|failure]|];
    [|discriminate|congruence].
  cbv zeta.
  destruct (generateContent env (editRequest imageFile prompt encoded))
    as [response|failure]; [|discriminate].
  cbn [fst]. unfold scanResponse.
  destruct (firstCandidateParts response) as [ps|]; [|discriminate].
  destruct (scanParts ps); discriminate.
Qed.

(** X11. A click on Generate, on the page and in the handler.  The
    Generate button is disabled exactly when an edit is running, no
    image is uploaded, or the prompt is empty or made of white space
    only.  A click on the page in such a state runs no handler: the
    component and the world stay as they are, and in particular the
    request to upload an image and enter a prompt is not set.  When the
    button is enabled, an image is there and the prompt is not blank;
    the click runs [handleGenerateClick], which passes its own check
    and starts an edit.  The check inside the handler, for the same
    two conditions, therefore never decides on the page; called in
    such a state by anything else than the button, the handler only
    sets the request: no file is read, nothing is sent, and the image
    shown, the loading flag and the prompt stay as they were. *)
Theorem image_click_validates
        (env : Env) (typeErrorMessage : string) (s : ImageEditor.State) (w : World) :
  let click := ImageEditor.ClickGenerate env typeErrorMessage in
  let outcome := ImageEditor.handleGenerateClick env typeErrorMessage s w in
  let s' := ImageEditor.after s (fst outcome) in
  let invalid :=
    match ImageEditor.file (ImageEditor.originalImage s) with
    | None => true
    | Some _ => JsText.allWhite (ImageEditor.prompt s)
    end in
  ImageEditor.isButtonDisabled s = (ImageEditor.isLoading s || invalid)
  /\ (ImageEditor.isButtonDisabled s = true ->
      ImageEditor.onPage (s, w) click = (s, w))
  /\ (invalid = true ->
      ImageEditor.onPage (s, w) click = (s, w))
  /\ (ImageEditor.isButtonDisabled s = false ->
      invalid = false
      /\ ImageEditor.onPage (s, w) click = (s', snd outcome)
      /\ exists rest,
          fst outcome = [ImageEditor.setIsLoading true; ImageEditor.setError None;
                         ImageEditor.setEditedImage None] ++ rest)
  /\ (invalid = true ->
      outcome = ([ImageEditor.setError (Some "Please upload an image and enter a prompt.")],
                 w)
      /\ ImageEditor.error s' = Some "Please upload an image and enter a prompt."
      /\ ImageEditor.editedImage s' = ImageEditor.editedImage s
      /\ ImageEditor.isLoading s' = ImageEditor.isLoading s
      /\ ImageEditor.prompt s' = ImageEditor.prompt s)
  /\ (invalid = false ->
      exists rest,
        fst outcome = [ImageEditor.setIsLoading true; ImageEditor.setError None;
                       ImageEditor.setEditedImage None] ++ rest).
Proof.
  intros click outcome s' invalid. subst s' outcome invalid click.
  unfold ImageEditor.onPage, ImageEditor.offered, ImageEditor.step. cbn [fst].
  unfold ImageEditor.handleGenerateClick, ImageEditor.isButtonDisabled.
  rewrite JsTextFacts.blank_allWhite.
  destruct (ImageEditor.file (ImageEditor.originalImage s)) as [imageFile|].
  - destruct (JsText.allWhite (ImageEditor.prompt s)).
    + rewrite !orb_true_r. cbn [negb].
      split; [reflexivity|]. split; [reflexivity|]. split; [reflexivity|].
      split; [discriminate|]. split; [|discriminate].
      intros _. repeat split.
    + rewrite !orb_false_r.
      destruct (editImage env imageFile _ w) as [result w'].
      split; [reflexivity|].
      split; [intros ->; reflexivity|]. split; [discriminate|].
      split; [|split; [discriminate|intros _; eexists; reflexivity]].
      intros ->. cbn [negb fst snd].
      split; [reflexivity|]. split; [reflexivity|]. eexists. reflexivity.
  - rewrite !orb_true_r. cbn [negb].
    split; [reflexivity|]. split; [reflexivity|]. split; [reflexivity|].
    split; [discriminate|]. split; [|discriminate].
    intros _. repeat split.
Qed.

Lemma image_click_validates_witness :
  ImageEditor.onPage (ImageEditor.mounted, initial)
                     (ImageEditor.ClickGenerate sunrise "undefined is not an object")
  = (ImageEditor.mounted, initial)
  /\ ImageEditor.handleGenerateClick sunrise "undefined is not an object"
                                     ImageEditor.mounted initial
     = ([ImageEditor.setError (Some "Please upload an image and enter a prompt.")], initial)
  /\ ImageEditor.isButtonDisabled (editing ImageEditor.subject "add a hat") = false
  /\ exists rest,
      fst (ImageEditor.handleGenerateClick sunrise "undefined is not an object"
             (editing ImageEditor.subject "add a hat") initial)
      = [ImageEditor.setIsLoading true; ImageEditor.setError None;
         ImageEditor.setEditedImage None] ++ rest.
Proof.
  pose proof (image_click_validates sunrise "undefined is not an object"
                ImageEditor.mounted initial) as [_ [Hdisabled [_ [_ [Hhandler _]]]]].
  pose proof (image_click_validates sunrise "undefined is not an object"
                (editing ImageEditor.subject "add a hat") initial) as [_ [_ [_ [Henabled _]]]].
  split; [exact (Hdisabled eq_refl)|].
  split; [exact (proj1 (Hhandler eq_refl))|].
  split; [reflexivity|].
  exact (proj2 (proj2 (Henabled eq_refl))).
Defined.

(** X12. From a state in which the Generate button is enabled, a click
    always comes to an end with the loading flag off, and in one of two
    states: the result of [editImage] is the edited image and no error
    is set, or the failure's message is the error and no edited image
    is set.  The prompt, the uploaded image and the focus are
    untouched. *)
Theorem image_click_settles
        (env : Env) (typeErrorMessage : string) (s : ImageEditor.State) (w : World) :
  ImageEditor.isButtonDisabled s = false ->
  let s' := ImageEditor.after s (fst (ImageEditor.handleGenerateClick
                                        env typeErrorMessage s w)) in
  ImageEditor.isLoading s' = false
  /\ ((exists imageFile d,
          ImageEditor.file (ImageEditor.originalImage s) = Some imageFile
          /\ fst (editImage env imageFile
                     (ImageEditor.finalPrompt (ImageEditor.editTarget s)
                                              (ImageEditor.prompt s)) w) = Returned d
          /\ ImageEditor.editedImage s' = d /\ ImageEditor.error s' = None)
      \/ (exists imageFile e,
             ImageEditor.file (ImageEditor.originalImage s) = Some imageFile
             /\ fst (editImage env imageFile
                        (ImageEditor.finalPrompt (ImageEditor.editTarget s)
                                                 (ImageEditor.prompt s)) w) = Threw e
             /\ ImageEditor.editedImage s' = None
             /\ ImageEditor.error s' = Some (messageOr typeErrorMessage e)))
  /\ ImageEditor.prompt s' = ImageEditor.prompt s
  /\ ImageEditor.originalImage s' = ImageEditor.originalImage s
  /\ ImageEditor.editTarget s' = ImageEditor.editTarget s.
Proof.
  unfold ImageEditor.isButtonDisabled, ImageEditor.handleGenerateClick.
  intros Henabled.
  destruct (ImageEditor.file (ImageEditor.originalImage s)) as [imageFile|];
    [|now rewrite orb_true_r in Henabled].
  destruct (JsText.blank (ImageEditor.prompt s));
    [now rewrite orb_true_r in Henabled|].
  pose proof (editImage_settles env imageFile
                (ImageEditor.finalPrompt (ImageEditor.editTarget s) (ImageEditor.prompt s))
                w) as Hsettles.
  destruct (editImage env imageFile _ w) as [[d|e|] w'] eqn:Hrun; cbn [fst] in *;
    [| |congruence]; cbn.
  - split; [reflexivity|]. split; [|repeat split].
    left. exists imageFile, d. rewrite Hrun. repeat split.
  - split; [reflexivity|]. split; [|repeat split].
    right. exists imageFile, e. rewrite Hrun. repeat split.
Qed.

Lemma image_click_settles_witness :
  let s' :=
    ImageEditor.after
      (editing ImageEditor.subject "add a hat")
      (fst (ImageEditor.handleGenerateClick
              (scripted (Some "secret") (Resolved (reply [[picture "AAAA"]]))
                        (Rejected TypeError) [])
              "undefined is not an object" (editing ImageEditor.subject "add a hat")
              initial)) in
  ImageEditor.isLoading s' = false
  /\ ImageEditor.editedImage s' = Some "AAAA"
  /\ ImageEditor.error s' = None.
Proof.
  destruct (image_click_settles
              (scripted (Some "secret") (Resolved (reply [[picture "AAAA"]]))
                        (Rejected TypeError) [])
              "undefined is not an object" (editing ImageEditor.subject "add a hat")
              initial eq_refl) as [Hloading _].
  split; [exact Hloading|]. split; reflexivity.
Defined.

(** X13. What the editor sends.  With an image uploaded, a prompt that
    is not blank, a key, and a reader that delivers data URLs, a click
    on Generate makes exactly one remote call: to the image model, with
    the uploaded file (its data decodes to the bytes of the file, its
    type is the declared type) and with the prompt as typed, white
    space included, after the words for the chosen focus. *)
Theorem image_click_sends_prompt
        (env : Env) (typeErrorMessage : string) (s : ImageEditor.State)
        (imageFile : File) (header : string) :
  ImageEditor.file (ImageEditor.originalImage s) = Some imageFile ->
  JsText.blank (ImageEditor.prompt s) = false ->
  Js.truthy (API_KEY env) = true ->
  Js.occurs ","%char header = false ->
  readAsDataURL env imageFile =
  Loaded (ResultString (header ++ String ","%char (Base64.encode (fileBytes imageFile)))) ->
  exists encoded,
    remoteCallsOf
      (trace (snd (ImageEditor.handleGenerateClick env typeErrorMessage s initial)))
    = [CallGenerateContent
         {| contentModel := "gemini-2.5-flash-image";
            contentParts :=
              [ImagePart {| inlineData := {| data := Some encoded;
                                             mimeType := fileType imageFile |} |};
               TextPart
                 (match ImageEditor.editTarget s with
                  | ImageEditor.image => ImageEditor.prompt s
                  | ImageEditor.subject =>
                      "For the main subject(s): " ++ ImageEditor.prompt s
                  | ImageEditor.background =>
                      "For the background: " ++ ImageEditor.prompt s
                  end)];
            responseModalities := [IMAGE] |}]
    /\ Base64.decode encoded = Some (fileBytes imageFile).
Proof.
  intros Hfile Hprompt Hkey Hheader Hread.
  pose proof (readerSettlement_dataURL env imageFile header Hheader Hread) as Hsettle.
  exists (Base64.encode (fileBytes imageFile)).
  split; [|apply Base64Facts.decode_encode].
  unfold ImageEditor.handleGenerateClick. rewrite Hfile, Hprompt.
  rewrite editImage_run.
  destruct (API_KEY env) as [key|]; [|discriminate].
  rewrite Hkey, Hsettle. cbv zeta. cbn [negb].
  unfold editRequest, ImageEditor.finalPrompt.
  destruct (generateContent env _) as [response|failure];
    destruct (ImageEditor.editTarget s); reflexivity.
Qed.

Lemma image_click_sends_prompt_witness :
  exists encoded,
    remoteCallsOf
      (trace (snd (ImageEditor.handleGenerateClick
                     (scripted (Some "secret") (Resolved (reply [[picture "AAAA"]]))
                               (Rejected TypeError) [])
                     "undefined is not an object"
                     (editing ImageEditor.background " blur it ") initial)))
    = [CallGenerateContent
         {| contentModel := "gemini-2.5-flash-image";
            contentParts :=
              [ImagePart {| inlineData := {| data := Some encoded;
                                             mimeType := "image/png" |} |};
               TextPart "For the background:  blur it "];
            responseModalities := [IMAGE] |}]
    /\ Base64.decode encoded = Some (fileBytes frameA).
Proof.
  apply (image_click_sends_prompt
           (scripted (Some "secret") (Resolved (reply [[picture "AAAA"]]))
                     (Rejected TypeError) [])
           "undefined is not an object"
           (editing ImageEditor.background " blur it ") frameA "data:image/png;base64");
    reflexivity.
Defined.

(** X14. A result without data goes unnoticed.  When the first part
    with inline data in the response has no data, or empty data,
    [editImage] returns it as its result, and the editor ends the click
    showing neither an image nor an error, the loading flag off. *)
Theorem image_click_empty_result_shows_nothing
        (env : Env) (typeErrorMessage : string) (s : ImageEditor.State)
        (imageFile : File) (encoded : option string)
        (response : GenerateContentResponse)
        (before : list Part) (part : Part) (blob : Blob) (after : list Part) :
  ImageEditor.file (ImageEditor.originalImage s) = Some imageFile ->
  JsText.blank (ImageEditor.prompt s) = false ->
  Js.truthy (API_KEY env) = true ->
  readerSettlement env imageFile = Some (Resolved encoded) ->
  generateContent env
    (editRequest imageFile
       (ImageEditor.finalPrompt (ImageEditor.editTarget s) (ImageEditor.prompt s)) encoded)
  = Resolved response ->
  firstCandidateParts response = Some (before ++ part :: after) ->
  forallb (fun p => negb (carriesImage p)) before = true ->
  partInlineData part = Some blob ->
  Js.truthy (blobData blob) = false ->
  let s' := ImageEditor.after s (fst (ImageEditor.handleGenerateClick
                                        env typeErrorMessage s initial)) in
  ImageEditor.shownImage s' = None
  /\ ImageEditor.shownError s' = None
  /\ ImageEditor.isLoading s' = false.
Proof.
  intros Hfile Hprompt Hkey Hread Hcall Hparts Hbefore Hpart Hdata.
  unfold ImageEditor.handleGenerateClick. rewrite Hfile, Hprompt.
  rewrite editImage_run.
  destruct (API_KEY env) as [key|]; [|discriminate].
  rewrite Hkey, Hread. cbv zeta. cbn [negb]. rewrite Hcall.
  unfold scanResponse. rewrite Hparts.
  rewrite (scanParts_first before part blob after Hbefore Hpart).
  cbn. unfold ImageEditor.shownImage, ImageEditor.shownError. cbn.
  destruct (blobData blob) as [[|c d]|]; [|discriminate|]; repeat split.
Qed.

Lemma image_click_empty_result_shows_nothing_witness :
  let env := scripted (Some "secret") (Resolved hollow) (Rejected TypeError) [] in
  let s' :=
    ImageEditor.after
      (editing ImageEditor.image "add a hat")
      (fst (ImageEditor.handleGenerateClick env "undefined is not an object"
              (editing ImageEditor.image "add a hat") initial)) in
  ImageEditor.shownImage s' = None
  /\ ImageEditor.shownError s' = None
  /\ ImageEditor.isLoading s' = false.
Proof.
  apply (image_click_empty_result_shows_nothing
           (scripted (Some "secret") (Resolved hollow) (Rejected TypeError) [])
           "undefined is not an object" (editing ImageEditor.image "add a hat")
           frameA (Some (Base64.encode (fileBytes frameA))) hollow
           [textOnly]
           {| partInlineData := Some {| blobData := None; blobMimeType := Some "image/png" |};
              partText := None |}
           {| blobData := None; blobMimeType := Some "image/png" |}
           []);
    reflexivity.
Defined.

(** X15. A file that cannot be read.  With an image uploaded, a prompt
    and a key, if the read fails the editor shows the words for an
    unknown error (what the reader hands over is not an [Error]); if
    the read ends with a result that is not a string it shows the
    encoder's own message.  In both cases nothing is sent and no image
    is shown. *)
Theorem image_click_unreadable_file
        (env : Env) (typeErrorMessage : string) (s : ImageEditor.State) (imageFile : File) :
  ImageEditor.file (ImageEditor.originalImage s) = Some imageFile ->
  JsText.blank (ImageEditor.prompt s) = false ->
  Js.truthy (API_KEY env) = true ->
  let outcome := ImageEditor.handleGenerateClick env typeErrorMessage s initial in
  let s' := ImageEditor.after s (fst outcome) in
  (forall detail,
      readAsDataURL env imageFile = Failed detail ->
      ImageEditor.error s' = Some "An unknown error occurred."
      /\ ImageEditor.editedImage s' = None
      /\ remoteCallsOf (trace (snd outcome)) = [])
  /\ (forall result,
         readAsDataURL env imageFile = Loaded result ->
         (forall text, result <> ResultString text) ->
         ImageEditor.error s' = Some "Failed to read file as base64 string."
         /\ ImageEditor.editedImage s' = None
         /\ remoteCallsOf (trace (snd outcome)) = []).
Proof.
  intros Hfile Hprompt Hkey outcome s'. subst s' outcome.
  unfold ImageEditor.handleGenerateClick. rewrite Hfile, Hprompt.
  rewrite editImage_run, readerSettlement_cases.
  destruct (API_KEY env) as [key|]; [|discriminate].
  rewrite Hkey. cbn [negb]. split.
  - intros detail ->. repeat split.
  - intros result -> Hnot.
    destruct result as [text| |]; [now destruct (Hnot text)| |]; repeat split.
Qed.

Lemma image_click_unreadable_file_witness :
  let outcome :=
    ImageEditor.handleGenerateClick (unreadable "A.png") "undefined is not an object"
                                    (editing ImageEditor.image "add a hat") initial in
  let s' := ImageEditor.after (editing ImageEditor.image "add a hat") (fst outcome) in
  ImageEditor.error s' = Some "An unknown error occurred."
  /\ ImageEditor.editedImage s' = None
  /\ remoteCallsOf (trace (snd outcome)) = [].
Proof.
  apply (proj1 (image_click_unreadable_file
                  (unreadable "A.png") "undefined is not an object"
                  (editing ImageEditor.image "add a hat") frameA
                  eq_refl eq_refl eq_refl)
               "NotReadableError").
  reflexivity.
Defined.

(* ================================================================= *)
(** ** The video generator *)

Lemma video_after_app (s : VideoGenerator.State) (a b : list VideoGenerator.Effect) :
  VideoGenerator.after s (a ++ b) = VideoGenerator.after (VideoGenerator.after s a) b.
Proof. unfold VideoGenerator.after. apply fold_left_app. Qed.

Lemma last_default (A : Type) (l : list A) (a d d' : A) :
  last (a :: l) d = last (a :: l) d'.
Proof.
  revert a. induction l as [|b l IH]; intros a; [reflexivity|].
  change (last (a :: b :: l) d) with (last (b :: l) d).
  change (last (a :: b :: l) d') with (last (b :: l) d').
  apply IH.
Qed.

Lemma video_after_messages (ms : list string) :
  forall s,
    VideoGenerator.after s (map VideoGenerator.setLoadingMessage ms) =
    {| VideoGenerator.startFrame := VideoGenerator.startFrame s;
       VideoGenerator.endFrame := VideoGenerator.endFrame s;
       VideoGenerator.generatedVideoUrl := VideoGenerator.generatedVideoUrl s;
       VideoGenerator.prompt := VideoGenerator.prompt s;
       VideoGenerator.isLoading := VideoGenerator.isLoading s;
       VideoGenerator.loadingMessage := last ms (VideoGenerator.loadingMessage s);
       VideoGenerator.error := VideoGenerator.error s;
       VideoGenerator.isKeySelected := VideoGenerator.isKeySelected s |}.
Proof.
  induction ms as [|m ms IH]; intros s.
  - now destruct s.
  - cbn [map]. unfold VideoGenerator.after in *. cbn [fold_left].
    rewrite IH. cbn.
    destruct ms as [|m' ms']; [reflexivity|].
    f_equal. apply last_default.
Qed.

(** The state when the run of [generateVideo] has reported [ms] and the
    handler goes on with [rest]. *)
Lemma video_after_run (s : VideoGenerator.State) (ms : list string)
      (rest : list VideoGenerator.Effect) :
  VideoGenerator.after s
    ([VideoGenerator.setIsLoading true; VideoGenerator.setError None;
      VideoGenerator.setGeneratedVideoUrl None;
      VideoGenerator.setLoadingMessage "Starting video generation..."]
     ++ map VideoGenerator.setLoadingMessage ms ++ rest)
  = VideoGenerator.after
      {| VideoGenerator.startFrame := VideoGenerator.startFrame s;
         VideoGenerator.endFrame := VideoGenerator.endFrame s;
         VideoGenerator.generatedVideoUrl := None;
         VideoGenerator.prompt := VideoGenerator.prompt s;
         VideoGenerator.isLoading := true;
         VideoGenerator.loadingMessage := last ms "Starting video generation...";
         VideoGenerator.error := None;
         VideoGenerator.isKeySelected := VideoGenerator.isKeySelected s |}
      rest.
Proof.
  rewrite !video_after_app, video_after_messages. reflexivity.
Qed.

(** X16. A click on Generate Video, on the page and in the handler.
    The Generate Video button is disabled exactly when a generation is
    running, a frame is missing, the prompt is empty or made of white
    space only, or no key is selected.  A click on the page in such a
    state runs no handler: the component and the world stay as they
    are, and neither the request for frames and a prompt nor the
    request to select a key is set.  The Select API Key button is on
    the page only while no key is selected.  When the Generate Video
    button is enabled, both frames, a prompt and a selected key are
    there; the click runs [handleGenerateClick], which passes its own
    checks and starts a generation.  The checks inside the handler
    therefore never decide on the page; called by anything else than
    the button, the handler checks in this order: without both frames,
    or with a blank prompt, it only asks for the frames and a prompt,
    whether or not a key is selected; with them but without a selected
    key it only asks to select a key; in both cases no file is read
    and nothing is sent. *)
Theorem video_click_validates
        (env : Env) (rounds : nat) (typeErrorMessage : string)
        (aistudio : option VideoGenerator.AiStudio)
        (s : VideoGenerator.State) (w : World) :
  let click := VideoGenerator.ClickGenerate env rounds typeErrorMessage in
  let outcome := VideoGenerator.handleGenerateClick env rounds typeErrorMessage s w in
  let incomplete :=
    match VideoGenerator.file (VideoGenerator.startFrame s),
          VideoGenerator.file (VideoGenerator.endFrame s) with
    | Some _, Some _ => JsText.allWhite (VideoGenerator.prompt s)
    | _, _ => true
    end in
  VideoGenerator.isButtonDisabled s
  = (VideoGenerator.isLoading s || incomplete || negb (VideoGenerator.isKeySelected s))
  /\ (VideoGenerator.isButtonDisabled s = true ->
      VideoGenerator.onPage aistudio (s, w) click = (s, w))
  /\ (incomplete = true ->
      VideoGenerator.onPage aistudio (s, w) click = (s, w))
  /\ (VideoGenerator.isKeySelected s = false ->
      VideoGenerator.onPage aistudio (s, w) click = (s, w))
  /\ (VideoGenerator.isKeySelected s = true ->
      VideoGenerator.onPage aistudio (s, w) VideoGenerator.ClickSelectKey = (s, w))
  /\ (VideoGenerator.isButtonDisabled s = false ->
      incomplete = false
      /\ VideoGenerator.isKeySelected s = true
      /\ VideoGenerator.onPage aistudio (s, w) click
         = (VideoGenerator.after s (fst outcome), snd outcome)
      /\ exists rest,
          fst outcome =
          [VideoGenerator.setIsLoading true; VideoGenerator.setError None;
           VideoGenerator.setGeneratedVideoUrl None;
           VideoGenerator.setLoadingMessage "Starting video generation..."] ++ rest)
  /\ (incomplete = true ->
      outcome =
      ([VideoGenerator.setError
          (Some "Please provide a start frame, an end frame, and a prompt.")], w))
  /\ (incomplete = false ->
      VideoGenerator.isKeySelected s = false ->
      outcome =
      ([VideoGenerator.setError
          (Some "Please select an API key before generating a video.")], w)).
Proof.
  intros click outcome incomplete. subst outcome incomplete click.
  unfold VideoGenerator.onPage, VideoGenerator.offered, VideoGenerator.step. cbn [fst].
  unfold VideoGenerator.handleGenerateClick, VideoGenerator.isButtonDisabled.
  rewrite JsTextFacts.blank_allWhite.
  destruct (VideoGenerator.file (VideoGenerator.startFrame s)) as [startFile|];
    destruct (VideoGenerator.file (VideoGenerator.endFrame s)) as [endFile|];
    destruct (JsText.allWhite (VideoGenerator.prompt s));
    destruct (VideoGenerator.isKeySelected s);
    destruct (VideoGenerator.isLoading s);
    cbn [negb orb fst snd];
    try (destruct (generateVideo env rounds startFile endFile (VideoGenerator.prompt s) w)
          as [result w']);
    cbn [fst snd];
    repeat match goal with |- _ /\ _ => split end;
    try reflexivity; intros; try discriminate; try reflexivity;
    repeat match goal with |- _ /\ _ => split end;
    try reflexivity;
    eexists; reflexivity.
Qed.

Lemma video_click_validates_witness :
  VideoGenerator.onPage (Some undecided) (VideoGenerator.mounted, initial)
    (VideoGenerator.ClickGenerate sunrise 5 "undefined is not an object")
  = (VideoGenerator.mounted, initial)
  /\ VideoGenerator.handleGenerateClick sunrise 5 "undefined is not an object"
                                        VideoGenerator.mounted initial
     = ([VideoGenerator.setError
           (Some "Please provide a start frame, an end frame, and a prompt.")], initial)
  /\ VideoGenerator.isButtonDisabled (directing "sunrise time-lapse") = false
  /\ exists rest,
      fst (VideoGenerator.handleGenerateClick sunrise 5 "undefined is not an object"
             (directing "sunrise time-lapse") initial)
      = [VideoGenerator.setIsLoading true; VideoGenerator.setError None;
         VideoGenerator.setGeneratedVideoUrl None;
         VideoGenerator.setLoadingMessage "Starting video generation..."] ++ rest.
Proof.
  pose proof (video_click_validates sunrise 5 "undefined is not an object"
                (Some undecided) VideoGenerator.mounted initial)
    as [_ [Hdisabled [_ [_ [_ [_ [Hhandler _]]]]]]].
  pose proof (video_click_validates sunrise 5 "undefined is not an object"
                (Some undecided) (directing "sunrise time-lapse") initial)
    as [_ [_ [_ [_ [_ [Henabled _]]]]]].
  split; [exact (Hdisabled eq_refl)|].
  split; [exact (Hhandler eq_refl)|].
  split; [reflexivity|].
  exact (proj2 (proj2 (proj2 (Henabled eq_refl)))).
Defined.

(** X17. From a state in which the Generate Video button is enabled, a
    click leaves the component in a state read off the end of
    [generateVideo].  If it returned a URL: that URL is the video, no
    error, the loading flag off and the loading message empty.  If it
    failed: no video, the loading flag off and the loading message
    empty; the error is the failure's message and the key stays
    selected, unless that message contains "Requested entity was not
    found", in which case the error is the API-key error and the key is
    no longer selected.  If it is still waiting: the loading flag is
    on and neither a video nor an error is set. *)
Theorem video_click_settles
        (env : Env) (rounds : nat) (typeErrorMessage : string)
        (s : VideoGenerator.State) (w : World) :
  VideoGenerator.isButtonDisabled s = false ->
  exists startFile endFile,
    VideoGenerator.file (VideoGenerator.startFrame s) = Some startFile
    /\ VideoGenerator.file (VideoGenerator.endFrame s) = Some endFile
    /\ let s' := VideoGenerator.after s
                   (fst (VideoGenerator.handleGenerateClick
                           env rounds typeErrorMessage s w)) in
       match fst (generateVideo env rounds startFile endFile (VideoGenerator.prompt s) w) with
       | Returned url =>
           VideoGenerator.generatedVideoUrl s' = Some url
           /\ VideoGenerator.error s' = None
           /\ VideoGenerator.isLoading s' = false
           /\ VideoGenerator.loadingMessage s' = EmptyString
           /\ VideoGenerator.isKeySelected s' = true
       | Threw e =>
           let message := messageOr typeErrorMessage e in
           let stale := JsText.includes message "Requested entity was not found" in
           VideoGenerator.generatedVideoUrl s' = None
           /\ VideoGenerator.error s' =
              Some (if stale
                    then "API Key error. Please try selecting your API key again."
                    else message)
           /\ VideoGenerator.isLoading s' = false
           /\ VideoGenerator.loadingMessage s' = EmptyString
           /\ VideoGenerator.isKeySelected s' = negb stale
       | Pending =>
           VideoGenerator.generatedVideoUrl s' = None
           /\ VideoGenerator.error s' = None
           /\ VideoGenerator.isLoading s' = true
       end.
Proof.
  unfold VideoGenerator.isButtonDisabled, VideoGenerator.handleGenerateClick.
  intros Henabled.
  destruct (VideoGenerator.file (VideoGenerator.startFrame s)) as [startFile|];
    [|now rewrite !orb_true_r in Henabled].
  destruct (VideoGenerator.file (VideoGenerator.endFrame s)) as [endFile|];
    [|now rewrite !orb_true_r in Henabled].
  destruct (JsText.blank (VideoGenerator.prompt s));
    [now rewrite !orb_true_r in Henabled|].
  destruct (VideoGenerator.isKeySelected s) eqn:Hselected;
    [|now rewrite !orb_true_r in Henabled].
  exists startFile, endFile. split; [reflexivity|]. split; [reflexivity|].
  cbn [negb].
  destruct (generateVideo env rounds startFile endFile (VideoGenerator.prompt s) w)
    as [[url|e|] w']; cbn [fst]; cbv zeta; rewrite video_after_run.
  - repeat split. exact Hselected.
  - unfold VideoGenerator.caught.
    destruct (JsText.includes (messageOr typeErrorMessage e)
                              "Requested entity was not found");
      repeat split; exact Hselected.
  - repeat split.
Qed.

Lemma video_click_settles_witness :
  let s' :=
    VideoGenerator.after
      (directing "sunrise time-lapse")
      (fst (VideoGenerator.handleGenerateClick
              staleKey 3 "undefined is not an object"
              (directing "sunrise time-lapse") initial)) in
  VideoGenerator.generatedVideoUrl s' = None
  /\ VideoGenerator.error s'
     = Some "API Key error. Please try selecting your API key again."
  /\ VideoGenerator.isLoading s' = false
  /\ VideoGenerator.loadingMessage s' = EmptyString
  /\ VideoGenerator.isKeySelected s' = false.
Proof.
  destruct (video_click_settles staleKey 3 "undefined is not an object"
              (directing "sunrise time-lapse") initial eq_refl)
    as [startFile [endFile [Hstart [Hend H]]]].
  inversion Hstart; subst startFile. inversion Hend; subst endFile.
  exact H.
Defined.

(** X18. A missing key is not taken for a stale one.  When the button
    is enabled but no key is configured, the click shows the service
    module's own message, reads no file and sends nothing, and leaves
    the key selected: the box for selecting a key does not come back
    and the button stays enabled.  The same holds for the module's
    other failures, whose messages do not contain the words the
    component looks for. *)
Theorem missing_key_keeps_selection
        (env : Env) (rounds : nat) (typeErrorMessage : string)
        (s : VideoGenerator.State) (w : World) :
  VideoGenerator.isButtonDisabled s = false ->
  Js.truthy (API_KEY env) = false ->
  let outcome := VideoGenerator.handleGenerateClick env rounds typeErrorMessage s w in
  let s' := VideoGenerator.after s (fst outcome) in
  snd outcome = w
  /\ VideoGenerator.error s'
     = Some "API_KEY is not available in process.env. Please select an API key."
  /\ VideoGenerator.isKeySelected s' = true
  /\ VideoGenerator.isButtonDisabled s' = false
  /\ Forall (fun e => JsText.includes (messageOr typeErrorMessage e)
                                      "Requested entity was not found" = false)
            [authenticationError; noLinkError; readError; noImageError].
Proof.
  intros Henabled Hkey outcome s'.
  destruct (video_click_settles env rounds typeErrorMessage s w Henabled)
    as [startFile [endFile [Hstart [Hend H]]]].
  cbv zeta in H. fold outcome in H. fold s' in H.
  assert (generateVideo env rounds startFile endFile (VideoGenerator.prompt s) w
          = (Threw authenticationError, w)) as Hrun.
  { rewrite generateVideo_run.
    destruct (API_KEY env) as [key|]; [|reflexivity]. now rewrite Hkey. }
  rewrite Hrun in H. cbn [fst] in H.
  destruct H as [Hurl [Herror [Hloading [Hmessage Hselected]]]].
  split; [|split; [exact Herror|split; [exact Hselected|split]]].
  - subst outcome. unfold VideoGenerator.handleGenerateClick.
    unfold VideoGenerator.isButtonDisabled in Henabled.
    rewrite Hstart, Hend in *.
    destruct (JsText.blank (VideoGenerator.prompt s));
      [now rewrite !orb_true_r in Henabled|].
    destruct (VideoGenerator.isKeySelected s);
      [|now rewrite !orb_true_r in Henabled].
    cbn [negb]. now rewrite Hrun.
  - unfold VideoGenerator.isButtonDisabled in *.
    rewrite Hloading, Hselected.
    assert (VideoGenerator.startFrame s' = VideoGenerator.startFrame s
            /\ VideoGenerator.endFrame s' = VideoGenerator.endFrame s
            /\ VideoGenerator.prompt s' = VideoGenerator.prompt s) as [-> [-> ->]].
    { subst s' outcome. unfold VideoGenerator.handleGenerateClick.
      rewrite Hstart, Hend.
      destruct (JsText.blank (VideoGenerator.prompt s)); [repeat split|].
      destruct (VideoGenerator.isKeySelected s); [|repeat split].
      cbn [negb]. rewrite Hrun. cbn [fst]. rewrite video_after_run. repeat split. }
    rewrite Hstart, Hend in *.
    destruct (JsText.blank (VideoGenerator.prompt s));
      [now rewrite !orb_true_r in Henabled|reflexivity].
  - repeat constructor.
Qed.

Lemma missing_key_keeps_selection_witness :
  let env := scripted None (Rejected TypeError)
                      (Resolved (videoJob true (Some "https://example/video123"))) [] in
  let outcome :=
    VideoGenerator.handleGenerateClick env 3 "undefined is not an object"
                                       (directing "sunrise time-lapse") initial in
  let s' := VideoGenerator.after (directing "sunrise time-lapse") (fst outcome) in
  snd outcome = initial
  /\ VideoGenerator.error s'
     = Some "API_KEY is not available in process.env. Please select an API key."
  /\ VideoGenerator.isKeySelected s' = true
  /\ VideoGenerator.isButtonDisabled s' = false.
Proof.
  destruct (missing_key_keeps_selection
              (scripted None (Rejected TypeError)
                        (Resolved (videoJob true (Some "https://example/video123"))) [])
              3 "undefined is not an object" (directing "sunrise time-lapse") initial
              eq_refl eq_refl) as [Hw [He [Hk [Hb _]]]].
  exact (conj Hw (conj He (conj Hk Hb))).
Defined.

Lemma loadingMessagesOf_app (a b : list VideoGenerator.Effect) :
  loadingMessagesOf (a ++ b) = loadingMessagesOf a ++ loadingMessagesOf b.
Proof. unfold loadingMessagesOf. apply flat_map_app. Qed.

Lemma loadingMessagesOf_messages (ms : list string) :
  loadingMessagesOf (map VideoGenerator.setLoadingMessage ms) = ms.
Proof.
  induction ms as [|m ms IH]; [reflexivity|].
  cbn [map]. change (loadingMessagesOf (VideoGenerator.setLoadingMessage m :: ?l))
    with (m :: loadingMessagesOf l).
  unfold loadingMessagesOf in *. cbn [flat_map app]. now rewrite IH.
Qed.

(** X19. The loading message follows the run.  When a click on Generate
    Video leads to a run of [generateVideo] that returns, the loading
    message was set, in this order, to: ["Starting video generation..."],
    ["Preparing images for video generation..."], ["Initiating video
    generation with Veo model..."], ["Video generation in progress...
    This may take a few minutes."], one checking-status message for each
    of the [n] status requests of the run, ["Finalizing video..."], and
    the empty message at the end.  Read back from the texts, the
    checking-status messages spell the attempt numbers 1, 2, ..., [n] in
    decimal digits between ["Checking status (attempt "] and
    [")... Please be patient."], and no other message carries one. *)
Theorem loading_message_follows_run
        (env : Env) (rounds : nat) (typeErrorMessage : string)
        (s : VideoGenerator.State) (startFile endFile : File) (url : string) :
  VideoGenerator.file (VideoGenerator.startFrame s) = Some startFile ->
  VideoGenerator.file (VideoGenerator.endFrame s) = Some endFile ->
  JsText.blank (VideoGenerator.prompt s) = false ->
  VideoGenerator.isKeySelected s = true ->
  fst (generateVideo env rounds startFile endFile (VideoGenerator.prompt s) initial)
  = Returned url ->
  let outcome := VideoGenerator.handleGenerateClick env rounds typeErrorMessage s initial in
  exists n,
    loadingMessagesOf (fst outcome)
    = ["Starting video generation...";
       "Preparing images for video generation...";
       "Initiating video generation with Veo model...";
       "Video generation in progress... This may take a few minutes."]
        ++ map checkingStatus (seq 1 n) ++ ["Finalizing video..."; EmptyString]
    /\ map Attempt.attemptOf (loadingMessagesOf (fst outcome))
       = [None; None; None; None] ++ map Some (seq 1 n) ++ [None; None]
    /\ List.length (refetchesOf (trace (snd outcome))) = n
    /\ (forall k,
           In k (seq 1 n) ->
           Attempt.attemptOf (checkingStatus k) = Some k)
    /\ (1 <= n ->
        nth 4 (loadingMessagesOf (fst outcome)) EmptyString
        = "Checking status (attempt 1)... Please be patient.")
    /\ (2 <= n ->
        nth 5 (loadingMessagesOf (fst outcome)) EmptyString
        = "Checking status (attempt 2)... Please be patient.").
Proof.
  intros Hstart Hend Hprompt Hselected Hrun outcome. subst outcome.
  unfold VideoGenerator.handleGenerateClick.
  rewrite Hstart, Hend, Hprompt, Hselected. cbn [negb].
  destruct (generateVideo env rounds startFile endFile (VideoGenerator.prompt s) initial)
    as [result w'] eqn:Hgen.
  cbn [fst] in *. subst result.
  destruct (returned_progress env rounds startFile endFile (VideoGenerator.prompt s)
              url w' Hgen) as [n [Hprogress Hfetches]].
  exists n. cbn [fst snd].
  unfold added. cbn [initial trace List.length skipn].
  assert (loadingMessagesOf
            ([VideoGenerator.setIsLoading true; VideoGenerator.setError None;
              VideoGenerator.setGeneratedVideoUrl None;
              VideoGenerator.setLoadingMessage "Starting video generation..."]
               ++ map VideoGenerator.setLoadingMessage (progressOf (trace w'))
               ++ [VideoGenerator.setGeneratedVideoUrl (Some url);
                   VideoGenerator.setIsLoading false;
                   VideoGenerator.setLoadingMessage ""])
          = ["Starting video generation...";
             "Preparing images for video generation...";
             "Initiating video generation with Veo model...";
             "Video generation in progress... This may take a few minutes."]
              ++ map checkingStatus (seq 1 n) ++ ["Finalizing video..."; EmptyString])
    as Hmessages.
  { rewrite !loadingMessagesOf_app, loadingMessagesOf_messages, Hprogress.
    cbn [loadingMessagesOf flat_map app]. rewrite <- !app_assoc. reflexivity. }
  rewrite Hmessages.
  split; [reflexivity|].
  split; [rewrite !map_app, AttemptFacts.attemptOf_attempts; reflexivity|].
  split; [exact Hfetches|].
  split; [intros k _; apply AttemptFacts.attemptOf_checkingStatus|].
  split; intros Hn.
  - destruct n as [|n]; [lia|]. reflexivity.
  - destruct n as [|[|n]]; [lia..|]. reflexivity.
Qed.

Lemma loading_message_follows_run_witness :
  let outcome :=
    VideoGenerator.handleGenerateClick sunrise 5 "undefined is not an object"
                                       (directing "sunrise time-lapse") initial in
  exists n,
    loadingMessagesOf (fst outcome)
    = ["Starting video generation...";
       "Preparing images for video generation...";
       "Initiating video generation with Veo model...";
       "Video generation in progress... This may take a few minutes."]
        ++ map checkingStatus (seq 1 n) ++ ["Finalizing video..."; EmptyString]
    /\ map Attempt.attemptOf (loadingMessagesOf (fst outcome))
       = [None; None; None; None] ++ map Some (seq 1 n) ++ [None; None]
    /\ List.length (refetchesOf (trace (snd outcome))) = n
    /\ (forall k,
           In k (seq 1 n) ->
           Attempt.attemptOf (checkingStatus k) = Some k)
    /\ (1 <= n ->
        nth 4 (loadingMessagesOf (fst outcome)) EmptyString
        = "Checking status (attempt 1)... Please be patient.")
    /\ (2 <= n ->
        nth 5 (loadingMessagesOf (fst outcome)) EmptyString
        = "Checking status (attempt 2)... Please be patient.").
Proof.
  apply (loading_message_follows_run sunrise 5 "undefined is not an object"
           (directing "sunrise time-lapse") frameA frameB
           "https://example/video123&key=secret");
    reflexivity.
Defined.

Lemma keyless_step (aistudio : option VideoGenerator.AiStudio)
      (sw : VideoGenerator.State * World) (a : VideoGenerator.Action) :
  keyless aistudio = true ->
  keylessState sw ->
  keylessState (VideoGenerator.step aistudio sw a).
Proof.
  intros Hkeyless [Hkey [Hw [Hurl Hloading]]].
  destruct sw as [s w]. cbn [fst snd] in *. subst w.
  destruct a as [f u|f u|p| |env rounds typeErrorMessage]; cbn [VideoGenerator.step].
  - repeat split; assumption.
  - repeat split; assumption.
  - repeat split; assumption.
  - unfold VideoGenerator.handleSelectKey, keyless in *.
    destruct aistudio as [studio|]; [|repeat split; assumption].
    apply andb_prop in Hkeyless as [_ Hopen].
    destruct (VideoGenerator.openSelectKey studio) as [[[]|e]|];
      [discriminate|repeat split; assumption..].
  - unfold VideoGenerator.handleGenerateClick.
    destruct (VideoGenerator.file (VideoGenerator.startFrame s));
      [|repeat split; assumption].
    destruct (VideoGenerator.file (VideoGenerator.endFrame s));
      [|repeat split; assumption].
    destruct (JsText.blank (VideoGenerator.prompt s)); [repeat split; assumption|].
    rewrite Hkey. repeat split; assumption.
Qed.

Lemma keyless_fold (aistudio : option VideoGenerator.AiStudio)
      (actions : list VideoGenerator.Action) :
  keyless aistudio = true ->
  forall sw,
    keylessState sw ->
    keylessState (fold_left (VideoGenerator.step aistudio) actions sw).
Proof.
  intros Hkeyless. induction actions as [|a actions IH]; intros sw Hsw; [exact Hsw|].
  cbn [fold_left]. apply IH. now apply keyless_step.
Qed.

(** X20. Without a way to select a key there is no video.  When the page
    runs outside the studio, or the studio reports no key and its
    dialog cannot be opened, then whatever the user does, in whatever
    order, the key is never selected, the Generate Video button stays
    disabled, no video is ever shown, and the service module is never
    called: no file is read and nothing is sent. *)
Theorem keyless_session_never_generates
        (aistudio : option VideoGenerator.AiStudio) (actions : list VideoGenerator.Action) :
  keyless aistudio = true ->
  let s := fst (VideoGenerator.session aistudio actions) in
  VideoGenerator.isKeySelected s = false
  /\ VideoGenerator.isButtonDisabled s = true
  /\ VideoGenerator.generatedVideoUrl s = None
  /\ trace (snd (VideoGenerator.session aistudio actions)) = [].
Proof.
  intros Hkeyless s.
  assert (keylessState (VideoGenerator.session aistudio actions)) as [Hkey [Hw [Hurl _]]].
  { unfold VideoGenerator.session. apply keyless_fold; [assumption|].
    unfold VideoGenerator.checkApiKey, keyless in *.
    destruct aistudio as [studio|]; [|repeat split].
    apply andb_prop in Hkeyless as [Hhas _].
    destruct (VideoGenerator.hasSelectedApiKey studio) as [[[|]|e]|];
      [discriminate|repeat split..]. }
  subst s. split; [exact Hkey|]. split; [|split; [exact Hurl|now rewrite Hw]].
  unfold VideoGenerator.isButtonDisabled. rewrite Hkey. now rewrite !orb_true_r.
Qed.

Lemma keyless_session_never_generates_witness :
  let actions :=
    [VideoGenerator.SelectStartFrame frameA "blob:preview-a";
     VideoGenerator.SelectEndFrame frameB "blob:preview-b";
     VideoGenerator.ChangePrompt "sunrise time-lapse";
     VideoGenerator.ClickSelectKey;
     VideoGenerator.ClickGenerate sunrise 5 "undefined is not an object"] in
  let s := fst (VideoGenerator.session None actions) in
  VideoGenerator.isKeySelected s = false
  /\ VideoGenerator.isButtonDisabled s = true
  /\ VideoGenerator.generatedVideoUrl s = None
  /\ trace (snd (VideoGenerator.session None actions)) = [].
Proof.
  apply (keyless_session_never_generates None). reflexivity.
Defined.

(** X21. The key is taken to be selected as soon as the dialog has
    closed, whatever the studio reports.  If the user then uploads both
    frames, types a prompt and clicks Generate Video while no key is
    configured, the click passes the component's checks, fails in the
    service module before any file is read, shows the module's message
    about the missing key, and leaves the key selected. *)
Theorem assumed_key_meets_missing_key
        (studio : VideoGenerator.AiStudio) (env : Env) (rounds : nat)
        (typeErrorMessage : string) (startFile endFile : File)
        (startURL endURL typed : string) :
  VideoGenerator.openSelectKey studio = Some (Resolved tt) ->
  JsText.blank typed = false ->
  Js.truthy (API_KEY env) = false ->
  let ended :=
    VideoGenerator.session (Some studio)
      [VideoGenerator.ClickSelectKey;
       VideoGenerator.SelectStartFrame startFile startURL;
       VideoGenerator.SelectEndFrame endFile endURL;
       VideoGenerator.ChangePrompt typed;
       VideoGenerator.ClickGenerate env rounds typeErrorMessage] in
  VideoGenerator.isKeySelected (fst ended) = true
  /\ VideoGenerator.error (fst ended)
     = Some "API_KEY is not available in process.env. Please select an API key."
  /\ VideoGenerator.generatedVideoUrl (fst ended) = None
  /\ VideoGenerator.isLoading (fst ended) = false
  /\ trace (snd ended) = [].
Proof.
  intros Hopen Hblank Hkey ended. subst ended.
  unfold VideoGenerator.session. cbn [fold_left].
  set (s0 := VideoGenerator.after VideoGenerator.mounted
               (VideoGenerator.checkApiKey (Some studio))).
  cbn [VideoGenerator.step].
  unfold VideoGenerator.handleSelectKey. rewrite Hopen.
  unfold VideoGenerator.handleGenerateClick.
  cbn [VideoGenerator.after fold_left VideoGenerator.apply
       VideoGenerator.startFrame VideoGenerator.endFrame VideoGenerator.file
       VideoGenerator.prompt VideoGenerator.isKeySelected].
  rewrite Hblank. cbn [negb].
  assert (generateVideo env rounds startFile endFile typed initial
          = (Threw authenticationError, initial)) as ->.
  { rewrite generateVideo_run.
    destruct (API_KEY env) as [key|]; [|reflexivity]. now rewrite Hkey. }
  cbn. repeat split.
Qed.

Lemma assumed_key_meets_missing_key_witness :
  let ended :=
    VideoGenerator.session (Some undecided)
      [VideoGenerator.ClickSelectKey;
       VideoGenerator.SelectStartFrame frameA "blob:preview-a";
       VideoGenerator.SelectEndFrame frameB "blob:preview-b";
       VideoGenerator.ChangePrompt "sunrise time-lapse";
       VideoGenerator.ClickGenerate
         (scripted None (Rejected TypeError) (Rejected TypeError) [])
         5 "undefined is not an object"] in
  VideoGenerator.isKeySelected (fst ended) = true
  /\ VideoGenerator.error (fst ended)
     = Some "API_KEY is not available in process.env. Please select an API key."
  /\ VideoGenerator.generatedVideoUrl (fst ended) = None
  /\ VideoGenerator.isLoading (fst ended) = false
  /\ trace (snd ended) = [].
Proof.
  apply (assumed_key_meets_missing_key undecided
           (scripted None (Rejected TypeError) (Rejected TypeError) [])
           5 "undefined is not an object" frameA frameB
           "blob:preview-a" "blob:preview-b" "sunrise time-lapse");
    reflexivity.
Defined.

(* ================================================================= *)
(** ** Sessions of the image editor *)

Lemma editor_step_at_rest (sw : ImageEditor.State * World) (a : ImageEditor.Action) :
  editorAtRest (fst sw) -> editorAtRest (fst (ImageEditor.step sw a)).
Proof.
  destruct sw as [s w]. intros [Hloading Himage]. cbn [fst] in *.
  destruct a as [f u|p|v|p|t|env typeErrorMessage]; cbn [ImageEditor.step fst].
  - split; [exact Hloading|]. cbn. discriminate.
  - split; assumption.
  - split; assumption.
  - split; assumption.
  - split; assumption.
  - unfold ImageEditor.handleGenerateClick.
    destruct (ImageEditor.file (ImageEditor.originalImage s)) as [imageFile|] eqn:Hfile;
      [|split; cbn; [exact Hloading|rewrite Hfile; exact Himage]].
    destruct (JsText.blank (ImageEditor.prompt s));
      [split; cbn; [exact Hloading|rewrite Hfile; exact Himage]|].
    pose proof (editImage_settles env imageFile
                  (ImageEditor.finalPrompt (ImageEditor.editTarget s)
                                           (ImageEditor.prompt s)) w) as Hsettles.
    destruct (editImage env imageFile _ w) as [[d|e|] w']; cbn [fst] in *;
      [| |congruence]; split; cbn; try reflexivity.
    + intros _. rewrite Hfile. discriminate.
    + congruence.
Qed.

Lemma editor_fold_at_rest (actions : list ImageEditor.Action) :
  forall sw,
    editorAtRest (fst sw) ->
    editorAtRest (fst (fold_left ImageEditor.step actions sw)).
Proof.
  induction actions as [|a actions IH]; intros sw Hsw; [exact Hsw|].
  cbn [fold_left]. apply IH. now apply editor_step_at_rest.
Qed.

(** X22. The editor never gets stuck.  After any sequence of actions of
    the user, whatever the reader and the service did at each click on
    Generate, the loading flag is off again, so that the button is
    disabled only for want of an image or of a prompt; and an edited
    image is set only if an image is uploaded. *)
Theorem editor_session_at_rest (actions : list ImageEditor.Action) :
  let s := fst (ImageEditor.session actions) in
  ImageEditor.isLoading s = false
  /\ (ImageEditor.editedImage s <> None ->
      ImageEditor.file (ImageEditor.originalImage s) <> None)
  /\ ImageEditor.isButtonDisabled s
     = match ImageEditor.file (ImageEditor.originalImage s) with
       | Some _ => JsText.allWhite (ImageEditor.prompt s)
       | None => true
       end.
Proof.
  intros s.
  assert (editorAtRest s) as [Hloading Himage].
  { subst s. unfold ImageEditor.session. apply editor_fold_at_rest.
    split; [reflexivity|]. intros H. now destruct H. }
  split; [exact Hloading|]. split; [exact Himage|].
  unfold ImageEditor.isButtonDisabled.
  rewrite Hloading, JsTextFacts.blank_allWhite.
  now destruct (ImageEditor.file (ImageEditor.originalImage s)).
Qed.

(** X23. A frame without payload is sent all the same.  When the reader
    ends with strings that contain no comma, the encoder gives no data
    for the frames, and [generateVideo], given a key, submits the job
    without image bytes instead of failing. *)
Theorem frames_without_payload_are_submitted
        (env : Env) (rounds : nat) (startImageFile endImageFile : File) (prompt : string)
        (text1 text2 : string) :
  Js.truthy (API_KEY env) = true ->
  readAsDataURL env startImageFile = Loaded (ResultString text1) ->
  readAsDataURL env endImageFile = Loaded (ResultString text2) ->
  Js.occurs ","%char text1 = false ->
  Js.occurs ","%char text2 = false ->
  exists request,
    nth_error
      (trace (snd (generateVideo env rounds startImageFile endImageFile prompt initial))) 4
    = Some (CallGenerateVideos request)
    /\ imageBytes (image request) = None
    /\ imageBytes (lastFrame (config request)) = None.
Proof.
  intros Hkey Hr1 Hr2 Hc1 Hc2.
  assert (readerSettlement env startImageFile = Some (Resolved None)) as Hs1.
  { rewrite readerSettlement_cases, Hr1, JsFacts.split_field1.
    now rewrite JsFacts.after_absent. }
  assert (readerSettlement env endImageFile = Some (Resolved None)) as Hs2.
  { rewrite readerSettlement_cases, Hr2, JsFacts.split_field1.
    now rewrite JsFacts.after_absent. }
  exists (videoRequest startImageFile endImageFile prompt None None).
  split; [|split; reflexivity].
  destruct (generateVideos env (videoRequest startImageFile endImageFile prompt None None))
    as [op0|e] eqn:Hsub.
  - destruct (generateVideo_prefix env startImageFile endImageFile prompt _ _
                Hkey Hs1 Hs2 op0 Hsub 0 rounds eq_refl (Nat.le_0_l rounds)) as [t ->].
    reflexivity.
  - rewrite (generateVideo_rejected env startImageFile endImageFile prompt _ _
               Hkey Hs1 Hs2 rounds e Hsub).
    reflexivity.
Qed.

Lemma frames_without_payload_are_submitted_witness :
  exists request,
    nth_error
      (trace (snd (generateVideo (reading (Loaded (ResultString "data:")))
                                 3 frameA frameB "sunrise time-lapse" initial))) 4
    = Some (CallGenerateVideos request)
    /\ imageBytes (image request) = None
    /\ imageBytes (lastFrame (config request)) = None.
Proof.
  apply (frames_without_payload_are_submitted
           (reading (Loaded (ResultString "data:")))
           3 frameA frameB "sunrise time-lapse" "data:" "data:");
    reflexivity.
Defined.
